(** * FastMap: a shallow embedding of the embedding engine

    The development follows the two source files of the repository:

    - [fastmap/core.py], class [FastMapABC] (module [Core] below): the
      array-backend implementation with [fit] and [transform];
    - [python/fastmap.py], class [FastMapSVM] (module [SVM] below): the
      older variant with [embed_database], [_pdist] and the refinement
      loop of the supervised pivot selection.

    Conventions of the model.

    - Array entries are real numbers ([R]); [np.sqrt], [np.square] and
      [np.clip] are the real functions.  Rounding, infinities and NaN are
      outside the model, except where a division by zero produces them
      (module [SVM], type [npfloat]).
    - Object indices are integers ([Z]); the pivot index table has dtype
      [uint16], written out as reduction modulo 2^16.
    - [np.argsort] is modelled by the stable ascending sort (the default
      introsort is only specified up to the order of equal keys; it is an
      insertion sort, hence stable, on arrays of at most 16 entries).
    - [np.random.choice] reads a tape of natural numbers kept in the
      state; a draw [r] over a pool of [n] entries picks entry [r mod n].
      An exhausted tape means that the loop around the draw is still
      running ([Hang]).
    - The distance capability ([_distance_func], [_distance]) is a
      parameter acting on pairs of objects; the array versions broadcast
      it. *)

From Stdlib Require Import Reals Lra Lia ZArith List Bool Arith.
From Stdlib Require Import Permutation Sorted.
Import ListNotations.

Open Scope R_scope.

(** ** Python outcomes *)

Inductive exn : Type :=
| ValueError
| IndexError
| UnboundLocalError
| AttributeError.

(** A call either returns a value and a state, raises with the state
    reached at the raise, or is still looping when the model's tape or
    fuel ends. *)
Inductive outcome (St A : Type) : Type :=
| Ok (a : A) (s : St)
| Raise (e : exn) (s : St)
| Hang.

Arguments Ok {St A} a s.
Arguments Raise {St A} e s.
Arguments Hang {St A}.

Definition M (St A : Type) : Type := St -> outcome St A.

Definition ret {St A} (a : A) : M St A := fun s => Ok a s.

Definition bind {St A B} (c : M St A) (k : A -> M St B) : M St B :=
  fun s => match c s with
           | Ok a s' => k a s'
           | Raise e s' => Raise e s'
           | Hang => Hang
           end.

Definition raise {St A} (e : exn) : M St A := fun s => Raise e s.
Definition get {St} : M St St := fun s => Ok s s.
Definition put {St} (s : St) : M St unit := fun _ => Ok tt s.

Declare Scope py_scope.
Delimit Scope py_scope with py.
Notation "x <- c ;; k" := (bind c (fun x => k))
  (at level 61, c at next level, right associativity) : py_scope.
Notation "c ;;; k" := (bind c (fun _ => k))
  (at level 61, right associativity) : py_scope.

(** Lookup that raises [IndexError] / [AttributeError] on [None]. *)
Definition lift {St A} (e : exn) (o : option A) : M St A :=
  match o with Some a => ret a | None => raise e end.

Fixpoint mapM {St A B} (f : A -> M St B) (l : list A) : M St (list B) :=
  match l with
  | [] => ret []
  | a :: t => (b <- f a ;; bs <- mapM f t ;; ret (b :: bs))%py
  end.

Fixpoint forM {St A} (l : list A) (body : A -> M St unit) : M St unit :=
  match l with
  | [] => ret tt
  | a :: t => (body a ;;; forM t body)%py
  end.

(** ** Array helpers shared by the two variants *)

Definition EPSILON : R := / 1000000000.

Definition np_square (x : R) : R := x * x.

(** [xp.clip(x, 0, xp.inf)]. *)
Definition np_clip_0_inf (x : R) : R := Rmax x 0.

Definition np_sqrt (x : R) : R := sqrt x.

(** Integer index into a list: [l[i]] for [0 <= i < len(l)]. *)
Definition getitem {A} (l : list A) (i : Z) : option A :=
  if (i <? 0)%Z then None else nth_error l (Z.to_nat i).

Definition np_arange (n : nat) : list Z := map Z.of_nat (seq 0 n).

(** [np.argwhere(y == label).flatten()]. *)
Fixpoint argwhere_from (i : Z) (y : list Z) (label : Z) : list Z :=
  match y with
  | [] => []
  | v :: t => if (v =? label)%Z
              then i :: argwhere_from (i + 1)%Z t label
              else argwhere_from (i + 1)%Z t label
  end.

Definition np_argwhere_eq (y : list Z) (label : Z) : list Z :=
  argwhere_from 0%Z y label.

(** [x in a] for an integer array [a]. *)
Definition contains (a : list Z) (x : Z) : bool :=
  existsb (fun v => (v =? x)%Z) a.

(** dtype [np.uint16]: storing an integer keeps it modulo 2^16. *)
Definition uint16 (i : Z) : Z := (i mod 65536)%Z.

(** Stable ascending sort of the positions [0 .. len-1] by key. *)
Definition Rleb (x y : R) : bool := if Rle_dec x y then true else false.

Fixpoint insert_key (x : R * nat) (l : list (R * nat)) : list (R * nat) :=
  match l with
  | [] => [x]
  | h :: t => if Rleb (fst x) (fst h) then x :: h :: t
              else h :: insert_key x t
  end.

Fixpoint sort_keys (l : list (R * nat)) : list (R * nat) :=
  match l with
  | [] => []
  | x :: t => insert_key x (sort_keys t)
  end.

Definition np_argsort (dist : list R) : list nat :=
  map snd (sort_keys (combine dist (seq 0 (length dist)))).

(** [idxs[perm]] for a permutation array [perm]; positions are in range by
    construction, the default is never used. *)
Definition take_positions (idxs : list Z) (perm : list nat) : list Z :=
  map (fun p => nth p idxs 0%Z) perm.

(** [for v in seq: if v not in forbidden: break], started with the loop
    variable bound to [cur] (or unbound): the value it holds afterwards. *)
Fixpoint for_break (l forbidden : list Z) (cur : option Z) : option Z :=
  match l with
  | [] => cur
  | v :: t => if contains forbidden v then for_break t forbidden (Some v)
              else Some v
  end.

(** [row[:k]] differences used by the residual distance:
    [dist <- sqrt(clip(dist**2 - dW[i], 0, inf))] for [i = 0 .. k-1],
    where [dW = square(w_a - w_b)]. *)
Definition residual_step (w_a w_b : list R) (dist : R) (i : nat) : R :=
  np_sqrt (np_clip_0_inf
             (dist * dist - np_square (nth i w_a 0 - nth i w_b 0))).

Definition residual (k : nat) (w_a w_b : list R) (dist : R) : R :=
  fold_left (residual_step w_a w_b) (seq 0 k) dist.

(** [l[i : i + bs] for i in range(0, len(l), bs)] for [bs > 0]. *)
Fixpoint batches {A} (fuel bs : nat) (l : list A) : list (list A) :=
  match fuel, l with
  | _, [] => []
  | O, _ => []
  | S fuel', _ => firstn bs l :: batches fuel' bs (skipn bs l)
  end.

(** [M[:, d] = col] on a list of rows. *)
Definition set_nth {A} (n : nat) (v : A) (l : list A) : list A :=
  firstn n l ++ match skipn n l with [] => [] | _ :: t => v :: t end.

Definition set_column (d : nat) (col : list R) (m : list (list R))
  : list (list R) :=
  map (fun rc => set_nth d (snd rc) (fst rc)) (combine m col).

(** ** [fastmap/core.py]: class [FastMapABC] *)

Module Core.

Section FastMapABC.

(** Objects of the data domain (rows of [X]) and the distance capability
    [_distance_func], which the class leaves to its subclasses. *)
Context {obj : Type}.
Variable _distance_func : obj -> obj -> R.

(** [np.nan] as the fill value of float arrays and of the object
    snapshots; every filled cell is overwritten before it is read. *)
Variable np_nan : R.
Variable nan_obj : obj.

(** Instance attributes; [None] is an attribute that does not exist
    ([hasattr] is false).  [np_random] is the tape of [np.random]. *)
Record FastMapABC : Type := mkFastMapABC {
  _ihyprpln : nat;
  _n_dim : nat;
  _batch_size : Z;
  _supervised : bool;
  _pivot_ids : option (list (Z * Z));
  _W_piv : option (list (list R * list R));
  _X_piv : option (list (obj * obj));
  _X : option (list obj);
  _y : option (list Z);
  W : option (list (list R));
  np_random : list nat
}.

Definition Py (A : Type) : Type := M FastMapABC A.

Definition set_ihyprpln (v : nat) (s : FastMapABC) : FastMapABC :=
  mkFastMapABC v (_n_dim s) (_batch_size s) (_supervised s) (_pivot_ids s)
    (_W_piv s) (_X_piv s) (_X s) (_y s) (W s) (np_random s).
Definition set_supervised (v : bool) (s : FastMapABC) : FastMapABC :=
  mkFastMapABC (_ihyprpln s) (_n_dim s) (_batch_size s) v (_pivot_ids s)
    (_W_piv s) (_X_piv s) (_X s) (_y s) (W s) (np_random s).
Definition set_pivot_ids (v : option (list (Z * Z))) (s : FastMapABC) :=
  mkFastMapABC (_ihyprpln s) (_n_dim s) (_batch_size s) (_supervised s) v
    (_W_piv s) (_X_piv s) (_X s) (_y s) (W s) (np_random s).
Definition set_W_piv (v : option (list (list R * list R))) (s : FastMapABC) :=
  mkFastMapABC (_ihyprpln s) (_n_dim s) (_batch_size s) (_supervised s)
    (_pivot_ids s) v (_X_piv s) (_X s) (_y s) (W s) (np_random s).
Definition set_X_piv (v : option (list (obj * obj))) (s : FastMapABC) :=
  mkFastMapABC (_ihyprpln s) (_n_dim s) (_batch_size s) (_supervised s)
    (_pivot_ids s) (_W_piv s) v (_X s) (_y s) (W s) (np_random s).
Definition set_X (v : option (list obj)) (s : FastMapABC) : FastMapABC :=
  mkFastMapABC (_ihyprpln s) (_n_dim s) (_batch_size s) (_supervised s)
    (_pivot_ids s) (_W_piv s) (_X_piv s) v (_y s) (W s) (np_random s).
Definition set_y (v : option (list Z)) (s : FastMapABC) : FastMapABC :=
  mkFastMapABC (_ihyprpln s) (_n_dim s) (_batch_size s) (_supervised s)
    (_pivot_ids s) (_W_piv s) (_X_piv s) (_X s) v (W s) (np_random s).
Definition set_W (v : option (list (list R))) (s : FastMapABC) : FastMapABC :=
  mkFastMapABC (_ihyprpln s) (_n_dim s) (_batch_size s) (_supervised s)
    (_pivot_ids s) (_W_piv s) (_X_piv s) (_X s) (_y s) v (np_random s).
Definition set_np_random (v : list nat) (s : FastMapABC) : FastMapABC :=
  mkFastMapABC (_ihyprpln s) (_n_dim s) (_batch_size s) (_supervised s)
    (_pivot_ids s) (_W_piv s) (_X_piv s) (_X s) (_y s) (W s) v.

Definition modify (f : FastMapABC -> FastMapABC) : Py unit :=
  fun s => Ok tt (f s).

(** The setter of [batch_size], given an [int] (its [isinstance] check
    passes). *)
Definition set_batch_size (v : Z) (s : FastMapABC) : FastMapABC :=
  mkFastMapABC (_ihyprpln s) (_n_dim s) v (_supervised s) (_pivot_ids s)
    (_W_piv s) (_X_piv s) (_X s) (_y s) (W s) (np_random s).

(** [__init__]: only the cursor, the dimension and the batch size exist. *)
Definition __init__ (n_dim : nat) (batch_size : Z) (rng : list nat)
  : FastMapABC :=
  mkFastMapABC 0 n_dim batch_size false None None None None None None rng.

(** *** Properties *)

Definition attr {A} (f : FastMapABC -> option A) : Py A :=
  fun s => lift AttributeError (f s) s.

Definition X : Py (list obj) := attr _X.
Definition y : Py (list Z) := attr _y.
Definition get_W : Py (list (list R)) := attr W.

Definition n_obj : Py nat := (x <- X ;; ret (length x))%py.

Definition pivot_ids : Py (list (Z * Z)) :=
  fun s => match _pivot_ids s with
           | Some p => Ok p s
           | None => let p := repeat (0%Z, 0%Z) (_n_dim s) in
                     Ok p (set_pivot_ids (Some p) s)
           end.

Definition W_piv : Py (list (list R * list R)) :=
  fun s => match _W_piv s with
           | Some p => Ok p s
           | None =>
               let row := repeat np_nan (_n_dim s) in
               let p := repeat (row, row) (_n_dim s) in
               Ok p (set_W_piv (Some p) s)
           end.

(** The shape of a fresh [X_piv] is read from [self.X]. *)
Definition X_piv : Py (list (obj * obj)) :=
  fun s => match _X_piv s with
           | Some p => Ok p s
           | None =>
               match _X s with
               | None => Raise AttributeError s
               | Some _ => let p := repeat (nan_obj, nan_obj) (_n_dim s) in
                           Ok p (set_X_piv (Some p) s)
               end
           end.

(** The setter of [y]: labels switch the supervised mode on. *)
Definition set_labels (value : option (list Z)) : Py unit :=
  match value with
  | Some v => modify (fun s => set_supervised true (set_y (Some v) s))
  | None => modify (set_supervised false)
  end.

(** *** [distance_matrix] *)

(** [range(0, n, batch_size)] as the list of slices of [i_objs]:
    a zero step raises, a negative step yields nothing. *)
Definition batch_slices (i_objs : list Z) : Py (list (list Z)) :=
  fun s =>
    if (_batch_size s =? 0)%Z then Raise ValueError s
    else if (_batch_size s <? 0)%Z then Ok [] s
    else Ok (batches (length i_objs) (Z.to_nat (_batch_size s)) i_objs) s.

(** [self._distance_func(X_1[batch], X_j)]. *)
Definition batch_distance (X_1 : list obj) (x_j : obj) (batch : list Z)
  : Py (list R) :=
  mapM (fun i => x_i <- lift IndexError (getitem X_1 i) ;;
                 ret (_distance_func x_i x_j))%py batch.

(** [dist = concatenate(dist) if len(dist) > 1 else dist[0]]. *)
Definition join_batches (dist : list (list R)) : Py (list R) :=
  match dist with
  | [] => raise IndexError
  | [b] => ret b
  | _ => ret (concat dist)
  end.

(** [distance_matrix(i_objs, j_obj)] with [X_1 = X_2 = self.X] and
    [W_1 = W_2 = self.W]; [j_obj] is the single second index ([j_piv] or
    [[j_piv]]).  The loop over the [_ihyprpln] finished dimensions acts on
    each entry independently and is folded entry by entry. *)
Definition distance_matrix (i_objs : list Z) (j_obj : Z) : Py (list R) :=
  (x <- X ;;
   w <- get_W ;;
   x_j <- lift IndexError (getitem x j_obj) ;;
   w_i <- mapM (fun i => lift IndexError (getitem w i)) i_objs ;;
   w_j <- lift IndexError (getitem w j_obj) ;;
   slices <- batch_slices i_objs ;;
   dist <- mapM (batch_distance x x_j) slices ;;
   dist <- join_batches dist ;;
   s <- get ;;
   ret (map (fun wd => residual (_ihyprpln s) (fst wd) w_j (snd wd))
            (combine w_i dist)))%py.

(** *** [furthest] *)

Definition label_pool (label : option Z) : Py (list Z) :=
  match label with
  | None => (n <- n_obj ;; ret (np_arange n))%py
  | Some l => (labels <- y ;; ret (np_argwhere_eq labels l))%py
  end.

Definition furthest (i_obj : Z) (label : option Z) : Py (list Z) :=
  (idxs <- label_pool label ;;
   w <- get_W ;;
   x <- X ;;
   w_k <- mapM (fun i => lift IndexError (getitem w i)) idxs ;;
   w_i <- lift IndexError (getitem w i_obj) ;;
   x_k <- mapM (fun i => lift IndexError (getitem x i)) idxs ;;
   x_i <- lift IndexError (getitem x i_obj) ;;
   s <- get ;;
   let dist := map (fun wx => residual (_ihyprpln s) (fst wx) w_i
                                (_distance_func (snd wx) x_i))
                   (combine w_k x_k) in
   ret (rev (take_positions idxs (np_argsort dist))))%py.

(** *** [_choose_pivots] *)

Definition flatten (p : list (Z * Z)) : list Z :=
  flat_map (fun ij => [fst ij; snd ij]) p.

(** [np.random.choice(idxs)]: raises on an empty pool. *)
Definition np_random_choice (idxs : list Z) : Py Z :=
  fun s => match idxs with
           | [] => Raise ValueError s
           | _ => match np_random s with
                  | [] => Hang
                  | r :: tape =>
                      Ok (nth (r mod length idxs)%nat idxs 0%Z)
                         (set_np_random tape s)
                  end
           end.

(** The first [while True]: draw until the draw is not forbidden.  Every
    round consumes one entry of the tape. *)
Fixpoint draw_start (rounds : nat) (forbidden : list Z) : Py Z :=
  match rounds with
  | O => fun _ => Hang
  | S rounds' =>
      (s <- get ;;
       idxs <- (if _supervised s
                then (labels <- y ;; ret (np_argwhere_eq labels 1%Z))
                else (n <- n_obj ;; ret (np_arange n))) ;;
       j_obj <- np_random_choice idxs ;;
       if contains forbidden j_obj then draw_start rounds' forbidden
       else ret j_obj)%py
  end.

Definition _choose_pivots : Py (Z * Z) :=
  (p <- pivot_ids ;;
   s <- get ;;
   let forbidden := flatten (firstn (_ihyprpln s) p) in
   j_obj <- draw_start (S (length (np_random s))) forbidden ;;
   far <- furthest j_obj (if _supervised s then Some 0%Z else None) ;;
   i_obj <- lift UnboundLocalError (for_break far forbidden None) ;;
   far <- furthest i_obj (if _supervised s then Some 1%Z else None) ;;
   j_obj <- lift UnboundLocalError (for_break far forbidden (Some j_obj)) ;;
   ret (i_obj, j_obj))%py.

(** *** [fit] *)

(** The FastMap coordinate of the training loop, with its clamp. *)
Definition fit_coordinate (d_ik d_jk d_ij : R) : R :=
  np_clip_0_inf
    ((np_square d_ik - np_square d_jk + d_ij * d_ij) / (2 * d_ij + EPSILON)).

Definition fit_dimension (d : nat) : Py unit :=
  (modify (set_ihyprpln d) ;;;
   ij <- _choose_pivots ;;
   let '(i_piv, j_piv) := ij in
   p <- pivot_ids ;;
   modify (set_pivot_ids (Some (set_nth d (uint16 i_piv, uint16 j_piv) p))) ;;;
   x <- X ;;
   xp <- X_piv ;;
   x_i <- lift IndexError (getitem x i_piv) ;;
   modify (set_X_piv (Some (set_nth d (x_i, snd (nth d xp (nan_obj, nan_obj))) xp))) ;;;
   xp <- X_piv ;;
   x_j <- lift IndexError (getitem x j_piv) ;;
   modify (set_X_piv (Some (set_nth d (fst (nth d xp (nan_obj, nan_obj)), x_j) xp))) ;;;
   d_ij <- distance_matrix [i_piv] j_piv ;;
   n <- n_obj ;;
   d_ik <- distance_matrix (np_arange n) i_piv ;;
   n <- n_obj ;;
   d_jk <- distance_matrix (np_arange n) j_piv ;;
   let dij := nth 0 d_ij 0 in
   let col := map (fun ab => fit_coordinate (fst ab) (snd ab) dij)
                  (combine d_ik d_jk) in
   w <- get_W ;;
   modify (set_W (Some (set_column d col w))))%py.

(** [W_piv[i_dim, 0] = W[i_piv]; W_piv[i_dim, 1] = W[j_piv]], indexed by
    the entries of the pivot index table. *)
Definition snapshot_pivot (i_dim : nat) (ij : Z * Z) : Py unit :=
  (w <- get_W ;;
   wp <- W_piv ;;
   w_i <- lift IndexError (getitem w (fst ij)) ;;
   modify (set_W_piv (Some (set_nth i_dim (w_i, snd (nth i_dim wp ([], []))) wp))) ;;;
   w <- get_W ;;
   wp <- W_piv ;;
   w_j <- lift IndexError (getitem w (snd ij)) ;;
   modify (set_W_piv (Some (set_nth i_dim (fst (nth i_dim wp ([], [])), w_j) wp))))%py.

(** [fit] in three parts: the statements before the loop over the
    dimensions, the loop, and the statements after it. *)
Definition fit_begin (X_train : list obj) (labels : option (list Z))
  : Py unit :=
  (modify (set_X (Some X_train)) ;;;
   set_labels labels ;;;
   s <- get ;;
   n <- n_obj ;;
   modify (set_W (Some (repeat (repeat np_nan (_n_dim s)) n))))%py.

Definition fit_loop : Py unit :=
  (s <- get ;; forM (seq 0 (_n_dim s)) fit_dimension)%py.

Definition fit_end : Py unit :=
  (p <- pivot_ids ;;
   forM (combine (seq 0 (length p)) p)
        (fun dij => snapshot_pivot (fst dij) (snd dij)) ;;;
   modify (fun s => set_W None (set_X None (set_pivot_ids None s))) ;;;
   modify (set_y None) ;;;
   modify (set_ihyprpln 0))%py.

Definition fit (X_train : list obj) (labels : option (list Z)) : Py unit :=
  (fit_begin X_train labels ;;; fit_loop ;;; fit_end)%py.

(** *** [transform] *)

(** The coordinate of the out-of-sample loop: the same quotient, not
    clamped. *)
Definition transform_coordinate (d_ik d_jk d_ij : R) : R :=
  (np_square d_ik + np_square d_ij - np_square d_jk) / (d_ij * 2 + EPSILON).

Definition transform_dimension (Xp : list (obj * obj))
  (Wp : list (list R * list R)) (X_batch : list obj)
  (W_batch : list (list R)) (d : nat) : Py (list (list R)) :=
  (modify (set_ihyprpln d) ;;;
   wp <- lift IndexError (nth_error Wp d) ;;
   xp <- lift IndexError (nth_error Xp d) ;;
   let d_ij := residual d (fst wp) (snd wp)
                 (_distance_func (fst xp) (snd xp)) in
   let col :=
     map (fun xw =>
            let d_ik := residual d (snd xw) (fst wp)
                          (_distance_func (fst xw) (fst xp)) in
            let d_jk := residual d (snd xw) (snd wp)
                          (_distance_func (fst xw) (snd xp)) in
            transform_coordinate d_ik d_jk d_ij)
         (combine X_batch W_batch) in
   ret (set_column d col W_batch))%py.

Fixpoint transform_dims (Xp : list (obj * obj))
  (Wp : list (list R * list R)) (X_batch : list obj)
  (W_batch : list (list R)) (dims : list nat) : Py (list (list R)) :=
  match dims with
  | [] => ret W_batch
  | d :: rest =>
      (W_batch' <- transform_dimension Xp Wp X_batch W_batch d ;;
       transform_dims Xp Wp X_batch W_batch' rest)%py
  end.

(** [range(0, n_obj, batch_size)] over the rows of [X]. *)
Definition transform_slices (X_new : list obj) : Py (list (list obj)) :=
  fun s =>
    if (_batch_size s =? 0)%Z then Raise ValueError s
    else if (_batch_size s <? 0)%Z then Ok [] s
    else Ok (batches (length X_new) (Z.to_nat (_batch_size s)) X_new) s.

(** [W] starts as zeros; rows of batches that the loop never reaches
    (negative batch size) stay zero. *)
Definition transform (X_new : list obj) : Py (list (list R)) :=
  (s <- get ;;
   Xp <- X_piv ;;
   Wp <- W_piv ;;
   slices <- transform_slices X_new ;;
   done <- mapM (fun X_batch =>
                   transform_dims Xp Wp X_batch
                     (repeat (repeat 0 (_n_dim s)) (length X_batch))
                     (seq 0 (_n_dim s)))
                slices ;;
   let rows := concat done in
   ret (rows ++ repeat (repeat 0 (_n_dim s)) (length X_new - length rows)))%py.

End FastMapABC.

End Core.

(** ** [python/fastmap.py]: class [FastMapSVM] *)

Module SVM.

(** Array entries after a division that may have a zero divisor: numpy
    does not raise, it stores an infinity or a NaN. *)
Inductive npfloat : Type :=
| Finite (r : R)
| PosInf
| NegInf
| NaN.

Definition isfinite (v : npfloat) : bool :=
  match v with Finite _ => true | _ => false end.

(** [x / y] on float arrays. *)
Definition np_true_divide (x y : R) : npfloat :=
  if Req_dec_T y 0
  then (if Rlt_dec 0 x then PosInf
        else if Rlt_dec x 0 then NegInf else NaN)
  else Finite (x / y).

(** [d[d < 0] = 0]: a comparison with NaN is false. *)
Definition zero_negative (v : npfloat) : npfloat :=
  match v with
  | Finite r => if Rlt_dec r 0 then Finite 0 else Finite r
  | NegInf => Finite 0
  | PosInf => PosInf
  | NaN => NaN
  end.

Section FastMapSVM.

Context {obj : Type}.
Variable _distance : obj -> obj -> R.

(** The loop of [_pdist] and of [distance], with its early [return (0)]. *)
Fixpoint pdist_loop (dims : list nat) (w_a w_b : list R) (dist : R) : R :=
  match dims with
  | [] => dist
  | i :: rest =>
      let dw := nth i w_a 0 - nth i w_b 0 in
      if Rlt_dec (dist * dist) (dw * dw) then 0
      else pdist_loop rest w_a w_b (np_sqrt (dist * dist - dw * dw))
  end.

(** The model keeps the datasets of the HDF5 backend as fields. *)
Record FastMapSVM : Type := mkFastMapSVM {
  _ihyprpln : nat;
  _ndim : nat;
  _X : list obj;
  y : list Z;
  W : list (list R);
  pivot_ids : list (Z * Z);
  np_random : list nat
}.

Definition Py (A : Type) : Type := M FastMapSVM A.

Definition set_np_random (v : list nat) (s : FastMapSVM) : FastMapSVM :=
  mkFastMapSVM (_ihyprpln s) (_ndim s) (_X s) (y s) (W s) (pivot_ids s) v.

(** [_pdist(iobj, jobj)] with [X1 = X2 = self.X], [W1 = W2 = self.W]. *)
Definition _pdist (iobj jobj : Z) : Py R :=
  (s <- get ;;
   x_i <- lift IndexError (getitem (_X s) iobj) ;;
   x_j <- lift IndexError (getitem (_X s) jobj) ;;
   if (_ihyprpln s =? 0)%nat then ret (_distance x_i x_j)
   else
     (w_i <- lift IndexError (getitem (W s) iobj) ;;
      w_j <- lift IndexError (getitem (W s) jobj) ;;
      ret (pdist_loop (seq 0 (_ihyprpln s)) w_i w_j (_distance x_i x_j))))%py.

(** [distance(iobj, jobj)] runs the same statements in the caller. *)
Definition distance (iobj jobj : Z) : Py R := _pdist iobj jobj.

(** [pdist]: the worker pool maps [_pdist] over
    [itertools.product(iobj, jobj)] and keeps the order of the pairs. *)
Definition pdist (iobj jobj : list Z) : Py (list R) :=
  mapM (fun ij => _pdist (fst ij) (snd ij)) (list_prod iobj jobj).

Definition furthest (iobj : Z) (label : option Z) : Py (list Z) :=
  (s <- get ;;
   let idxs := match label with
               | None => np_arange (length (y s))
               | Some l => np_argwhere_eq (y s) l
               end in
   dist <- pdist [iobj] idxs ;;
   ret (take_positions idxs (rev (np_argsort dist))))%py.

Definition flatten (p : list (Z * Z)) : list Z :=
  flat_map (fun ij => [fst ij; snd ij]) p.

Definition np_random_choice (idxs : list Z) : Py Z :=
  fun s => match idxs with
           | [] => Raise ValueError s
           | _ => match np_random s with
                  | [] => Hang
                  | r :: tape =>
                      Ok (nth (r mod length idxs)%nat idxs 0%Z)
                         (set_np_random tape s)
                  end
           end.

Fixpoint draw_start (rounds : nat) (forbidden : list Z) : Py Z :=
  match rounds with
  | O => fun _ => Hang
  | S rounds' =>
      (s <- get ;;
       _jobj <- np_random_choice (np_argwhere_eq (y s) 1%Z) ;;
       if contains forbidden _jobj then draw_start rounds' forbidden
       else ret _jobj)%py
  end.

(** One pass of the body of the second [while True]: the new values of
    [_iobj] and [_jobj]. *)
Definition refine_round (forbidden : list Z) (_iobj : option Z) (_jobj : Z)
  : Py (Z * Z) :=
  (far <- furthest _jobj (Some 0%Z) ;;
   _iobj <- lift UnboundLocalError (for_break far forbidden _iobj) ;;
   far <- furthest _iobj (Some 1%Z) ;;
   _jobj <- lift UnboundLocalError (for_break far forbidden (Some _jobj)) ;;
   ret (_iobj, _jobj))%py.

Definition same_pair (a : Z * Z) (b : option (Z * Z)) : bool :=
  match b with
  | Some b => (fst a =? fst b)%Z && (snd a =? snd b)%Z
  | None => false
  end.

(** The second [while True]; [prev] is [(iobj, jobj)], [None] before the
    first pass.  The source has no bound on the number of passes: [fuel]
    is the model's, and running out of it is [Hang]. *)
Fixpoint refine (fuel : nat) (forbidden : list Z) (_iobj : option Z)
  (_jobj : Z) (prev : option (Z * Z)) : Py (Z * Z) :=
  match fuel with
  | O => fun _ => Hang
  | S fuel' =>
      (ij <- refine_round forbidden _iobj _jobj ;;
       if same_pair ij prev then ret ij
       else refine fuel' forbidden (Some (fst ij)) (snd ij) (Some ij))%py
  end.

Definition _choose_pivots (fuel : nat) : Py (Z * Z) :=
  (s <- get ;;
   let forbidden := flatten (firstn (_ihyprpln s) (pivot_ids s)) in
   _jobj <- draw_start (S (length (np_random s))) forbidden ;;
   ij <- refine fuel forbidden None _jobj None ;;
   x_i <- lift IndexError (getitem (_X s) (fst ij)) ;;
   x_j <- lift IndexError (getitem (_X s) (snd ij)) ;;
   ret ij)%py.

(** The column of [embed_database] for one dimension:
    [d = square(d_ik) - square(d_jk) + d_ij ** 2; d /= (2 * d_ij);
     d[d < 0] = 0]. *)
Definition embed_coordinate (d_ik d_jk d_ij : R) : npfloat :=
  zero_negative
    (np_true_divide (np_square d_ik - np_square d_jk + d_ij * d_ij)
                    (2 * d_ij)).

Definition embed_database_column (ipiv jpiv : Z) : Py (list npfloat) :=
  (s <- get ;;
   d_ij <- distance ipiv jpiv ;;
   let n := length (_X s) in
   d_ik <- pdist (np_arange n) [ipiv] ;;
   d_jk <- pdist (np_arange n) [jpiv] ;;
   ret (map (fun ab => embed_coordinate (fst ab) (snd ab) d_ij)
            (combine d_ik d_jk)))%py.

End FastMapSVM.

End SVM.

(** An index within the bounds of an array of [n] rows. *)
Definition in_range (n : nat) (i : Z) : Prop := (0 <= i < Z.of_nat n)%Z.

(** ** The array expressions of [core.py] as functions of the data *)

Module CorePure.

Section Pure.

Context {obj : Type}.
Variable _distance_func : obj -> obj -> R.
Variable nan_obj : obj.

(** [W[i]] and [X[i]] for an index that is in range. *)
Definition row (w : list (list R)) (i : Z) : list R := nth (Z.to_nat i) w [].
Definition ob (x : list obj) (i : Z) : obj := nth (Z.to_nat i) x nan_obj.

(** The value of [distance_matrix(i_objs, j_obj)] at cursor [k]. *)
Definition dmat (x : list obj) (w : list (list R)) (k : nat)
  (i_objs : list Z) (j_obj : Z) : list R :=
  map (fun i => residual k (row w i) (row w j_obj)
                  (_distance_func (ob x i) (ob x j_obj))) i_objs.

(** The pool of [furthest] and of the first draw. *)
Definition pool_of (n : nat) (labels : list Z) (label : option Z) : list Z :=
  match label with
  | None => np_arange n
  | Some l => np_argwhere_eq labels l
  end.

(** The value of [furthest(i_obj, label)] over the pool [idxs]. *)
Definition ranking (x : list obj) (w : list (list R)) (k : nat)
  (idxs : list Z) (i_obj : Z) : list Z :=
  rev (take_positions idxs (np_argsort (dmat x w k idxs i_obj))).

(** The column written by [fit] at dimension [d] for pivots [i], [j]. *)
Definition fit_column (x : list obj) (w : list (list R)) (d : nat)
  (i j : Z) : list R :=
  let dij := nth 0 (dmat x w d [i] j) 0 in
  map (fun ab => Core.fit_coordinate (fst ab) (snd ab) dij)
      (combine (dmat x w d (np_arange (length x)) i)
               (dmat x w d (np_arange (length x)) j)).

(** The pivot index table and the object snapshots as the properties
    [pivot_ids] and [X_piv] return them: the stored array, or a fresh one. *)
Definition table (s : @Core.FastMapABC obj) : list (Z * Z) :=
  match Core._pivot_ids s with
  | Some p => p
  | None => repeat (0%Z, 0%Z) (Core._n_dim s)
  end.

Definition xtable (s : @Core.FastMapABC obj) : list (obj * obj) :=
  match Core._X_piv s with
  | Some p => p
  | None => repeat (nan_obj, nan_obj) (Core._n_dim s)
  end.

(** The indices that [_choose_pivots] may not return at cursor [k]. *)
Definition forbidden_at (k : nat) (p : list (Z * Z)) : list Z :=
  Core.flatten (firstn k p).

(** The state after the body of the training loop at dimension [d], from
    the state [s1] in which [_choose_pivots] returned [(i, j)]. *)
Definition after_dimension (s1 : @Core.FastMapABC obj) (x : list obj)
  (w : list (list R)) (d : nat) (i j : Z) : @Core.FastMapABC obj :=
  Core.set_W (Some (set_column d (fit_column x w d i j) w))
    (Core.set_X_piv (Some (set_nth d (ob x i, ob x j) (xtable s1)))
       (Core.set_pivot_ids (Some (set_nth d (uint16 i, uint16 j) (table s1)))
          s1)).

(** [pool] is what [furthest] (and the first draw) computes as [idxs] in
    state [s]. *)
Definition pool_state (s : @Core.FastMapABC obj) (label : option Z) (pool : list Z) : Prop :=
  match label with
  | None => exists x, Core._X s = Some x /\ pool = np_arange (length x)
  | Some l => exists y, Core._y s = Some y /\ pool = np_argwhere_eq y l
  end.

Definition draw_pool (s : @Core.FastMapABC obj) (pool : list Z) : Prop :=
  pool_state s (if Core._supervised s then Some 1%Z else None) pool.


(** [_choose_pivots] at cursor [k]: from the first draw [j0] to the pair
    [(i, j)], over the pools of the two calls of [furthest]. *)
Definition selects (x : list obj) (w : list (list R)) (k : nat)
  (forb pool0 pool1 : list Z) (j0 i j : Z) : Prop :=
  In j0 pool1 /\ contains forb j0 = false /\
  for_break (ranking x w k pool0 j0) forb None = Some i /\
  for_break (ranking x w k pool1 i) forb (Some j0) = Some j.

(** The labels passed to the two calls of [furthest]. *)
Definition label0 (s : @Core.FastMapABC obj) : option Z :=
  if Core._supervised s then Some 0%Z else None.
Definition label1 (s : @Core.FastMapABC obj) : option Z :=
  if Core._supervised s then Some 1%Z else None.

(** A run of the training loop over the dimensions [dims], from state [s]
    to state [s'], with the pairs that [_choose_pivots] returned. *)
Inductive trains (x : list obj) :
  list nat -> @Core.FastMapABC obj -> list (Z * Z) -> @Core.FastMapABC obj
  -> Prop :=
| trains_nil (s : @Core.FastMapABC obj) : trains x [] s [] s
| trains_cons (d : nat) (dims : list nat) (s s1 s' : @Core.FastMapABC obj)
    (w : list (list R)) (i j : Z) (P : list (Z * Z)) :
    Core.W s = Some w ->
    Core._choose_pivots _distance_func (Core.set_ihyprpln d s) = Ok (i, j) s1 ->
    trains x dims (after_dimension s1 x w d i j) P s' ->
    trains x (d :: dims) s ((i, j) :: P) s'.

(** The coordinate that [fit] gives object [k] at dimension [d], read in a
    matrix [w] whose columns below [d] are final. *)
Definition trained_coordinate (x : list obj) (w : list (list R)) (d : nat)
  (i j k : Z) : R :=
  Core.fit_coordinate
    (residual d (row w k) (row w i) (_distance_func (ob x k) (ob x i)))
    (residual d (row w k) (row w j) (_distance_func (ob x k) (ob x j)))
    (residual d (row w i) (row w j) (_distance_func (ob x i) (ob x j))).

(** The embedding snapshots as the property [W_piv] returns them. *)
Definition wtable (np_nan : R) (s : @Core.FastMapABC obj)
  : list (list R * list R) :=
  match Core._W_piv s with
  | Some p => p
  | None => repeat (repeat np_nan (Core._n_dim s),
                    repeat np_nan (Core._n_dim s)) (Core._n_dim s)
  end.

(** Every table that exists has one row per dimension (true of a new
    instance, and kept by [fit]). *)
Definition tables_ok (np_nan : R) (s : @Core.FastMapABC obj) : Prop :=
  length (table s) = Core._n_dim s /\
  length (xtable s) = Core._n_dim s /\
  length (wtable np_nan s) = Core._n_dim s.

(** The state after the statements of [fit] that precede the loop. *)
Definition begin_state (np_nan : R) (X_train : list obj)
  (labels : option (list Z)) (s : @Core.FastMapABC obj)
  : @Core.FastMapABC obj :=
  let s1 := Core.set_X (Some X_train) s in
  let s2 := match labels with
            | Some v => Core.set_supervised true (Core.set_y (Some v) s1)
            | None => Core.set_supervised false s1
            end in
  Core.set_W (Some (repeat (repeat np_nan (Core._n_dim s)) (length X_train)))
    s2.

(** The rows copied into [W_piv] by the loop over the pivot index table. *)
Definition snapshots (w : list (list R)) (p : list (Z * Z))
  : list (list R * list R) :=
  map (fun ij => (row w (fst ij), row w (snd ij))) p.

(** The state after the statements of [fit] that follow the loop. *)
Definition end_state (w : list (list R)) (s : @Core.FastMapABC obj)
  : @Core.FastMapABC obj :=
  let s1 := match table s with
            | [] => s
            | _ => Core.set_W_piv (Some (snapshots w (table s))) s
            end in
  Core.set_ihyprpln 0
    (Core.set_y None
       (Core.set_W None (Core.set_X None (Core.set_pivot_ids None s1)))).

(** One row of [transform]: the entry written at dimension [d] for the
    object [x_new] whose row so far is [r], and the row after the
    dimensions [0 .. D - 1]. *)
Definition transform_entry (Xp : list (obj * obj))
  (Wp : list (list R * list R)) (x_new : obj) (r : list R) (d : nat) : R :=
  let wp := nth d Wp ([], []) in
  let xp := nth d Xp (nan_obj, nan_obj) in
  Core.transform_coordinate
    (residual d r (fst wp) (_distance_func x_new (fst xp)))
    (residual d r (snd wp) (_distance_func x_new (snd xp)))
    (residual d (fst wp) (snd wp) (_distance_func (fst xp) (snd xp))).

Definition transform_step (Xp : list (obj * obj))
  (Wp : list (list R * list R)) (x_new : obj) (r : list R) (d : nat)
  : list R :=
  set_nth d (transform_entry Xp Wp x_new r d) r.

Definition transform_row (Xp : list (obj * obj))
  (Wp : list (list R * list R)) (D : nat) (x_new : obj) : list R :=
  fold_left (transform_step Xp Wp x_new) (seq 0 D) (repeat 0 D).

End Pure.

End CorePure.

(** ** The array expressions of [fastmap.py] as functions of the data *)

Module SVMPure.

Section Pure.

Context {obj : Type}.
Variable _distance : obj -> obj -> R.
Variable dflt : obj.

Definition ob (x : list obj) (i : Z) : obj := nth (Z.to_nat i) x dflt.

(** The value of [_pdist(q, u)]: the residual distance from the query
    object [q] to the object [u]. *)
Definition key (s : @SVM.FastMapSVM obj) (q u : Z) : R :=
  SVM.pdist_loop (seq 0 (SVM._ihyprpln s))
    (CorePure.row (SVM.W s) q) (CorePure.row (SVM.W s) u)
    (_distance (ob (SVM._X s) q) (ob (SVM._X s) u)).

Definition pool (s : @SVM.FastMapSVM obj) (label : option Z) : list Z :=
  match label with
  | None => np_arange (length (SVM.y s))
  | Some l => np_argwhere_eq (SVM.y s) l
  end.

(** The value of [furthest(q, label)]. *)
Definition ranking (s : @SVM.FastMapSVM obj) (label : option Z) (q : Z)
  : list Z :=
  take_positions (pool s label)
    (rev (np_argsort (map (key s q) (pool s label)))).

(** One row of [W] and one label per object. *)
Definition well_formed (s : @SVM.FastMapSVM obj) : Prop :=
  length (SVM.W s) = length (SVM._X s) /\
  length (SVM.y s) = length (SVM._X s).

(** The pair computed by one pass of the refinement loop. *)
Definition round (s : @SVM.FastMapSVM obj) (forb : list Z)
  (cur : option Z) (j : Z) : option (Z * Z) :=
  match for_break (ranking s (Some 0%Z) j) forb cur with
  | None => None
  | Some i =>
      match for_break (ranking s (Some 1%Z) i) forb (Some j) with
      | None => None
      | Some j' => Some (i, j')
      end
  end.

End Pure.

End SVMPure.

(** ** Example data: an asymmetric distance on four objects *)

Module Cycle.

(** Objects 0 and 1 are labelled 0, objects 2 and 3 are labelled 1.  Seen
    from 2 the farther object of the other class is 1, from 1 it is 3,
    from 3 it is 0, and from 0 it is 2. *)
Definition table (a b : Z) : Z :=
  if ((a =? 2) && (b =? 1))%Z%bool then 2
  else if ((a =? 1) && (b =? 3))%Z%bool then 2
  else if ((a =? 3) && (b =? 0))%Z%bool then 2
  else if ((a =? 0) && (b =? 2))%Z%bool then 2
  else if (a =? b)%Z then 0
  else 1.

Definition dist (a b : Z) : R := IZR (table a b).

Definition s0 : @SVM.FastMapSVM Z :=
  SVM.mkFastMapSVM 0 1 [0; 1; 2; 3]%Z [0; 0; 1; 1]%Z
    (repeat (repeat 0 1) 4) (repeat (0%Z, 0%Z) 1) [].

End Cycle.

(** ** Example data: four labelled points on a line *)

Module Line.

(** Objects are integers, the distance is the absolute difference. *)
Definition dist (a b : Z) : R := IZR (Z.abs (a - b)).

Definition X : list Z := [-1; 0; 2; 6]%Z.
Definition y : list Z := [1; 0; 0; 1]%Z.

(** A new instance with two dimensions, the default batch size, and a
    tape whose two draws pick the first object labelled 1. *)
Definition s0 : @Core.FastMapABC Z := Core.__init__ 2 1024 [0%nat; 0%nat].

(** The pairs that [_choose_pivots] returns on this run. *)
Definition pivots : list (Z * Z) := [(2, 3); (1, 0)]%Z.

(** The same objects and labels in an instance of [fastmap.py], with one
    dimension and nothing embedded yet. *)
Definition svm0 : @SVM.FastMapSVM Z :=
  SVM.mkFastMapSVM 0 1 X y (repeat (repeat 0 1) 4) (repeat (0%Z, 0%Z) 1) [].

End Line.

(** ** Example data: two coincident objects *)

Module Tie.

(** Objects 1 and 2 are the same point, at distance 1 from object 0; they
    are the two objects labelled 0. *)
Definition X : list Z := [0; 1; 1]%Z.
Definition y : list Z := [1; 0; 0]%Z.

Definition s0 : @Core.FastMapABC Z := Core.__init__ 1 1024 [0%nat].

(** The same data in an instance of [fastmap.py], with the pair (1, 2) as
    the pivots of its only dimension. *)
Definition svm0 : @SVM.FastMapSVM Z :=
  SVM.mkFastMapSVM 0 1 X y (repeat (repeat 0 1) 3) [(1%Z, 2%Z)] [].

End Tie.

(** ** Example data: two coincident objects of different classes *)

Module Twin.

(** One object of each class, at the same point. *)
Definition X : list Z := [5; 5]%Z.
Definition y : list Z := [0; 1]%Z.

Definition svm0 : @SVM.FastMapSVM Z :=
  SVM.mkFastMapSVM 0 1 X y (repeat (repeat 0 1) 2) (repeat (0%Z, 0%Z) 1)
    [0%nat].

(** The instance after the first draw. *)
Definition svm1 : @SVM.FastMapSVM Z := SVM.set_np_random [] svm0.

Definition s0 : @Core.FastMapABC Z := Core.__init__ 1 1024 [0%nat].

End Twin.

(** ** Example data: more objects than a 16-bit index can name *)

Module Wide.

(** The integers 0 .. 65536 on a line, not labelled. *)
Definition n : nat := Z.to_nat 65537.
Definition X : list Z := np_arange n.

(** Two dimensions; the two draws take the objects 0 and 1. *)
Definition s0 : @Core.FastMapABC Z := Core.__init__ 2 1024 [0%nat; 1%nat].

(** The pairs that [_choose_pivots] returns on this run. *)
Definition pivots : list (Z * Z) := [(65536, 0); (65536, 1)]%Z.


End Wide.

(** ** The order of the stable sort *)

(** [a] comes before [b] in the ascending stable sort: smaller key, or equal
    key and smaller position. *)
Definition key_before (a b : R * nat) : Prop :=
  fst a < fst b \/ (fst a = fst b /\ (snd a < snd b)%nat).

(** ** The specification's wording, for comparison *)



(** * Properties *)

(** ** Real-number helpers *)

Lemma EPSILON_pos : 0 < EPSILON.
Proof. unfold EPSILON. apply Rinv_0_lt_compat. lra. Qed.

Lemma np_clip_0_inf_nonneg (x : R) : 0 <= np_clip_0_inf x.
Proof. unfold np_clip_0_inf. apply Rmax_r. Qed.

Lemma np_clip_0_inf_id (x : R) : 0 <= x -> np_clip_0_inf x = x.
Proof. intros H. unfold np_clip_0_inf. apply Rmax_left. exact H. Qed.


Lemma np_sqrt_nonneg (x : R) : 0 <= np_sqrt x.
Proof. unfold np_sqrt. apply sqrt_pos. Qed.

Lemma Rleb_true (x y : R) : x <= y -> Rleb x y = true.
Proof. intros H. unfold Rleb. destruct (Rle_dec x y); [reflexivity | contradiction]. Qed.

Lemma Rleb_false (x y : R) : y < x -> Rleb x y = false.
Proof. intros H. unfold Rleb. destruct (Rle_dec x y); [lra | reflexivity]. Qed.

Lemma Rleb_spec (x y : R) : Rleb x y = true <-> x <= y.
Proof.
  unfold Rleb. destruct (Rle_dec x y); split; intros; try easy.
Qed.

(** ** The residual distance (claim C1) *)


Lemma residual_step_nonneg (a b : list R) (d : R) (i : nat) :
  0 <= residual_step a b d i.
Proof. apply np_sqrt_nonneg. Qed.

Lemma fold_residual_nonneg (a b : list R) (dims : list nat) (d : R) :
  0 <= d -> 0 <= fold_left (residual_step a b) dims d.
Proof.
  revert d. induction dims as [|i dims IH]; intros d Hd; simpl.
  - exact Hd.
  - apply IH. apply residual_step_nonneg.
Qed.

Lemma residual_nonneg (k : nat) (a b : list R) (d : R) :
  0 <= d -> 0 <= residual k a b d.
Proof. apply fold_residual_nonneg. Qed.






(** ** Monad and list helpers *)

Lemma bind_Ok {St A B} (c : M St A) (k : A -> M St B) s b s2 :
  bind c k s = Ok b s2 ->
  exists a s1, c s = Ok a s1 /\ k a s1 = Ok b s2.
Proof.
  unfold bind. destruct (c s) as [a s1 | e s1 |]; intros H; try discriminate.
  exists a, s1. split; [reflexivity | exact H].
Qed.

Lemma lift_Ok {St A} (e : exn) (o : option A) (s s' : St) a :
  lift e o s = Ok a s' -> o = Some a /\ s' = s.
Proof.
  destruct o as [a0|]; simpl; unfold ret, raise; intros H; inversion H; auto.
Qed.

Ltac inv_ok H :=
  match type of H with
  | bind _ _ _ = Ok _ _ =>
      let a := fresh "a" in let s := fresh "s" in let Hc := fresh "Hc" in
      apply bind_Ok in H; destruct H as (a & s & Hc & H);
      inv_ok Hc; inv_ok H
  | lift _ _ _ = Ok _ _ =>
      let E := fresh "E" in
      apply lift_Ok in H; destruct H as (E & H); subst
  | ret _ _ = Ok _ _ => unfold ret in H; inversion H; subst; clear H
  | get _ = Ok _ _ => unfold get in H; inversion H; subst; clear H
  | _ => idtac
  end.

Lemma getitem_Some {A} (l : list A) (i : Z) (a : A) :
  getitem l i = Some a ->
  (0 <= i)%Z /\ (Z.to_nat i < length l)%nat /\ nth_error l (Z.to_nat i) = Some a.
Proof.
  unfold getitem. destruct (Z.ltb_spec i 0) as [Hi | Hi]; [discriminate|].
  intros Hn. split; [lia|]. split; [|exact Hn].
  apply nth_error_Some. congruence.
Qed.

Lemma getitem_of_nat {A} (l : list A) (k : nat) :
  getitem l (Z.of_nat k) = nth_error l k.
Proof.
  unfold getitem. destruct (Z.ltb_spec (Z.of_nat k) 0) as [Hk | Hk]; [lia|].
  now rewrite Nat2Z.id.
Qed.

Lemma set_nth_length {A} (n : nat) (v : A) (l : list A) :
  length (set_nth n v l) = length l.
Proof.
  unfold set_nth. rewrite <- (firstn_skipn n l) at 3.
  rewrite !length_app. f_equal.
  destruct (skipn n l); reflexivity.
Qed.

Lemma firstn_set_nth {A} (k n : nat) (v : A) (l : list A) :
  (k <= n)%nat -> firstn k (set_nth n v l) = firstn k l.
Proof.
  intros Hk. unfold set_nth.
  destruct (Nat.le_gt_cases (length l) n) as [Hlen | Hlen].
  - rewrite skipn_all2 by exact Hlen. rewrite app_nil_r.
    replace (firstn n l) with l by (symmetry; apply firstn_all2; exact Hlen).
    reflexivity.
  - rewrite firstn_app. rewrite length_firstn, Nat.min_l by lia.
    replace (k - n)%nat with 0%nat by lia. simpl. rewrite app_nil_r.
    rewrite firstn_firstn. now rewrite Nat.min_l by lia.
Qed.

Lemma nth_set_nth_eq {A} (n : nat) (v d : A) (l : list A) :
  (n < length l)%nat -> nth n (set_nth n v l) d = v.
Proof.
  intros Hn. unfold set_nth.
  rewrite app_nth2; rewrite length_firstn, Nat.min_l by lia; [|lia].
  rewrite Nat.sub_diag.
  destruct (skipn n l) eqn:E; [|reflexivity].
  apply (f_equal (@length A)) in E. rewrite length_skipn in E. simpl in E. lia.
Qed.

Lemma nth_set_nth_neq {A} (n m : nat) (v d : A) (l : list A) :
  n <> m -> nth m (set_nth n v l) d = nth m l d.
Proof.
  intros Hnm. unfold set_nth.
  destruct (Nat.le_gt_cases (length l) n) as [Hlen | Hlen].
  - rewrite skipn_all2 by exact Hlen. rewrite app_nil_r.
    replace (firstn n l) with l by (symmetry; apply firstn_all2; exact Hlen).
    reflexivity.
  - rewrite <- (firstn_skipn n l) at 3.
    destruct (Nat.lt_ge_cases m n) as [Hlt | Hge].
    + rewrite !app_nth1 by (rewrite length_firstn; lia). reflexivity.
    + rewrite !app_nth2 by (rewrite length_firstn; lia).
      rewrite length_firstn, Nat.min_l by lia.
      destruct (skipn n l) as [|h t]; [reflexivity|].
      destruct (m - n)%nat as [|q] eqn:E; [lia|]. reflexivity.
Qed.

Lemma nth_error_set_nth_eq {A} (n : nat) (v : A) (l : list A) :
  (n < length l)%nat -> nth_error (set_nth n v l) n = Some v.
Proof.
  intros Hn.
  rewrite (nth_error_nth' _ v) by (rewrite set_nth_length; exact Hn).
  now rewrite nth_set_nth_eq.
Qed.

Lemma nth_error_set_nth_neq {A} (n m : nat) (v : A) (l : list A) :
  n <> m -> nth_error (set_nth n v l) m = nth_error l m.
Proof.
  intros Hnm.
  destruct (Nat.lt_ge_cases m (length l)) as [Hlt | Hge].
  - destruct l as [|a l']; [simpl in Hlt; lia|].
    rewrite (nth_error_nth' _ a) by (rewrite set_nth_length; exact Hlt).
    rewrite (nth_error_nth' (a :: l') a) by exact Hlt.
    now rewrite nth_set_nth_neq.
  - assert (H1 : nth_error l m = None) by (apply nth_error_None; exact Hge).
    assert (H2 : nth_error (set_nth n v l) m = None)
      by (apply nth_error_None; rewrite set_nth_length; exact Hge).
    congruence.
Qed.

Lemma set_column_length (d : nat) (col : list R) (m : list (list R)) :
  length col = length m -> length (set_column d col m) = length m.
Proof.
  intros H. unfold set_column. rewrite length_map, length_combine. lia.
Qed.

Lemma nth_error_set_column (d : nat) (col : list R) (m : list (list R))
  (k : nat) (row : list R) (c : R) :
  nth_error m k = Some row -> nth_error col k = Some c ->
  nth_error (set_column d col m) k = Some (set_nth d c row).
Proof.
  intros Hr Hc. unfold set_column.
  rewrite nth_error_map.
  assert (Hk : nth_error (combine m col) k = Some (row, c)).
  { revert k col Hr Hc. induction m as [|r m IH]; intros [|k] [|c0 col] Hr Hc;
      simpl in *; try discriminate.
    - congruence.
    - now apply IH. }
  rewrite Hk. reflexivity.
Qed.

Lemma getitem_in_range {A} (l : list A) (i : Z) (d : A) :
  in_range (length l) i -> getitem l i = Some (nth (Z.to_nat i) l d).
Proof.
  intros [H0 H1]. unfold getitem.
  destruct (Z.ltb_spec i 0) as [Hi | Hi]; [lia|].
  apply nth_error_nth'. lia.
Qed.

Lemma getitem_Some_range {A} (l : list A) (i : Z) (a d : A) :
  getitem l i = Some a -> in_range (length l) i /\ nth (Z.to_nat i) l d = a.
Proof.
  intros H. apply getitem_Some in H. destruct H as (H0 & H1 & H2).
  split; [unfold in_range; lia|]. now apply nth_error_nth.
Qed.

Lemma in_range_arange (n : nat) : Forall (in_range n) (np_arange n).
Proof.
  unfold np_arange. apply Forall_forall. intros i Hi.
  apply in_map_iff in Hi. destruct Hi as (k & <- & Hk).
  apply in_seq in Hk. unfold in_range. lia.
Qed.

Lemma mapM_getitem_run {St A} (l : list A) (d : A) (idxs : list Z) (s : St) :
  Forall (in_range (length l)) idxs ->
  mapM (fun i => lift IndexError (getitem l i)) idxs s
  = Ok (map (fun i => nth (Z.to_nat i) l d) idxs) s.
Proof.
  induction 1 as [|i idxs Hi _ IH]; simpl.
  - reflexivity.
  - unfold bind. rewrite (getitem_in_range l i d Hi). simpl.
    unfold ret at 1. rewrite IH. reflexivity.
Qed.

Lemma mapM_getitem_Ok {St A} (l : list A) (d : A) (idxs : list Z)
  (s s' : St) (r : list A) :
  mapM (fun i => lift IndexError (getitem l i)) idxs s = Ok r s' ->
  s' = s /\ Forall (in_range (length l)) idxs /\
  r = map (fun i => nth (Z.to_nat i) l d) idxs.
Proof.
  revert r s'. induction idxs as [|i idxs IH]; intros r s' H; simpl in H.
  - inv_ok H. auto.
  - apply bind_Ok in H. destruct H as (a & s1 & Ha & H).
    apply lift_Ok in Ha. destruct Ha as (Ha & ->).
    apply (getitem_Some_range _ _ _ d) in Ha. destruct Ha as (Hi & Hn).
    apply bind_Ok in H. destruct H as (r' & s2 & Hr & H).
    apply IH in Hr. destruct Hr as (-> & Hall & ->).
    inv_ok H. split; [reflexivity|]. split; [constructor; assumption|].
    reflexivity.
Qed.

Lemma concat_batches {A} (fuel bs : nat) (l : list A) :
  (0 < bs)%nat -> (length l <= fuel)%nat -> concat (batches fuel bs l) = l.
Proof.
  intros Hbs. revert l. induction fuel as [|fuel IH]; intros l Hlen.
  - destruct l; [reflexivity | simpl in Hlen; lia].
  - destruct l as [|a l']; [reflexivity|].
    change (batches (S fuel) bs (a :: l'))
      with (firstn bs (a :: l') :: batches fuel bs (skipn bs (a :: l'))).
    simpl concat. rewrite IH.
    + apply firstn_skipn.
    + rewrite length_skipn. cbn [length] in *. lia.
Qed.

Lemma batches_nonempty {A} (fuel bs : nat) (l : list A) :
  l <> [] -> (0 < fuel)%nat -> batches fuel bs l <> [].
Proof.
  intros Hl Hf. destruct fuel; [lia|]. destruct l; [congruence|]. discriminate.
Qed.

(** ** Running the array code of [core.py] *)

Section CoreFacts.

Context {obj : Type}.
Variable dist : obj -> obj -> R.
Variable np_nan : R.
Variable nan_obj : obj.

Local Abbreviation St := (@Core.FastMapABC obj).
Local Abbreviation row := CorePure.row.
Local Abbreviation ob := (CorePure.ob nan_obj).
Local Abbreviation dmat := (CorePure.dmat dist nan_obj).
Local Abbreviation ranking := (CorePure.ranking dist nan_obj).
Local Abbreviation pool_state := CorePure.pool_state.
Local Abbreviation draw_pool := CorePure.draw_pool.
Local Abbreviation selects := (CorePure.selects dist nan_obj).
Local Abbreviation table := CorePure.table.
Local Abbreviation transform_entry := (CorePure.transform_entry dist nan_obj).
Local Abbreviation transform_step := (CorePure.transform_step dist nan_obj).
Local Abbreviation transform_row := (CorePure.transform_row dist nan_obj).
Local Abbreviation wtable := (CorePure.wtable np_nan).
Local Abbreviation tables_ok := (CorePure.tables_ok nan_obj np_nan).
Local Abbreviation begin_state := (CorePure.begin_state np_nan).
Local Abbreviation snapshots := CorePure.snapshots.
Local Abbreviation end_state := CorePure.end_state.
Local Abbreviation label0 := CorePure.label0.
Local Abbreviation label1 := CorePure.label1.
Local Abbreviation trains := (CorePure.trains dist nan_obj).
Local Abbreviation trained_coordinate := (CorePure.trained_coordinate dist nan_obj).
Local Abbreviation xtable := (CorePure.xtable nan_obj).
Local Abbreviation forbidden_at := CorePure.forbidden_at.
Local Abbreviation after_dimension := (CorePure.after_dimension dist nan_obj).

Lemma bind_run {S A B} (c : M S A) (k : A -> M S B) s a s1 :
  c s = Ok a s1 -> bind c k s = k a s1.
Proof. intros H. unfold bind. now rewrite H. Qed.

Lemma bind_get {S B} (k : S -> M S B) (s : S) : bind get k s = k s s.
Proof. reflexivity. Qed.

Lemma bind_Raise {S A B} (c : M S A) (k : A -> M S B) s e s1 :
  c s = Raise e s1 -> bind c k s = Raise e s1.
Proof. intros H. unfold bind. now rewrite H. Qed.

Lemma bind_Hang {S A B} (c : M S A) (k : A -> M S B) s :
  c s = Hang -> bind c k s = Hang.
Proof. intros H. unfold bind. now rewrite H. Qed.

Lemma attr_run {A} (f : St -> option A) (s : St) a :
  f s = Some a -> Core.attr f s = Ok a s.
Proof. intros H. unfold Core.attr. now rewrite H. Qed.

Lemma attr_Ok {A} (f : St -> option A) (s s' : St) a :
  Core.attr f s = Ok a s' -> f s = Some a /\ s' = s.
Proof. unfold Core.attr. apply lift_Ok. Qed.

Lemma mapM_ext_run {S A B} (f : A -> M S B) (g : A -> B) (l : list A) (s : S) :
  (forall a, In a l -> f a s = Ok (g a) s) ->
  mapM f l s = Ok (map g l) s.
Proof.
  induction l as [|a l IH]; intros H; simpl.
  - reflexivity.
  - rewrite (bind_run _ _ _ _ _ (H a (or_introl eq_refl))).
    rewrite (bind_run _ _ s (map g l) s); [reflexivity|].
    apply IH. intros a' Ha'. apply H. now right.
Qed.

Lemma In_firstn {A} (n : nat) (l : list A) (a : A) : In a (firstn n l) -> In a l.
Proof.
  intros H. rewrite <- (firstn_skipn n l). apply in_or_app. now left.
Qed.

Lemma In_skipn {A} (n : nat) (l : list A) (a : A) : In a (skipn n l) -> In a l.
Proof.
  intros H. rewrite <- (firstn_skipn n l). apply in_or_app. now right.
Qed.

Lemma map_combine_map {A B C D} (f : B * C -> D) (g : A -> B) (h : A -> C)
  (l : list A) :
  map f (combine (map g l) (map h l)) = map (fun a => f (g a, h a)) l.
Proof. induction l as [|a l IH]; simpl; [reflexivity | now rewrite IH]. Qed.

Lemma in_batches {A} (fuel bs : nat) (l b : list A) (a : A) :
  In b (batches fuel bs l) -> In a b -> In a l.
Proof.
  revert l. induction fuel as [|fuel IH]; intros l Hb Ha.
  - destruct l; simpl in Hb; contradiction.
  - destruct l as [|a0 l']; [simpl in Hb; contradiction|].
    change (batches (S fuel) bs (a0 :: l'))
      with (firstn bs (a0 :: l') :: batches fuel bs (skipn bs (a0 :: l'))) in Hb.
    destruct Hb as [<- | Hb].
    + eapply In_firstn; eauto.
    + eapply In_skipn. eapply IH; eauto.
Qed.

Lemma batch_distance_run (x : list obj) (x_j : obj) (batch : list Z) (s : St) :
  Forall (in_range (length x)) batch ->
  Core.batch_distance dist x x_j batch s
  = Ok (map (fun i => dist (ob x i) x_j) batch) s.
Proof.
  intros Hall. unfold Core.batch_distance. apply mapM_ext_run.
  intros i Hi. rewrite Forall_forall in Hall.
  rewrite (bind_run _ _ _ (ob x i) s); [reflexivity|].
  unfold CorePure.ob. now rewrite (getitem_in_range x i nan_obj (Hall i Hi)).
Qed.

(** [distance_matrix] returns the residual distances, whatever the batch
    size, and leaves the state alone. *)
Lemma distance_matrix_run (s : St) (x : list obj) (w : list (list R))
  (idxs : list Z) (j : Z) :
  Core._X s = Some x -> Core.W s = Some w ->
  (0 < Core._batch_size s)%Z -> idxs <> [] ->
  Forall (in_range (length x)) idxs -> Forall (in_range (length w)) idxs ->
  in_range (length x) j -> in_range (length w) j ->
  Core.distance_matrix dist idxs j s = Ok (dmat x w (Core._ihyprpln s) idxs j) s.
Proof.
  intros HX HW Hbs Hne Hxi Hwi Hxj Hwj.
  unfold Core.distance_matrix.
  rewrite (bind_run _ _ _ x s) by (apply attr_run; exact HX).
  rewrite (bind_run _ _ _ w s) by (apply attr_run; exact HW).
  rewrite (bind_run _ _ _ (ob x j) s)
    by (unfold CorePure.ob; now rewrite (getitem_in_range x j nan_obj Hxj)).
  rewrite (bind_run _ _ _ _ s (mapM_getitem_run w [] idxs s Hwi)).
  rewrite (bind_run _ _ _ (row w j) s)
    by (unfold CorePure.row; now rewrite (getitem_in_range w j [] Hwj)).
  set (bs := Z.to_nat (Core._batch_size s)).
  rewrite (bind_run _ _ _ (batches (length idxs) bs idxs) s).
  2:{ unfold Core.batch_slices.
      destruct (Z.eqb_spec (Core._batch_size s) 0); [lia|].
      destruct (Z.ltb_spec (Core._batch_size s) 0); [lia|]. reflexivity. }
  rewrite (bind_run _ _ _ (map (map (fun i => dist (ob x i) (ob x j)))
                               (batches (length idxs) bs idxs)) s).
  2:{ apply mapM_ext_run. intros b Hb. apply batch_distance_run.
      rewrite Forall_forall in *. intros a Ha. apply Hxi.
      eapply in_batches; eauto. }
  rewrite (bind_run _ _ _ (map (fun i => dist (ob x i) (ob x j)) idxs) s).
  2:{ assert (Hc : concat (batches (length idxs) bs idxs) = idxs)
        by (apply concat_batches; [unfold bs; lia | lia]).
      assert (Hg : map (fun i => dist (ob x i) (ob x j)) idxs
                   = concat (map (map (fun i => dist (ob x i) (ob x j)))
                                 (batches (length idxs) bs idxs)))
        by (rewrite <- concat_map, Hc; reflexivity).
      rewrite Hg. clear Hg Hc.
      assert (Hn : batches (length idxs) bs idxs <> []).
      { apply batches_nonempty; [exact Hne|].
        destruct idxs; [congruence | simpl; lia]. }
      destruct (batches (length idxs) bs idxs) as [|b [|b' rest]];
        [congruence | |].
      - simpl. now rewrite app_nil_r.
      - reflexivity. }
  rewrite (bind_run _ _ _ s s) by reflexivity.
  unfold ret. f_equal. unfold CorePure.dmat.
  apply map_combine_map.
Qed.

(** *** [np.argsort] returns a permutation of the positions *)

Lemma insert_key_perm (x : R * nat) (l : list (R * nat)) :
  Permutation (insert_key x l) (x :: l).
Proof.
  induction l as [|h t IH]; simpl.
  - apply Permutation_refl.
  - destruct (Rleb (fst x) (fst h)).
    + apply Permutation_refl.
    + eapply Permutation_trans; [apply perm_skip; exact IH | apply perm_swap].
Qed.

Lemma sort_keys_perm (l : list (R * nat)) : Permutation (sort_keys l) l.
Proof.
  induction l as [|x t IH]; simpl.
  - apply Permutation_refl.
  - eapply Permutation_trans; [apply insert_key_perm | now apply perm_skip].
Qed.

Lemma map_snd_combine {A B} (l : list A) (l' : list B) :
  length l = length l' -> map snd (combine l l') = l'.
Proof.
  revert l'. induction l as [|a l IH]; intros [|b l'] H; simpl in *;
    try discriminate; [reflexivity|].
  f_equal. apply IH. lia.
Qed.

Lemma np_argsort_perm (d : list R) :
  Permutation (np_argsort d) (seq 0 (length d)).
Proof.
  unfold np_argsort.
  eapply Permutation_trans; [apply Permutation_map, sort_keys_perm|].
  rewrite map_snd_combine by (now rewrite length_seq).
  apply Permutation_refl.
Qed.

Lemma map_nth_seq {A} (l : list A) (d : A) :
  map (fun p => nth p l d) (seq 0 (length l)) = l.
Proof.
  induction l as [|a l IH]; simpl; [reflexivity|].
  f_equal. rewrite <- seq_shift, map_map. exact IH.
Qed.

Lemma take_positions_perm (idxs : list Z) (perm : list nat) :
  Permutation perm (seq 0 (length idxs)) ->
  Permutation (take_positions idxs perm) idxs.
Proof.
  intros H. unfold take_positions.
  eapply Permutation_trans; [apply Permutation_map; exact H|].
  rewrite map_nth_seq. apply Permutation_refl.
Qed.

Lemma dmat_length (x : list obj) (w : list (list R)) (k : nat)
  (idxs : list Z) (j : Z) :
  length (dmat x w k idxs j) = length idxs.
Proof. unfold CorePure.dmat. apply length_map. Qed.

(** The ranking of [furthest] lists every member of the pool once. *)
Lemma ranking_perm (x : list obj) (w : list (list R)) (k : nat)
  (idxs : list Z) (i : Z) :
  Permutation (ranking x w k idxs i) idxs.
Proof.
  unfold CorePure.ranking.
  eapply Permutation_trans; [apply Permutation_sym, Permutation_rev|].
  apply take_positions_perm.
  rewrite <- (dmat_length x w k idxs i). apply np_argsort_perm.
Qed.

(** *** [furthest] *)

Lemma label_pool_run (s : St) (label : option Z) (pool : list Z) :
  pool_state s label pool -> Core.label_pool label s = Ok pool s.
Proof.
  destruct label as [l|]; simpl; intros (v & Hv & ->).
  - now rewrite (bind_run _ _ _ v s) by (apply attr_run; exact Hv).
  - unfold Core.n_obj.
    rewrite (bind_run _ _ _ (length v) s); [reflexivity|].
    now rewrite (bind_run _ _ _ v s) by (apply attr_run; exact Hv).
Qed.

Lemma label_pool_Ok (s s' : St) (label : option Z) (pool : list Z) :
  Core.label_pool label s = Ok pool s' -> s' = s /\ pool_state s label pool.
Proof.
  destruct label as [l|]; simpl; intros H.
  - apply bind_Ok in H. destruct H as (v & s1 & Hv & H).
    apply attr_Ok in Hv. destruct Hv as (Hv & ->). inv_ok H.
    split; [reflexivity|]. now exists v.
  - apply bind_Ok in H. destruct H as (n & s1 & Hn & H).
    unfold Core.n_obj in Hn.
    apply bind_Ok in Hn. destruct Hn as (v & s2 & Hv & Hn).
    apply attr_Ok in Hv. destruct Hv as (Hv & ->). inv_ok Hn. inv_ok H.
    split; [reflexivity|]. now exists v.
Qed.

Lemma furthest_run (s : St) (x : list obj) (w : list (list R))
  (label : option Z) (pool : list Z) (i : Z) :
  Core._X s = Some x -> Core.W s = Some w ->
  pool_state s label pool ->
  Forall (in_range (length x)) pool -> Forall (in_range (length w)) pool ->
  in_range (length x) i -> in_range (length w) i ->
  Core.furthest dist i label s
  = Ok (ranking x w (Core._ihyprpln s) pool i) s.
Proof.
  intros HX HW Hpool Hxp Hwp Hxi Hwi.
  unfold Core.furthest.
  rewrite (bind_run _ _ _ pool s) by (now apply label_pool_run).
  rewrite (bind_run _ _ _ w s) by (apply attr_run; exact HW).
  rewrite (bind_run _ _ _ x s) by (apply attr_run; exact HX).
  rewrite (bind_run _ _ _ _ s (mapM_getitem_run w [] pool s Hwp)).
  rewrite (bind_run _ _ _ (row w i) s)
    by (unfold CorePure.row; now rewrite (getitem_in_range w i [] Hwi)).
  rewrite (bind_run _ _ _ _ s (mapM_getitem_run x nan_obj pool s Hxp)).
  rewrite (bind_run _ _ _ (ob x i) s)
    by (unfold CorePure.ob; now rewrite (getitem_in_range x i nan_obj Hxi)).
  rewrite (bind_run _ _ _ s s) by reflexivity.
  unfold ret, CorePure.ranking, CorePure.dmat. do 4 f_equal.
  apply map_combine_map.
Qed.

Lemma furthest_Ok (s s' : St) (label : option Z) (i : Z) (far : list Z) :
  Core.furthest dist i label s = Ok far s' ->
  s' = s /\
  exists x w pool,
    Core._X s = Some x /\ Core.W s = Some w /\ pool_state s label pool /\
    Forall (in_range (length x)) pool /\ Forall (in_range (length w)) pool /\
    in_range (length x) i /\ in_range (length w) i /\
    far = ranking x w (Core._ihyprpln s) pool i.
Proof.
  intros H. unfold Core.furthest in H.
  apply bind_Ok in H. destruct H as (pool & s1 & Hp & H).
  apply label_pool_Ok in Hp. destruct Hp as (-> & Hp).
  apply bind_Ok in H. destruct H as (w & s1 & Hw & H).
  apply attr_Ok in Hw. destruct Hw as (Hw & ->).
  apply bind_Ok in H. destruct H as (x & s1 & Hx & H).
  apply attr_Ok in Hx. destruct Hx as (Hx & ->).
  apply bind_Ok in H. destruct H as (w_k & s1 & Hwk & H).
  apply (mapM_getitem_Ok w []) in Hwk. destruct Hwk as (-> & Hwp & ->).
  apply bind_Ok in H. destruct H as (w_i & s1 & Hwi & H).
  apply lift_Ok in Hwi. destruct Hwi as (Hwi & ->).
  apply (getitem_Some_range _ _ _ []) in Hwi. destruct Hwi as (Hwi & <-).
  apply bind_Ok in H. destruct H as (x_k & s1 & Hxk & H).
  apply (mapM_getitem_Ok x nan_obj) in Hxk. destruct Hxk as (-> & Hxp & ->).
  apply bind_Ok in H. destruct H as (x_i & s1 & Hxi & H).
  apply lift_Ok in Hxi. destruct Hxi as (Hxi & ->).
  apply (getitem_Some_range _ _ _ nan_obj) in Hxi. destruct Hxi as (Hxi & <-).
  apply bind_Ok in H. destruct H as (s0 & s1 & Hs & H).
  unfold get in Hs. inversion Hs; subst s0 s1; clear Hs.
  unfold ret in H. inversion H; subst; clear H.
  split; [reflexivity|].
  exists x, w, pool. repeat (split; [assumption|]).
  unfold CorePure.ranking, CorePure.dmat. do 3 f_equal.
  apply map_combine_map.
Qed.

(** *** The loops of [_choose_pivots] *)

Lemma contains_true (a : list Z) (v : Z) : contains a v = true <-> In v a.
Proof.
  unfold contains. rewrite existsb_exists. split.
  - intros (u & Hu & E). apply Z.eqb_eq in E. now subst.
  - intros H. exists v. split; [exact H | apply Z.eqb_refl].
Qed.

Lemma contains_false (a : list Z) (v : Z) : contains a v = false <-> ~ In v a.
Proof.
  rewrite <- contains_true. destruct (contains a v); split; intros; try easy.
Qed.

Lemma for_break_In (l forb : list Z) (cur : option Z) (v : Z) :
  for_break l forb cur = Some v -> In v l \/ (l = [] /\ cur = Some v).
Proof.
  revert cur. induction l as [|a l IH]; intros cur H; simpl in H.
  - right. auto.
  - left. destruct (contains forb a).
    + apply IH in H. destruct H as [H | [-> H]].
      * now right.
      * left. congruence.
    + left. congruence.
Qed.

Lemma for_break_allowed (l forb : list Z) (cur : option Z) (v : Z) :
  for_break l forb cur = Some v ->
  (exists a, In a l /\ contains forb a = false) ->
  contains forb v = false.
Proof.
  revert cur. induction l as [|a l IH]; intros cur H (b & Hb & Hfb); simpl in *.
  - contradiction.
  - destruct (contains forb a) eqn:Ea.
    + apply (IH _ H). exists b. split; [|exact Hfb].
      destruct Hb as [-> | Hb]; [congruence | exact Hb].
    + congruence.
Qed.

Lemma for_break_some (l forb : list Z) (cur : option Z) :
  l <> [] \/ cur <> None -> exists v, for_break l forb cur = Some v.
Proof.
  revert cur. induction l as [|a l IH]; intros cur H; simpl.
  - destruct cur as [c|]; [now exists c | destruct H; congruence].
  - destruct (contains forb a); [|now exists a].
    apply IH. right. discriminate.
Qed.

Lemma draw_pool_set_np_random (s : St) (tape : list nat) (pool : list Z) :
  draw_pool s pool -> draw_pool (Core.set_np_random tape s) pool.
Proof. unfold CorePure.draw_pool, CorePure.pool_state. simpl. auto. Qed.

Lemma draw_pool_run (s : St) (pool : list Z) :
  draw_pool s pool ->
  (if Core._supervised s
   then (labels <- Core.y ;; ret (np_argwhere_eq labels 1%Z))%py
   else (n <- Core.n_obj ;; ret (np_arange n))%py) s = Ok pool s.
Proof.
  unfold CorePure.draw_pool. intros H. apply label_pool_run in H.
  destruct (Core._supervised s); exact H.
Qed.

Lemma draw_pool_Ok (s s' : St) (pool : list Z) :
  (if Core._supervised s
   then (labels <- Core.y ;; ret (np_argwhere_eq labels 1%Z))%py
   else (n <- Core.n_obj ;; ret (np_arange n))%py) s = Ok pool s' ->
  s' = s /\ draw_pool s pool.
Proof.
  unfold CorePure.draw_pool. intros H.
  destruct (Core._supervised s); apply label_pool_Ok; exact H.
Qed.

(** A draw that is not forbidden ends the first loop. *)
Lemma draw_start_run (s : St) (pool forb : list Z) (rounds r : nat)
  (tape : list nat) :
  draw_pool s pool -> pool <> [] ->
  Core.np_random s = r :: tape ->
  contains forb (nth (r mod length pool) pool 0%Z) = false ->
  Core.draw_start (S rounds) forb s
  = Ok (nth (r mod length pool) pool 0%Z) (Core.set_np_random tape s).
Proof.
  intros Hp Hne Ht Hf. simpl.
  rewrite (bind_run _ _ _ s s) by reflexivity.
  rewrite (bind_run _ _ _ pool s) by (now apply draw_pool_run).
  rewrite (bind_run _ _ _ (nth (r mod length pool) pool 0%Z)
             (Core.set_np_random tape s)).
  - now rewrite Hf.
  - unfold Core.np_random_choice. rewrite Ht.
    destruct pool; [congruence | reflexivity].
Qed.

Lemma np_random_choice_Ok (pool : list Z) (s s' : St) (j : Z) :
  Core.np_random_choice pool s = Ok j s' ->
  exists r tape,
    Core.np_random s = r :: tape /\ (pool <> []) /\
    (j = nth (r mod length pool) pool 0%Z) /\ In j pool /\
    s' = Core.set_np_random tape s.
Proof.
  intros H.
  assert (Hne : pool <> []) by (intros ->; discriminate).
  assert (E : Core.np_random_choice pool s
              = match Core.np_random s with
                | [] => Hang
                | r :: tape => Ok (nth (r mod length pool) pool 0%Z)
                                  (Core.set_np_random tape s)
                end)
    by (unfold Core.np_random_choice; destruct pool; [congruence | reflexivity]).
  rewrite E in H. clear E.
  destruct (Core.np_random s) as [|r tape]; [discriminate|].
  exists r, tape.
  assert (Hj : nth (r mod length pool) pool 0%Z = j) by congruence.
  assert (Hs : Core.set_np_random tape s = s') by congruence.
  split; [reflexivity|]. split; [exact Hne|]. split; [now rewrite Hj|].
  split; [|now rewrite Hs].
  rewrite <- Hj. apply nth_In. apply Nat.mod_upper_bound.
  destruct pool; [congruence | discriminate].
Qed.

Lemma draw_start_Ok (rounds : nat) (forb : list Z) (s s' : St) (j : Z) :
  Core.draw_start rounds forb s = Ok j s' ->
  exists pool tape,
    draw_pool s pool /\ In j pool /\ contains forb j = false /\
    s' = Core.set_np_random tape s.
Proof.
  revert s. induction rounds as [|rounds IH]; intros s H; simpl in H.
  - discriminate.
  - apply bind_Ok in H. destruct H as (s0 & s1 & Hs & H).
    unfold get in Hs. inversion Hs; subst s0 s1; clear Hs.
    apply bind_Ok in H. destruct H as (pool & s1 & Hp & H).
    apply draw_pool_Ok in Hp. destruct Hp as (-> & Hp).
    apply bind_Ok in H. destruct H as (j0 & s1 & Hj & H).
    apply np_random_choice_Ok in Hj.
    destruct Hj as (r & tape & Etape & Hne & Ej & Hin0 & ->).
    destruct (contains forb j0) eqn:Ef.
    + apply IH in H. destruct H as (pool2 & tape2 & Hp2 & Hin & Hf & ->).
      exists pool2, tape2. split; [|split; [exact Hin | split; [exact Hf|]]].
      * unfold CorePure.draw_pool, CorePure.pool_state in *. simpl in Hp2. exact Hp2.
      * destruct s; reflexivity.
    + unfold ret in H. inversion H; subst; clear H.
      exists pool, tape. split; [exact Hp|].
      split; [exact Hin0 | split; [exact Ef | reflexivity]].
Qed.

(** *** [_choose_pivots] *)

Lemma pivot_ids_run (s : St) :
  Core.pivot_ids s = Ok (table s) (Core.set_pivot_ids (Some (table s)) s).
Proof.
  unfold Core.pivot_ids, CorePure.table.
  destruct s as [c n b sup p wp xp x y w t]; simpl.
  destruct p; reflexivity.
Qed.

Lemma choose_pivots_Ok (s s' : St) (i j : Z) :
  Core._choose_pivots dist s = Ok (i, j) s' ->
  exists x w tape pool0 pool1 j0,
    Core._X s = Some x /\ Core.W s = Some w /\
    s' = Core.set_np_random tape (Core.set_pivot_ids (Some (table s)) s) /\
    pool_state s (label0 s) pool0 /\ pool_state s (label1 s) pool1 /\
    Forall (in_range (length x)) pool0 /\ Forall (in_range (length w)) pool0 /\
    Forall (in_range (length x)) pool1 /\ Forall (in_range (length w)) pool1 /\
    selects x w (Core._ihyprpln s)
      (forbidden_at (Core._ihyprpln s) (table s)) pool0 pool1 j0 i j.
Proof.
  intros H. unfold Core._choose_pivots in H.
  rewrite (bind_run _ _ _ _ _ (pivot_ids_run s)) in H.
  set (sa := Core.set_pivot_ids (Some (table s)) s) in *.
  rewrite (bind_run _ _ _ sa sa) in H by reflexivity.
  apply bind_Ok in H. destruct H as (j0 & sb & Hd & H).
  apply draw_start_Ok in Hd.
  destruct Hd as (pool1' & tape & Hp1' & Hj0 & Hf0 & ->).
  set (sb := Core.set_np_random tape sa) in *.
  apply bind_Ok in H. destruct H as (far1 & s1 & Hf1 & H).
  apply furthest_Ok in Hf1.
  destruct Hf1 as (-> & x & w & pool0 & HX & HW & Hp0 & Hx0 & Hw0 & Hxj0 & Hwj0 & ->).
  apply bind_Ok in H. destruct H as (i' & s1 & Hi & H).
  apply lift_Ok in Hi. destruct Hi as (Hi & ->).
  apply bind_Ok in H. destruct H as (far2 & s1 & Hf2 & H).
  apply furthest_Ok in Hf2.
  destruct Hf2 as (-> & x2 & w2 & pool1 & HX2 & HW2 & Hp1 & Hx1 & Hw1 & Hxi & Hwi & ->).
  apply bind_Ok in H. destruct H as (j' & s1 & Hj & H).
  apply lift_Ok in Hj. destruct Hj as (Hj & ->).
  unfold ret in H. inversion H; subst i' j' s'; clear H.
  assert (x2 = x) by congruence. assert (w2 = w) by congruence. subst x2 w2.
  assert (pool1' = pool1).
  { unfold CorePure.draw_pool in Hp1'. unfold CorePure.pool_state in *.
    simpl in *. destruct (Core._supervised s).
    - destruct Hp1' as (y1 & E1 & ->). destruct Hp1 as (y2 & E2 & ->). congruence.
    - destruct Hp1' as (y1 & E1 & ->). destruct Hp1 as (y2 & E2 & ->). congruence. }
  subst pool1'.
  exists x, w, tape, pool0, pool1, j0.
  repeat (split; [first [assumption | reflexivity]|]).
  unfold CorePure.selects, CorePure.forbidden_at.
  repeat (split; [assumption|]). assumption.
Qed.

Lemma choose_pivots_run (s : St) (x : list obj) (w : list (list R))
  (r : nat) (tape : list nat) (pool0 pool1 : list Z) (i j : Z) :
  Core._X s = Some x -> Core.W s = Some w ->
  Core.np_random s = r :: tape ->
  pool_state s (label0 s) pool0 -> pool_state s (label1 s) pool1 ->
  Forall (in_range (length x)) pool0 -> Forall (in_range (length w)) pool0 ->
  Forall (in_range (length x)) pool1 -> Forall (in_range (length w)) pool1 ->
  selects x w (Core._ihyprpln s)
    (forbidden_at (Core._ihyprpln s) (table s)) pool0 pool1
    (nth (r mod length pool1) pool1 0%Z) i j ->
  Core._choose_pivots dist s
  = Ok (i, j) (Core.set_np_random tape (Core.set_pivot_ids (Some (table s)) s)).
Proof.
  intros HX HW Ht Hp0 Hp1 Hx0 Hw0 Hx1 Hw1 (Hj0 & Hf0 & Hi & Hj).
  set (j0 := nth (r mod length pool1) pool1 0%Z) in *.
  unfold Core._choose_pivots.
  rewrite (bind_run _ _ _ _ _ (pivot_ids_run s)).
  set (sa := Core.set_pivot_ids (Some (table s)) s).
  rewrite (bind_run _ _ _ sa sa) by reflexivity.
  assert (Hne : pool1 <> []) by (intros ->; contradiction).
  rewrite (bind_run _ _ _ j0 (Core.set_np_random tape sa)).
  2:{ change (Core._pivot_ids sa) with (Some (table s)).
      change (Core._ihyprpln sa) with (Core._ihyprpln s).
      apply draw_start_run; [exact Hp1 | exact Hne | exact Ht | exact Hf0]. }
  set (sb := Core.set_np_random tape sa).
  assert (Hrj0 : in_range (length x) j0 /\ in_range (length w) j0).
  { rewrite Forall_forall in Hx1, Hw1. split; auto. }
  assert (Hin_i : In i pool0).
  { apply for_break_In in Hi. destruct Hi as [Hi | [_ Hi]]; [|discriminate].
    eapply Permutation_in; [apply ranking_perm | exact Hi]. }
  assert (Hri : in_range (length x) i /\ in_range (length w) i).
  { rewrite Forall_forall in Hx0, Hw0. split; auto. }
  rewrite (bind_run _ _ _ _ sb
             (furthest_run sb x w (label0 s) pool0 j0 HX HW Hp0 Hx0 Hw0
                (proj1 Hrj0) (proj2 Hrj0))).
  change (Core._ihyprpln sb) with (Core._ihyprpln s).
  change (Core._pivot_ids sa) with (Some (table s)).
  change (Core._ihyprpln sa) with (Core._ihyprpln s).
  fold (forbidden_at (Core._ihyprpln s) (table s)).
  rewrite (bind_run _ _ _ i sb) by (now rewrite Hi).
  rewrite (bind_run _ _ _ _ sb
             (furthest_run sb x w (label1 s) pool1 i HX HW Hp1 Hx1 Hw1
                (proj1 Hri) (proj2 Hri))).
  change (Core._ihyprpln sb) with (Core._ihyprpln s).
  rewrite (bind_run _ _ _ j sb) by (now rewrite Hj).
  reflexivity.
Qed.

(** *** One pass of the training loop *)

Lemma selects_members (x : list obj) (w : list (list R)) (k : nat)
  (forb pool0 pool1 : list Z) (j0 i j : Z) :
  selects x w k forb pool0 pool1 j0 i j ->
  In i pool0 /\ In j pool1 /\ contains forb j = false.
Proof.
  intros (Hj0 & Hf0 & Hi & Hj).
  split; [|split].
  - apply for_break_In in Hi. destruct Hi as [Hi | [_ Hi]]; [|discriminate].
    eapply Permutation_in; [apply ranking_perm | exact Hi].
  - apply for_break_In in Hj. destruct Hj as [Hj | [_ Hj]].
    + eapply Permutation_in; [apply ranking_perm | exact Hj].
    + congruence.
  - eapply for_break_allowed; [exact Hj|].
    exists j0. split; [|exact Hf0].
    eapply Permutation_in; [apply Permutation_sym, ranking_perm | exact Hj0].
Qed.

Lemma set_nth_set_nth {A} (n : nat) (u v : A) (l : list A) :
  set_nth n v (set_nth n u l) = set_nth n v l.
Proof.
  apply (nth_ext _ _ v v).
  - now rewrite !set_nth_length.
  - intros m Hm. rewrite !set_nth_length in Hm.
    destruct (Nat.eq_dec n m) as [<- | Hne].
    + rewrite !nth_set_nth_eq; [reflexivity | exact Hm |].
      now rewrite set_nth_length.
    + now rewrite !nth_set_nth_neq by exact Hne.
Qed.

Lemma X_piv_run (s : St) (x : list obj) :
  Core._X s = Some x ->
  Core.X_piv nan_obj s = Ok (xtable s) (Core.set_X_piv (Some (xtable s)) s).
Proof.
  intros HX. unfold Core.X_piv, CorePure.xtable.
  destruct s as [c n b sup p wp xp x0 y w t]; simpl in *.
  destruct xp; [reflexivity|]. now rewrite HX.
Qed.

Lemma modify_run (f : St -> St) (s : St) : Core.modify f s = Ok tt (f s).
Proof. reflexivity. Qed.

Lemma arange_nonempty (n : nat) (i : Z) : in_range n i -> np_arange n <> [].
Proof.
  intros [H0 H1]. destruct n; [lia|]. discriminate.
Qed.

Lemma set_nth_out {A} (n : nat) (v : A) (l : list A) :
  (length l <= n)%nat -> set_nth n v l = l.
Proof.
  intros H. unfold set_nth. rewrite skipn_all2 by exact H.
  rewrite app_nil_r. now apply firstn_all2.
Qed.

Lemma set_nth_pair {A B} (n : nat) (a : A) (b c : B) (l : list (A * B))
  (dflt : A * B) :
  set_nth n (fst (nth n (set_nth n (a, b) l) dflt), c) (set_nth n (a, b) l)
  = set_nth n (a, c) l.
Proof.
  destruct (Nat.le_gt_cases (length l) n) as [Hlen | Hlen].
  - rewrite (set_nth_out n (a, b) l) by exact Hlen.
    rewrite !set_nth_out by exact Hlen. reflexivity.
  - rewrite nth_set_nth_eq by exact Hlen. simpl. apply set_nth_set_nth.
Qed.

Lemma fit_dimension_step (s : St) (d : nat) (x : list obj)
  (w : list (list R)) :
  Core._X s = Some x -> Core.W s = Some w -> length w = length x ->
  (0 < Core._batch_size s)%Z ->
  Core.fit_dimension dist nan_obj d s =
  match Core._choose_pivots dist (Core.set_ihyprpln d s) with
  | Ok (i, j) s1 => Ok tt (after_dimension s1 x w d i j)
  | Raise e s1 => Raise e s1
  | Hang => Hang
  end.
Proof.
  intros HX HW Hlen Hbs. unfold Core.fit_dimension.
  rewrite (bind_run _ _ _ tt (Core.set_ihyprpln d s)) by reflexivity.
  destruct (Core._choose_pivots dist (Core.set_ihyprpln d s))
    as [[i j] s1 | e s1 |] eqn:E.
  2:{ now rewrite (bind_Raise _ _ _ _ _ E). }
  2:{ now rewrite (bind_Hang _ _ _ E). }
  rewrite (bind_run _ _ _ _ _ E).
  apply choose_pivots_Ok in E.
  destruct E as (x' & w' & tape & pool0 & pool1 & j0 & HX' & HW' & Hs1 & Hp0 & Hp1
                 & Hx0 & Hw0 & Hx1 & Hw1 & Hsel).
  simpl in HX', HW'. assert (x' = x) by congruence. assert (w' = w) by congruence.
  subst x' w'.
  apply selects_members in Hsel. destruct Hsel as (Hi & Hj & _).
  rewrite Forall_forall in Hx0, Hw0, Hx1, Hw1.
  assert (Hxi := Hx0 _ Hi). assert (Hwi := Hw0 _ Hi).
  assert (Hxj := Hx1 _ Hj). assert (Hwj := Hw1 _ Hj).
  subst s1.
  set (sd := Core.set_ihyprpln d s) in *.
  set (s1 := Core.set_np_random tape (Core.set_pivot_ids (Some (table sd)) sd)).
  rewrite (bind_run _ _ _ _ _ (pivot_ids_run s1)).
  rewrite (bind_run _ _ _ _ _ (modify_run _ _)).
  match goal with |- bind _ _ ?st = _ => set (s2 := st) end.
  rewrite (bind_run _ _ _ x s2) by (apply attr_run; exact HX).
  rewrite (bind_run _ _ _ _ _ (X_piv_run s2 x HX)).
  match goal with |- bind _ _ ?st = _ => set (s3 := st) end.
  rewrite (bind_run _ _ _ (ob x i) s3)
    by (unfold CorePure.ob; now rewrite (getitem_in_range x i nan_obj Hxi)).
  rewrite (bind_run _ _ _ _ _ (modify_run _ _)).
  match goal with |- bind _ _ ?st = _ => set (s4 := st) end.
  rewrite (bind_run _ _ _ _ _ (X_piv_run s4 x HX)).
  match goal with |- bind _ _ ?st = _ => set (s5 := st) end.
  rewrite (bind_run _ _ _ (ob x j) s5)
    by (unfold CorePure.ob; now rewrite (getitem_in_range x j nan_obj Hxj)).
  rewrite (bind_run _ _ _ _ _ (modify_run _ _)).
  match goal with |- bind _ _ ?st = _ => set (s6 := st) end.
  assert (Hne : np_arange (length x) <> []) by (eapply arange_nonempty; eauto).
  assert (Hra : Forall (in_range (length x)) (np_arange (length x)))
    by apply in_range_arange.
  assert (Hrw : Forall (in_range (length w)) (np_arange (length x)))
    by (rewrite Hlen; apply in_range_arange).
  rewrite (bind_run _ _ _ _ _
             (distance_matrix_run s6 x w [i] j HX HW Hbs ltac:(discriminate)
                ltac:(now constructor) ltac:(now constructor) Hxj Hwj)).
  rewrite (bind_run _ _ _ (length x) s6)
    by (unfold Core.n_obj;
        now rewrite (bind_run _ _ _ x s6) by (apply attr_run; exact HX)).
  rewrite (bind_run _ _ _ _ _
             (distance_matrix_run s6 x w _ i HX HW Hbs Hne Hra Hrw Hxi Hwi)).
  rewrite (bind_run _ _ _ (length x) s6)
    by (unfold Core.n_obj;
        now rewrite (bind_run _ _ _ x s6) by (apply attr_run; exact HX)).
  rewrite (bind_run _ _ _ _ _
             (distance_matrix_run s6 x w _ j HX HW Hbs Hne Hra Hrw Hxj Hwj)).
  rewrite (bind_run _ _ _ w s6) by (apply attr_run; exact HW).
  rewrite modify_run. f_equal.
  unfold CorePure.after_dimension, CorePure.fit_column.
  change (Core._ihyprpln s6) with d.
  unfold s6, s5, s4, s3, s2, s1, sd, CorePure.xtable, CorePure.table.
  destruct s as [c n b sup p wp xp x0 y w0 t]; simpl.
  destruct p, xp; simpl; rewrite set_nth_pair; reflexivity.
Qed.

(** *** The training loop *)

Lemma nth_firstn_lt {A} (k : nat) (l : list A) (i : nat) (d : A) :
  (i < k)%nat -> nth i (firstn k l) d = nth i l d.
Proof.
  intros Hi. rewrite nth_firstn.
  destruct (Nat.ltb_spec i k) as [_ | Hge]; [reflexivity | lia].
Qed.

Lemma nth_error_firstn_lt {A} (k : nat) (l : list A) (i : nat) :
  (i < k)%nat -> nth_error (firstn k l) i = nth_error l i.
Proof.
  intros Hi. rewrite nth_error_firstn.
  destruct (Nat.ltb_spec i k) as [_ | Hge]; [reflexivity | lia].
Qed.

Lemma residual_ext (k : nat) (a a' b b' : list R) (dims : list nat) (v : R) :
  firstn k a = firstn k a' -> firstn k b = firstn k b' ->
  (forall i, In i dims -> (i < k)%nat) ->
  fold_left (residual_step a b) dims v = fold_left (residual_step a' b') dims v.
Proof.
  intros Ha Hb. revert v. induction dims as [|i dims IH]; intros v Hd; simpl.
  - reflexivity.
  - assert (Hi : (i < k)%nat) by (apply Hd; now left).
    assert (E : residual_step a b v i = residual_step a' b' v i).
    { unfold residual_step.
      rewrite <- (nth_firstn_lt k a i 0 Hi), <- (nth_firstn_lt k b i 0 Hi).
      rewrite <- (nth_firstn_lt k a' i 0 Hi), <- (nth_firstn_lt k b' i 0 Hi).
      now rewrite Ha, Hb. }
    rewrite E. apply IH. intros i' Hi'. apply Hd. now right.
Qed.

(** The residual distance at cursor [k] reads the first [k] columns only. *)
Lemma residual_firstn (k : nat) (a a' b b' : list R) (v : R) :
  firstn k a = firstn k a' -> firstn k b = firstn k b' ->
  residual k a b v = residual k a' b' v.
Proof.
  intros Ha Hb. unfold residual. apply (residual_ext k); try assumption.
  intros i Hi. apply in_seq in Hi. lia.
Qed.

Lemma fit_column_length (x : list obj) (w : list (list R)) (d : nat) (i j : Z) :
  length (CorePure.fit_column dist nan_obj x w d i j) = length x.
Proof.
  unfold CorePure.fit_column. rewrite length_map, length_combine.
  rewrite !dmat_length. unfold np_arange. rewrite length_map, length_seq. lia.
Qed.

Lemma fit_column_nth (x : list obj) (w : list (list R)) (d : nat) (i j : Z)
  (k : nat) :
  (k < length x)%nat ->
  nth k (CorePure.fit_column dist nan_obj x w d i j) 0
  = trained_coordinate x w d i j (Z.of_nat k).
Proof.
  intros Hk. unfold CorePure.fit_column, CorePure.dmat.
  rewrite map_combine_map.
  set (f := fun a : Z => _).
  rewrite (nth_indep _ 0 (f 0%Z))
    by (rewrite length_map; unfold np_arange; rewrite length_map, length_seq; exact Hk).
  rewrite map_nth. unfold np_arange.
  rewrite (nth_indep _ 0%Z (Z.of_nat 0))
    by (rewrite length_map, length_seq; exact Hk).
  rewrite map_nth, seq_nth by exact Hk. simpl plus.
  unfold f, CorePure.trained_coordinate. simpl. reflexivity.
Qed.

Lemma row_set_column (d : nat) (col : list R) (w : list (list R)) (k : Z) :
  in_range (length w) k -> length col = length w ->
  row (set_column d col w) k = set_nth d (nth (Z.to_nat k) col 0) (row w k).
Proof.
  intros [H0 H1] Hlen. unfold CorePure.row.
  assert (Hk : (Z.to_nat k < length w)%nat) by lia.
  apply nth_error_nth.
  apply nth_error_set_column.
  - apply nth_error_nth'. exact Hk.
  - apply nth_error_nth'. lia.
Qed.

Lemma row_out (w : list (list R)) (k : Z) :
  (length w <= Z.to_nat k)%nat -> row w k = [].
Proof. intros H. unfold CorePure.row. now apply nth_overflow. Qed.

(** Writing column [d] keeps the columns below [d] of every row. *)
Lemma firstn_row_set_column (d d' : nat) (col : list R) (w : list (list R))
  (k : Z) :
  (d' <= d)%nat -> length col = length w ->
  firstn d' (row (set_column d col w) k) = firstn d' (row w k).
Proof.
  intros Hd Hlen.
  destruct (Z_lt_le_dec k 0) as [Hneg | Hpos].
  - unfold CorePure.row. replace (Z.to_nat k) with 0%nat by lia.
    destruct w as [|r w']; [destruct col; reflexivity|].
    destruct col as [|c col']; [discriminate|]. simpl.
    now apply firstn_set_nth.
  - destruct (Nat.lt_ge_cases (Z.to_nat k) (length w)) as [Hlt | Hge].
    + rewrite row_set_column by (unfold in_range; lia || exact Hlen).
      now apply firstn_set_nth.
    + rewrite !row_out; [reflexivity | exact Hge |].
      now rewrite set_column_length.
Qed.

Lemma after_dimension_W (s1 : St) (x : list obj) (w : list (list R)) (d : nat)
  (i j : Z) :
  Core.W (after_dimension s1 x w d i j)
  = Some (set_column d (CorePure.fit_column dist nan_obj x w d i j) w).
Proof. reflexivity. Qed.

Lemma choose_pivots_frame (s s1 : St) (i j : Z) :
  Core._choose_pivots dist s = Ok (i, j) s1 ->
  Core._X s1 = Core._X s /\ Core.W s1 = Core.W s /\
  Core._batch_size s1 = Core._batch_size s /\
  Core._n_dim s1 = Core._n_dim s /\ Core._y s1 = Core._y s /\
  Core._supervised s1 = Core._supervised s /\
  Core._ihyprpln s1 = Core._ihyprpln s /\
  Core._X_piv s1 = Core._X_piv s /\ Core._W_piv s1 = Core._W_piv s /\
  Core._pivot_ids s1 = Some (table s).
Proof.
  intros H. apply choose_pivots_Ok in H.
  destruct H as (x & w & tape & pool0 & pool1 & j0 & _ & _ & -> & _).
  repeat split.
Qed.

(** The loop returns exactly when every call of [_choose_pivots] does. *)
Lemma forM_trains (x : list obj) (dims : list nat) (s s' : St)
  (w : list (list R)) :
  Core._X s = Some x -> Core.W s = Some w -> length w = length x ->
  (0 < Core._batch_size s)%Z ->
  forM dims (Core.fit_dimension dist nan_obj) s = Ok tt s' ->
  exists P, trains x dims s P s'.
Proof.
  revert s w. induction dims as [|d dims IH]; intros s w HX HW Hlen Hbs H.
  - simpl in H. unfold ret in H. inversion H; subst. exists []. constructor.
  - simpl in H. apply bind_Ok in H. destruct H as ([] & s2 & Hd & H).
    rewrite (fit_dimension_step s d x w HX HW Hlen Hbs) in Hd.
    destruct (Core._choose_pivots dist (Core.set_ihyprpln d s))
      as [[i j] s1 | e s1 |] eqn:E; try discriminate.
    inversion Hd; subst s2; clear Hd.
    destruct (choose_pivots_frame _ _ _ _ E)
      as (F1 & F2 & F3 & F4 & F5 & F6 & F7 & F8 & F9 & F10).
    apply (IH _ (set_column d (CorePure.fit_column dist nan_obj x w d i j) w))
      in H.
    + destruct H as (P & HP). exists ((i, j) :: P).
      econstructor; eauto.
    + simpl. rewrite F1. exact HX.
    + reflexivity.
    + rewrite set_column_length; [exact Hlen|].
      rewrite fit_column_length. now symmetry.
    + simpl. rewrite F3. exact Hbs.
Qed.

Lemma trains_forM (x : list obj) (dims : list nat) (s s' : St)
  (P : list (Z * Z)) (w : list (list R)) :
  Core._X s = Some x -> Core.W s = Some w -> length w = length x ->
  (0 < Core._batch_size s)%Z ->
  trains x dims s P s' ->
  forM dims (Core.fit_dimension dist nan_obj) s = Ok tt s'.
Proof.
  intros HX HW Hlen Hbs Ht. revert w HX HW Hlen Hbs.
  induction Ht as [s | d dims s s1 s' w0 i j P HW0 E Ht IH];
    intros w HX HW Hlen Hbs.
  - reflexivity.
  - assert (w0 = w) by congruence. subst w0.
    simpl. rewrite (bind_run _ _ _ tt (after_dimension s1 x w d i j)).
    + destruct (choose_pivots_frame _ _ _ _ E)
        as (F1 & F2 & F3 & F4 & F5 & F6 & F7 & F8 & F9 & F10).
      apply (IH (set_column d (CorePure.fit_column dist nan_obj x w d i j) w)).
      * simpl. rewrite F1. exact HX.
      * reflexivity.
      * rewrite set_column_length; [exact Hlen|].
        rewrite fit_column_length. now symmetry.
      * simpl. rewrite F3. exact Hbs.
    + rewrite (fit_dimension_step s d x w HX HW Hlen Hbs). now rewrite E.
Qed.

Lemma trained_coordinate_ext (x : list obj) (w w' : list (list R)) (d : nat)
  (i j k : Z) :
  (forall q, firstn d (row w' q) = firstn d (row w q)) ->
  trained_coordinate x w' d i j k = trained_coordinate x w d i j k.
Proof.
  intros H. unfold CorePure.trained_coordinate.
  rewrite (residual_firstn d (row w' k) (row w k) (row w' i) (row w i)) by apply H.
  rewrite (residual_firstn d (row w' k) (row w k) (row w' j) (row w j)) by apply H.
  rewrite (residual_firstn d (row w' i) (row w i) (row w' j) (row w j)) by apply H.
  reflexivity.
Qed.

Lemma length_row_set_column (d : nat) (col : list R) (w : list (list R))
  (k : Z) :
  length col = length w ->
  length (row (set_column d col w) k) = length (row w k).
Proof.
  intros Hlen.
  destruct (Z_lt_le_dec k 0) as [Hneg | Hpos].
  - unfold CorePure.row. replace (Z.to_nat k) with 0%nat by lia.
    destruct w as [|r w']; [destruct col; reflexivity|].
    destruct col as [|c col']; [discriminate|]. simpl.
    apply set_nth_length.
  - destruct (Nat.lt_ge_cases (Z.to_nat k) (length w)) as [Hlt | Hge].
    + rewrite row_set_column by (unfold in_range; lia || exact Hlen).
      apply set_nth_length.
    + rewrite !row_out; [reflexivity | exact Hge |].
      now rewrite set_column_length.
Qed.

Lemma firstn_le_eq {A} (a b : nat) (l l' : list A) :
  (a <= b)%nat -> firstn b l = firstn b l' -> firstn a l = firstn a l'.
Proof.
  intros Hab H.
  rewrite <- (Nat.min_l a b Hab), <- !firstn_firstn. now rewrite H.
Qed.

(** The matrix after the loop over the dimensions [d0 .. d0 + m - 1]: the
    columns below [d0] are untouched, and every column written holds the
    clamped FastMap coordinate for the pair chosen at that dimension,
    computed from the final columns below it. *)
Lemma trains_matrix (x : list obj) (m : nat) :
  forall (d0 : nat) (s s' : St) (P : list (Z * Z)) (w : list (list R)),
    trains x (seq d0 m) s P s' ->
    Core._X s = Some x -> Core.W s = Some w -> length w = length x ->
    exists w',
      Core.W s' = Some w' /\ length w' = length w /\ length P = m /\
      (forall k, firstn d0 (row w' k) = firstn d0 (row w k)) /\
      (forall k, length (row w' k) = length (row w k)) /\
      (forall t i j, nth_error P t = Some (i, j) ->
         in_range (length x) i /\ in_range (length x) j /\
         forall k, in_range (length x) k ->
                   (d0 + t < length (row w k))%nat ->
                   nth (d0 + t) (row w' k) 0
                   = trained_coordinate x w' (d0 + t) i j k).
Proof.
  induction m as [|m IH]; intros d0 s s' P w Ht HX HW Hlen.
  - inversion Ht; subst. exists w.
    split; [assumption|]. split; [reflexivity|]. split; [reflexivity|].
    split; [reflexivity|]. split; [reflexivity|].
    intros q i0 j0 E0; destruct q; discriminate.
  - simpl in Ht. inversion Ht as [|d dims s0 s1 s2 w0 i j P' HW0 E Ht']; subst.
    assert (w0 = w) by congruence. subst w0.
    set (col := CorePure.fit_column dist nan_obj x w d0 i j) in *.
    assert (Hcol : length col = length w)
      by (unfold col; rewrite fit_column_length; now symmetry).
    destruct (choose_pivots_frame _ _ _ _ E)
      as (F1 & F2 & F3 & F4 & F5 & F6 & F7 & F8 & F9 & F10).
    apply (IH (S d0) _ _ _ (set_column d0 col w)) in Ht'.
    2:{ simpl. rewrite F1. exact HX. }
    2:{ reflexivity. }
    2:{ now rewrite set_column_length. }
    destruct Ht' as (w' & HW' & Hlen' & HP & Hfirst & Hrowlen & Hcoord).
    assert (Hfirst0 : forall k, firstn d0 (row w' k) = firstn d0 (row w k)).
    { intros k. rewrite <- (firstn_row_set_column d0 d0 col w k) by auto.
      apply (firstn_le_eq d0 (S d0)); [lia | apply Hfirst]. }
    exists w'. split; [exact HW'|]. split.
    { rewrite Hlen'. now apply set_column_length. }
    split; [simpl; now rewrite HP|]. split; [exact Hfirst0|]. split.
    { intros k. rewrite Hrowlen. now apply length_row_set_column. }
    intros t i' j' Et. destruct t as [|t]; simpl in Et.
    + inversion Et; subst i' j'; clear Et.
      apply choose_pivots_Ok in E.
      destruct E as (x' & w0 & tape & pool0 & pool1 & j0 & HX' & HW0' & _ & _ & _
                     & Hx0 & _ & Hx1 & _ & Hsel).
      simpl in HX'. assert (x' = x) by congruence. subst x'.
      apply selects_members in Hsel. destruct Hsel as (Hi & Hj & _).
      rewrite Forall_forall in Hx0, Hx1.
      split; [now apply Hx0|]. split; [now apply Hx1|].
      intros k Hk Hd. rewrite Nat.add_0_r in *.
      rewrite <- (nth_firstn_lt (S d0) (row w' k) d0 0) by lia.
      rewrite Hfirst. rewrite nth_firstn_lt by lia.
      rewrite row_set_column; [|rewrite Hlen; exact Hk | exact Hcol].
      rewrite nth_set_nth_eq by exact Hd.
      unfold col. destruct Hk as [Hk0 Hk1].
      rewrite fit_column_nth by lia. rewrite Z2Nat.id by lia.
      symmetry. now apply trained_coordinate_ext.
    + destruct (Hcoord t i' j' Et) as (Hi & Hj & Hc).
      split; [exact Hi|]. split; [exact Hj|].
      intros k Hk Hd. replace (d0 + S t)%nat with (S d0 + t)%nat by lia.
      apply Hc; [exact Hk|].
      rewrite length_row_set_column by exact Hcol. lia.
Qed.

Lemma pool_state_frame (s s1 : St) (label : option Z) (pool : list Z) :
  Core._X s1 = Core._X s -> Core._y s1 = Core._y s ->
  pool_state s1 label pool -> pool_state s label pool.
Proof.
  intros HX Hy. unfold CorePure.pool_state.
  destruct label; rewrite ?HX, ?Hy; auto.
Qed.

Lemma table_set_ihyprpln (d : nat) (s : St) :
  table (Core.set_ihyprpln d s) = table s.
Proof. reflexivity. Qed.

Lemma firstn_forbidden (k : nat) (p p' : list (Z * Z)) :
  firstn k p = firstn k p' -> forbidden_at k p = forbidden_at k p'.
Proof. unfold CorePure.forbidden_at. now intros ->. Qed.

(** The tables after the loop over the dimensions [d0 .. d0 + m - 1]: row
    [d0 + t] of the pivot index table holds the pair chosen at that
    dimension reduced modulo 2^16, row [d0 + t] of [X_piv] holds the two
    objects, and the pair was selected against the rows below it. *)
Lemma trains_tables (x : list obj) (m : nat) :
  forall (d0 : nat) (s s' : St) (P : list (Z * Z)),
    trains x (seq d0 m) s P s' ->
    Core._X s = Some x ->
    (d0 + m <= length (table s))%nat ->
    (d0 + m <= length (xtable s))%nat ->
    length (table s') = length (table s) /\
    length (xtable s') = length (xtable s) /\
    firstn d0 (table s') = firstn d0 (table s) /\
    firstn d0 (xtable s') = firstn d0 (xtable s) /\
    Core._X s' = Core._X s /\ Core._y s' = Core._y s /\
    Core._supervised s' = Core._supervised s /\
    Core._n_dim s' = Core._n_dim s /\
    Core._batch_size s' = Core._batch_size s /\
    Core._W_piv s' = Core._W_piv s /\
    (forall t i j, nth_error P t = Some (i, j) ->
       nth_error (table s') (d0 + t) = Some (uint16 i, uint16 j) /\
       nth_error (xtable s') (d0 + t) = Some (ob x i, ob x j) /\
       exists w_t pool0 pool1 j0,
         pool_state s (label0 s) pool0 /\ pool_state s (label1 s) pool1 /\
         selects x w_t (d0 + t) (forbidden_at (d0 + t) (table s'))
           pool0 pool1 j0 i j).
Proof.
  induction m as [|m IH]; intros d0 s s' P Ht HX Hpl Hxl.
  - inversion Ht; subst. repeat (split; [reflexivity|]).
    intros q i0 j0 E0; destruct q; discriminate.
  - simpl in Ht. inversion Ht as [|d dims s0 s1 s2 w0 i j P' HW0 E Ht']; subst.
    destruct (choose_pivots_frame _ _ _ _ E)
      as (F1 & F2 & F3 & F4 & F5 & F6 & F7 & F8 & F9 & F10).
    simpl in F1, F5, F6, F4, F3, F8, F9. rewrite table_set_ihyprpln in F10.
    set (sa := after_dimension s1 x w0 d0 i j) in *.
    assert (Ta : table sa = set_nth d0 (uint16 i, uint16 j) (table s)).
    { unfold sa, CorePure.after_dimension, CorePure.table at 1. simpl.
      unfold CorePure.table at 1. now rewrite F10. }
    assert (Xa : xtable sa = set_nth d0 (ob x i, ob x j) (xtable s)).
    { unfold sa, CorePure.after_dimension, CorePure.xtable at 1. simpl.
      unfold CorePure.xtable. now rewrite F8, F4. }
    apply (IH (S d0)) in Ht'.
    2:{ simpl. rewrite F1. exact HX. }
    2:{ rewrite Ta, set_nth_length. lia. }
    2:{ rewrite Xa, set_nth_length. lia. }
    destruct Ht' as (L1 & L2 & T1 & T2 & G1 & G2 & G3 & G4 & G5 & G6 & Hrec).
    rewrite Ta in L1, T1. rewrite Xa in L2, T2.
    rewrite set_nth_length in L1. rewrite set_nth_length in L2.
    assert (T1' : firstn d0 (table s') = firstn d0 (table s)).
    { rewrite (firstn_le_eq d0 (S d0) _ _ ltac:(lia) T1).
      apply firstn_set_nth. lia. }
    assert (T2' : firstn d0 (xtable s') = firstn d0 (xtable s)).
    { rewrite (firstn_le_eq d0 (S d0) _ _ ltac:(lia) T2).
      apply firstn_set_nth. lia. }
    split; [exact L1|]. split; [exact L2|]. split; [exact T1'|].
    split; [exact T2'|].
    split; [rewrite G1; simpl; exact F1|].
    split; [rewrite G2; simpl; exact F5|].
    split; [rewrite G3; simpl; exact F6|].
    split; [rewrite G4; simpl; exact F4|].
    split; [rewrite G5; simpl; exact F3|].
    split; [rewrite G6; simpl; exact F9|].
    intros t i' j' Et. destruct t as [|t]; simpl in Et.
    + inversion Et; subst i' j'; clear Et. rewrite Nat.add_0_r.
      split; [|split].
      * rewrite <- (nth_error_firstn_lt (S d0)) by lia. rewrite T1.
        rewrite nth_error_firstn_lt by lia. apply nth_error_set_nth_eq. lia.
      * rewrite <- (nth_error_firstn_lt (S d0)) by lia. rewrite T2.
        rewrite nth_error_firstn_lt by lia. apply nth_error_set_nth_eq. lia.
      * apply choose_pivots_Ok in E.
        destruct E as (x' & w1 & tape & pool0 & pool1 & j0 & HX' & HW1 & _ & Hp0
                       & Hp1 & _ & _ & _ & _ & Hsel).
        simpl in HX'. assert (x' = x) by congruence. subst x'.
        exists w1, pool0, pool1, j0.
        split; [exact Hp0|]. split; [exact Hp1|].
        simpl in Hsel. rewrite table_set_ihyprpln in Hsel.
        rewrite (firstn_forbidden d0 (table s') (table s)) by exact T1'.
        exact Hsel.
    + destruct (Hrec t i' j' Et) as (R1 & R2 & w_t & pool0 & pool1 & j0 & Hp0 & Hp1 & Hsel).
      replace (d0 + S t)%nat with (S d0 + t)%nat by lia.
      split; [exact R1|]. split; [exact R2|].
      exists w_t, pool0, pool1, j0.
      split; [|split; [|exact Hsel]].
      * unfold CorePure.label0 in *. simpl in Hp0. rewrite F6 in Hp0.
        eapply pool_state_frame; [| |exact Hp0]; simpl; assumption.
      * unfold CorePure.label1 in *. simpl in Hp1. rewrite F6 in Hp1.
        eapply pool_state_frame; [| |exact Hp1]; simpl; assumption.
Qed.

(** *** [fit] from beginning to end *)

Lemma fit_begin_run (X_train : list obj) (labels : option (list Z)) (s : St) :
  Core.fit_begin np_nan X_train labels s
  = Ok tt (begin_state X_train labels s).
Proof.
  unfold Core.fit_begin, CorePure.begin_state, Core.set_labels, Core.n_obj,
    Core.X, Core.attr, Core.modify, bind, get, ret.
  destruct labels as [v|]; reflexivity.
Qed.

Lemma W_piv_run (s : St) :
  Core.W_piv np_nan s = Ok (wtable s) (Core.set_W_piv (Some (wtable s)) s).
Proof.
  unfold Core.W_piv, CorePure.wtable.
  destruct s as [c n b sup p wp xp x y w t]; simpl.
  destruct wp; reflexivity.
Qed.

Lemma snapshot_pivot_run (s : St) (w : list (list R)) (d : nat) (ij : Z * Z) :
  Core.W s = Some w ->
  in_range (length w) (fst ij) -> in_range (length w) (snd ij) ->
  Core.snapshot_pivot np_nan d ij s
  = Ok tt (Core.set_W_piv
             (Some (set_nth d (row w (fst ij), row w (snd ij)) (wtable s))) s).
Proof.
  intros HW Hi Hj. unfold Core.snapshot_pivot.
  rewrite (bind_run _ _ _ w s) by (apply attr_run; exact HW).
  rewrite (bind_run _ _ _ _ _ (W_piv_run s)).
  match goal with |- bind _ _ ?st = _ => set (s1 := st) end.
  rewrite (bind_run _ _ _ (row w (fst ij)) s1)
    by (unfold CorePure.row; now rewrite (getitem_in_range w _ [] Hi)).
  rewrite (bind_run _ _ _ _ _ (modify_run _ _)).
  match goal with |- bind _ _ ?st = _ => set (s2 := st) end.
  rewrite (bind_run _ _ _ w s2) by (apply attr_run; exact HW).
  rewrite (bind_run _ _ _ _ _ (W_piv_run s2)).
  match goal with |- bind _ _ ?st = _ => set (s3 := st) end.
  rewrite (bind_run _ _ _ (row w (snd ij)) s3)
    by (unfold CorePure.row; now rewrite (getitem_in_range w _ [] Hj)).
  rewrite modify_run. f_equal.
  unfold s3, s2, s1, CorePure.wtable.
  destruct s as [c n b sup p wp xp x y w0 t]; simpl.
  rewrite set_nth_pair. reflexivity.
Qed.

Lemma set_nth_app {A} (pre : list A) (a v : A) (t : list A) :
  set_nth (length pre) v (pre ++ a :: t) = pre ++ v :: t.
Proof.
  unfold set_nth. rewrite firstn_app, Nat.sub_diag, firstn_all. simpl.
  rewrite app_nil_r. rewrite skipn_app, Nat.sub_diag, skipn_all. reflexivity.
Qed.

Lemma snapshot_loop (w : list (list R)) (rest : list (Z * Z)) :
  forall (pre wrest : list (list R * list R)) (s : St),
    Core.W s = Some w ->
    wtable s = pre ++ wrest -> length wrest = length rest ->
    (forall ij, In ij rest ->
                in_range (length w) (fst ij) /\ in_range (length w) (snd ij)) ->
    forM (combine (seq (length pre) (length rest)) rest)
         (fun dij => Core.snapshot_pivot np_nan (fst dij) (snd dij)) s
    = Ok tt (match rest with
             | [] => s
             | _ => Core.set_W_piv (Some (pre ++ snapshots w rest)) s
             end).
Proof.
  induction rest as [|ij rest IH]; intros pre wrest s HW Hwt Hlen Hr.
  - reflexivity.
  - destruct wrest as [|wr wrest]; [discriminate|].
    simpl. destruct (Hr ij (or_introl eq_refl)) as (Hi & Hj).
    rewrite (bind_run _ _ _ _ _ (snapshot_pivot_run s w _ ij HW Hi Hj)).
    simpl fst. simpl snd. rewrite Hwt, set_nth_app.
    set (v := (row w (fst ij), row w (snd ij))).
    set (s1 := Core.set_W_piv (Some (pre ++ v :: wrest)) s).
    specialize (IH (pre ++ [v]) wrest s1).
    rewrite length_app in IH. simpl in IH.
    replace (length pre + 1)%nat with (S (length pre)) in IH by lia.
    rewrite IH.
    + unfold CorePure.snapshots. fold v.
      destruct rest as [|ij' rest'].
      * destruct wrest; [reflexivity | simpl in Hlen; lia].
      * unfold s1. rewrite <- app_assoc. simpl.
        destruct s; reflexivity.
    + exact HW.
    + unfold s1, CorePure.wtable. simpl. now rewrite <- app_assoc.
    + simpl in Hlen. lia.
    + intros ij' Hin. apply Hr. now right.
Qed.

Lemma fit_end_run (s : St) (w : list (list R)) :
  Core.W s = Some w ->
  length (wtable s) = length (table s) ->
  (forall ij, In ij (table s) ->
              in_range (length w) (fst ij) /\ in_range (length w) (snd ij)) ->
  Core.fit_end np_nan s = Ok tt (end_state w s).
Proof.
  intros HW Hlen Hr. unfold Core.fit_end.
  rewrite (bind_run _ _ _ _ _ (pivot_ids_run s)).
  set (s1 := Core.set_pivot_ids (Some (table s)) s).
  rewrite (bind_run _ _ _ tt
             (match table s with
              | [] => s1
              | _ => Core.set_W_piv (Some (snapshots w (table s))) s1
              end)).
  - rewrite (bind_run _ _ _ _ _ (modify_run _ _)).
    rewrite (bind_run _ _ _ _ _ (modify_run _ _)).
    rewrite modify_run. f_equal. unfold CorePure.end_state, s1.
    destruct s as [c n b sup p wp xp x y w0 t]; simpl.
    destruct (CorePure.table _); reflexivity.
  - apply (snapshot_loop w (table s) [] (wtable s) s1); auto.
Qed.

(** *** [transform] row by row *)

Lemma combine_map_r {A B C} (g : A * B -> C) (l : list A) (l' : list B) :
  combine l (map g (combine l l'))
  = map (fun ab => (fst ab, g ab)) (combine l l').
Proof.
  revert l'. induction l as [|a l IH]; intros [|b l']; simpl; try reflexivity.
  now rewrite IH.
Qed.

Lemma set_column_rows (d : nat) (f : obj * list R -> R) (Xb : list obj)
  (Wb : list (list R)) :
  length Wb = length Xb ->
  set_column d (map f (combine Xb Wb)) Wb
  = map (fun xw => set_nth d (f xw) (snd xw)) (combine Xb Wb).
Proof.
  unfold set_column. revert Wb.
  induction Xb as [|a Xb IH]; intros [|r Wb] H; simpl in *; try discriminate;
    [reflexivity|].
  f_equal. apply IH. lia.
Qed.

Lemma transform_dimension_run (Xp : list (obj * obj))
  (Wp : list (list R * list R)) (Xb : list obj) (Wb : list (list R))
  (d : nat) (s : St) :
  length Wb = length Xb ->
  (d < length Xp)%nat -> (d < length Wp)%nat ->
  Core.transform_dimension dist Xp Wp Xb Wb d s
  = Ok (map (fun xw => transform_step Xp Wp (fst xw) (snd xw) d)
            (combine Xb Wb))
       (Core.set_ihyprpln d s).
Proof.
  intros Hlen HX HW. unfold Core.transform_dimension.
  rewrite (bind_run _ _ _ _ _ (modify_run _ _)).
  rewrite (bind_run _ _ _ (nth d Wp ([], [])) (Core.set_ihyprpln d s))
    by (now rewrite (nth_error_nth' Wp ([], []) HW)).
  rewrite (bind_run _ _ _ (nth d Xp (nan_obj, nan_obj)) (Core.set_ihyprpln d s))
    by (now rewrite (nth_error_nth' Xp (nan_obj, nan_obj) HX)).
  unfold ret. f_equal.
  rewrite (set_column_rows d
             (fun xw => transform_entry Xp Wp (fst xw) (snd xw) d)) by exact Hlen.
  reflexivity.
Qed.

Lemma set_ihyprpln_twice (a b : nat) (s : St) :
  Core.set_ihyprpln a (Core.set_ihyprpln b s) = Core.set_ihyprpln a s.
Proof. reflexivity. Qed.

Lemma transform_dims_run (Xp : list (obj * obj))
  (Wp : list (list R * list R)) (Xb : list obj) (dims : list nat) :
  forall (Wb : list (list R)) (s : St),
    length Wb = length Xb ->
    (forall d, In d dims -> (d < length Xp)%nat /\ (d < length Wp)%nat) ->
    Core.transform_dims dist Xp Wp Xb Wb dims s
    = Ok (map (fun xw => fold_left (transform_step Xp Wp (fst xw)) dims (snd xw))
              (combine Xb Wb))
         (match rev dims with
          | [] => s
          | d :: _ => Core.set_ihyprpln d s
          end).
Proof.
  induction dims as [|d dims IH]; intros Wb s Hlen Hd.
  - simpl. unfold ret. f_equal.
    clear Hd. revert Wb Hlen.
    induction Xb as [|a Xb IHx]; intros [|r Wb] H; simpl in *;
      try discriminate; [reflexivity|].
    f_equal. apply IHx. lia.
  - simpl Core.transform_dims.
    destruct (Hd d (or_introl eq_refl)) as (HX & HW).
    rewrite (bind_run _ _ _ _ _
               (transform_dimension_run Xp Wp Xb Wb d s Hlen HX HW)).
    rewrite IH.
    + f_equal.
      * rewrite combine_map_r, map_map. reflexivity.
      * simpl rev. destruct (rev dims) as [|d' l] eqn:E; simpl.
        -- reflexivity.
        -- apply set_ihyprpln_twice.
    + rewrite length_map, length_combine. lia.
    + intros d' Hd'. apply Hd. now right.
Qed.

Lemma mapM_state_run {A B} (f : A -> M St B) (g : A -> B) (h : St -> St)
  (l : list A) (s : St) :
  (forall a st, In a l -> f a st = Ok (g a) (h st)) ->
  (forall st, h (h st) = h st) ->
  mapM f l s = Ok (map g l) (match l with [] => s | _ => h s end).
Proof.
  intros Hf Hh. revert s. induction l as [|a l IH]; intros s.
  - reflexivity.
  - simpl. rewrite (bind_run _ _ _ _ _ (Hf a s (or_introl eq_refl))).
    rewrite (bind_run _ _ _ (map g l) (h s)); [reflexivity|].
    rewrite IH by (intros a' st Ha'; apply Hf; now right).
    destruct l; [reflexivity | now rewrite Hh].
Qed.

Lemma combine_repeat {A B} (l : list A) (b : B) :
  combine l (repeat b (length l)) = map (fun a => (a, b)) l.
Proof. induction l as [|a l IH]; simpl; [reflexivity | now rewrite IH]. Qed.

Lemma rev_seq_S (d : nat) : rev (seq 0 (S d)) = d :: rev (seq 0 d).
Proof. rewrite seq_S, rev_app_distr. reflexivity. Qed.

(** [transform] computes every row on its own, whatever the batch size;
    the cursor is left on the last dimension. *)
Lemma transform_run (s : St) (Xp : list (obj * obj))
  (Wp : list (list R * list R)) (X_new : list obj) :
  Core._X_piv s = Some Xp -> Core._W_piv s = Some Wp ->
  (0 < Core._batch_size s)%Z ->
  (Core._n_dim s <= length Xp)%nat -> (Core._n_dim s <= length Wp)%nat ->
  Core.transform dist np_nan nan_obj X_new s
  = Ok (map (transform_row Xp Wp (Core._n_dim s)) X_new)
       (match X_new, Core._n_dim s with
        | [], _ => s
        | _, O => s
        | _, S d => Core.set_ihyprpln d s
        end).
Proof.
  intros HXp HWp Hbs HlX HlW. unfold Core.transform.
  rewrite (bind_run _ _ _ s s) by reflexivity.
  rewrite (bind_run _ _ _ Xp s) by (unfold Core.X_piv; now rewrite HXp).
  rewrite (bind_run _ _ _ Wp s) by (unfold Core.W_piv; now rewrite HWp).
  set (D := Core._n_dim s) in *.
  set (bs := Z.to_nat (Core._batch_size s)).
  rewrite (bind_run _ _ _ (batches (length X_new) bs X_new) s).
  2:{ unfold Core.transform_slices.
      destruct (Z.eqb_spec (Core._batch_size s) 0); [lia|].
      destruct (Z.ltb_spec (Core._batch_size s) 0); [lia|]. reflexivity. }
  set (h := fun st : St => match rev (seq 0 D) with
                           | [] => st
                           | d :: _ => Core.set_ihyprpln d st
                           end).
  rewrite (bind_run _ _ _ (map (map (transform_row Xp Wp D))
                               (batches (length X_new) bs X_new))
             (match batches (length X_new) bs X_new with
              | [] => s
              | _ => h s
              end)).
  - assert (Hc : concat (batches (length X_new) bs X_new) = X_new)
      by (apply concat_batches; [unfold bs; lia | lia]).
    rewrite <- concat_map, Hc, length_map, Nat.sub_diag. simpl repeat.
    rewrite app_nil_r. unfold ret. f_equal.
    destruct X_new as [|a X']; [reflexivity|].
    change (batches (length (a :: X')) bs (a :: X'))
      with (firstn bs (a :: X')
            :: batches (length X') bs (skipn bs (a :: X'))).
    unfold h. destruct D as [|d]; [reflexivity|].
    now rewrite rev_seq_S.
  - apply mapM_state_run.
    + intros Xb st _.
      rewrite transform_dims_run.
      * f_equal. rewrite combine_repeat, map_map. reflexivity.
      * apply repeat_length.
      * intros d Hd. apply in_seq in Hd. lia.
    + intros st. unfold h. destruct (rev (seq 0 D)); reflexivity.
Qed.

(** *** The training coordinate is the clamp of the transform coordinate *)

Lemma fit_coordinate_clip (d_ik d_jk d_ij : R) :
  Core.fit_coordinate d_ik d_jk d_ij
  = np_clip_0_inf (Core.transform_coordinate d_ik d_jk d_ij).
Proof.
  unfold Core.fit_coordinate, Core.transform_coordinate, np_square.
  f_equal. f_equal; ring.
Qed.

Lemma fit_coordinate_nonneg (d_ik d_jk d_ij : R) :
  0 <= Core.fit_coordinate d_ik d_jk d_ij.
Proof. apply np_clip_0_inf_nonneg. Qed.

Lemma firstn_S_nth {A} (d : nat) (l : list A) (dflt : A) :
  (d < length l)%nat -> firstn (S d) l = firstn d l ++ [nth d l dflt].
Proof.
  revert l. induction d as [|d IH]; intros [|a l] H; simpl in *; try lia.
  - reflexivity.
  - f_equal. apply IH. lia.
Qed.

Lemma transform_step_length (Xp : list (obj * obj))
  (Wp : list (list R * list R)) (x_new : obj) (dims : list nat) (r : list R) :
  length (fold_left (transform_step Xp Wp x_new) dims r) = length r.
Proof.
  revert r. induction dims as [|d dims IH]; intros r; simpl.
  - reflexivity.
  - rewrite IH. apply set_nth_length.
Qed.

Lemma transform_step_keeps (Xp : list (obj * obj))
  (Wp : list (list R * list R)) (x_new : obj) (dims : list nat) (r : list R)
  (q : nat) :
  ~ In q dims ->
  nth q (fold_left (transform_step Xp Wp x_new) dims r) 0 = nth q r 0.
Proof.
  revert r. induction dims as [|d dims IH]; intros r Hq; simpl.
  - reflexivity.
  - rewrite IH by (intros H; apply Hq; now right).
    apply nth_set_nth_neq. intros ->. apply Hq. now left.
Qed.

Section RoundTrip.

Variable x : list obj.
Variable wL : list (list R).
Variable P : list (Z * Z).
Variable Xp : list (obj * obj).
Variable Wp : list (list R * list R).
Variable D : nat.

Hypothesis rows_D :
  forall k, in_range (length x) k -> length (row wL k) = D.
Hypothesis P_len : length P = D.
Hypothesis coords :
  forall d i j, nth_error P d = Some (i, j) ->
    forall k, in_range (length x) k ->
      nth d (row wL k) 0 = trained_coordinate x wL d i j k.
Hypothesis Xp_rows :
  forall d i j, nth_error P d = Some (i, j) ->
    nth d Xp (nan_obj, nan_obj) = (ob x i, ob x j).
Hypothesis Wp_rows :
  forall d i j, nth_error P d = Some (i, j) ->
    nth d Wp ([], []) = (row wL i, row wL j).

Lemma trained_row_nonneg (k : Z) :
  in_range (length x) k -> Forall (fun c => 0 <= c) (row wL k).
Proof.
  intros Hk. apply Forall_forall. intros c Hc.
  apply (In_nth _ _ 0) in Hc. destruct Hc as (d & Hd & <-).
  rewrite (rows_D k Hk), <- P_len in Hd.
  destruct (nth_error P d) as [[i j]|] eqn:E.
  - rewrite (coords d i j E k Hk). apply fit_coordinate_nonneg.
  - apply nth_error_None in E. lia.
Qed.

(** While the row built by [transform] agrees with the trained row below
    dimension [d], the entry it writes at [d] is the unclamped value of
    the trained entry. *)
Lemma transform_entry_trained (k : Z) (r : list R) (d : nat) :
  in_range (length x) k -> (d < D)%nat ->
  firstn d r = firstn d (row wL k) ->
  np_clip_0_inf (transform_entry Xp Wp (ob x k) r d) = nth d (row wL k) 0.
Proof.
  intros Hk Hd Hr.
  destruct (nth_error P d) as [[i j]|] eqn:E.
  2:{ apply nth_error_None in E. lia. }
  rewrite (coords d i j E k Hk).
  unfold CorePure.trained_coordinate, CorePure.transform_entry.
  rewrite (Xp_rows d i j E), (Wp_rows d i j E). simpl fst. simpl snd.
  rewrite fit_coordinate_clip.
  rewrite (residual_firstn d r (row wL k) (row wL i) (row wL i)) by auto.
  rewrite (residual_firstn d r (row wL k) (row wL j) (row wL j)) by auto.
  reflexivity.
Qed.

Lemma transform_prefix (k : Z) :
  in_range (length x) k ->
  forall d, (d <= D)%nat ->
    let r := fold_left (transform_step Xp Wp (ob x k)) (seq 0 d) (repeat 0 D) in
    (forall q, (q < d)%nat -> 0 <= nth q r 0) ->
    firstn d r = firstn d (row wL k).
Proof.
  intros Hk. induction d as [|d IH]; intros Hd r Hpos.
  - reflexivity.
  - unfold r in *. clear r. rewrite seq_S, fold_left_app in *.
    cbn [fold_left Nat.add] in *.
    set (r := fold_left (transform_step Xp Wp (ob x k)) (seq 0 d) (repeat 0 D))
      in *.
    assert (Hlen : length r = D)
      by (unfold r; rewrite transform_step_length; apply repeat_length).
    assert (IHr : firstn d r = firstn d (row wL k)).
    { apply IH; [lia|]. intros q Hq.
      specialize (Hpos q ltac:(lia)). unfold CorePure.transform_step in Hpos.
      rewrite nth_set_nth_neq in Hpos by lia. exact Hpos. }
    specialize (Hpos d ltac:(lia)). unfold CorePure.transform_step in *.
    rewrite nth_set_nth_eq in Hpos by lia.
    rewrite (firstn_S_nth d _ 0) by (rewrite set_nth_length; lia).
    rewrite (firstn_S_nth d (row wL k) 0) by (rewrite rows_D; [lia | exact Hk]).
    rewrite firstn_set_nth by lia. rewrite nth_set_nth_eq by lia.
    rewrite IHr. f_equal. f_equal.
    rewrite <- (transform_entry_trained k r d Hk ltac:(lia) IHr).
    symmetry. now apply np_clip_0_inf_id.
Qed.

(** The row that [transform] gives a training object is its trained row
    exactly when it has no negative coordinate. *)
Lemma transform_row_trained (k : Z) :
  in_range (length x) k ->
  (Forall (fun c => 0 <= c) (transform_row Xp Wp D (ob x k))
   <-> transform_row Xp Wp D (ob x k) = row wL k).
Proof.
  intros Hk. split.
  - intros Hpos. unfold CorePure.transform_row in *.
    set (r := fold_left _ _ _) in *.
    assert (Hlen : length r = D)
      by (unfold r; rewrite transform_step_length; apply repeat_length).
    rewrite <- (firstn_all r), Hlen.
    rewrite <- (firstn_all (row wL k)), (rows_D k Hk).
    apply (transform_prefix k Hk D (Nat.le_refl D)).
    intros q Hq. rewrite Forall_forall in Hpos. apply Hpos.
    apply nth_In. fold r. lia.
  - intros ->. now apply trained_row_nonneg.
Qed.

End RoundTrip.

(** *** The pivot index table *)

Lemma uint16_bounds (i : Z) : (0 <= i)%Z -> (0 <= uint16 i <= i)%Z.
Proof.
  intros H. unfold uint16. split.
  - apply Z.mod_pos_bound. lia.
  - apply Z.mod_le; lia.
Qed.

Lemma uint16_small (i : Z) : (0 <= i < 65536)%Z -> uint16 i = i.
Proof. intros H. unfold uint16. now apply Z.mod_small. Qed.

Lemma uint16_in_range (n : nat) (i : Z) : in_range n i -> in_range n (uint16 i).
Proof.
  intros [H0 H1]. pose proof (uint16_bounds i H0). unfold in_range. lia.
Qed.

Lemma begin_state_facts (X_train : list obj) (labels : option (list Z))
  (s : St) :
  let sb := begin_state X_train labels s in
  Core._X sb = Some X_train /\
  Core.W sb = Some (repeat (repeat np_nan (Core._n_dim s)) (length X_train)) /\
  Core._n_dim sb = Core._n_dim s /\
  Core._batch_size sb = Core._batch_size s /\
  table sb = table s /\ xtable sb = xtable s /\ wtable sb = wtable s /\
  Core._supervised sb = (match labels with Some _ => true | None => false end) /\
  (forall v, labels = Some v -> Core._y sb = Some v).
Proof.
  unfold CorePure.begin_state, CorePure.table, CorePure.xtable, CorePure.wtable.
  destruct labels; simpl; repeat split; try reflexivity.
  - intros v0 E. congruence.
  - discriminate.
Qed.

Lemma row_repeat (r : list R) (n : nat) (k : Z) :
  in_range n k -> row (repeat r n) k = r.
Proof.
  intros [H0 H1]. unfold CorePure.row.
  apply nth_repeat_lt. lia.
Qed.

(** What a completed run of the loop from the beginning leaves. *)
Lemma trained_loop (X_train : list obj) (labels : option (list Z))
  (s0 sL : St) (P : list (Z * Z)) :
  tables_ok s0 ->
  trains X_train (seq 0 (Core._n_dim s0)) (begin_state X_train labels s0) P sL ->
  exists wL,
    Core.W sL = Some wL /\ length wL = length X_train /\
    length P = Core._n_dim s0 /\
    length (table sL) = Core._n_dim s0 /\
    length (xtable sL) = Core._n_dim s0 /\
    length (wtable sL) = Core._n_dim s0 /\
    Core._n_dim sL = Core._n_dim s0 /\
    Core._batch_size sL = Core._batch_size s0 /\
    (forall k, in_range (length X_train) k ->
               length (row wL k) = Core._n_dim s0) /\
    (forall d i j, nth_error P d = Some (i, j) ->
       in_range (length X_train) i /\ in_range (length X_train) j /\
       nth_error (table sL) d = Some (uint16 i, uint16 j) /\
       nth_error (xtable sL) d = Some (ob X_train i, ob X_train j) /\
       forall k, in_range (length X_train) k ->
         nth d (row wL k) 0 = trained_coordinate X_train wL d i j k).
Proof.
  intros (T1 & T2 & T3) Ht.
  destruct (begin_state_facts X_train labels s0)
    as (B1 & B2 & B3 & B4 & B5 & B6 & B7 & B8 & B9).
  destruct (trains_matrix _ _ _ _ _ _ _ Ht B1 B2 ltac:(apply repeat_length))
    as (wL & HW & Hlen & HP & _ & Hrow & Hcoord).
  rewrite repeat_length in Hlen.
  destruct (trains_tables _ _ _ _ _ _ Ht B1
              ltac:(rewrite B5; lia) ltac:(rewrite B6; lia))
    as (L1 & L2 & _ & _ & G1 & G2 & G3 & G4 & G5 & G6 & Hrec).
  exists wL. split; [exact HW|]. split; [exact Hlen|]. split; [exact HP|].
  split; [now rewrite L1, B5|]. split; [now rewrite L2, B6|].
  split.
  { unfold CorePure.wtable. rewrite G6, G4.
    change (length (wtable (begin_state X_train labels s0)) = Core._n_dim s0).
    now rewrite B7. }
  split; [now rewrite G4|]. split; [now rewrite G5|].
  assert (Hrows : forall k, in_range (length X_train) k ->
                            length (row wL k) = Core._n_dim s0).
  { intros k Hk. rewrite Hrow, row_repeat by exact Hk. apply repeat_length. }
  split; [exact Hrows|].
  intros d i j E.
  destruct (Hcoord d i j E) as (Hi & Hj & Hc).
  destruct (Hrec d i j E) as (R1 & R2 & _).
  split; [exact Hi|]. split; [exact Hj|]. split; [exact R1|].
  split; [exact R2|].
  intros k Hk. apply Hc; [exact Hk|].
  rewrite row_repeat, repeat_length by exact Hk.
  simpl. rewrite <- HP. apply nth_error_Some. congruence.
Qed.

Lemma fit_eq (X_train : list obj) (labels : option (list Z))
  (s0 sL : St) (P : list (Z * Z)) (wL : list (list R)) :
  tables_ok s0 -> (0 < Core._batch_size s0)%Z ->
  trains X_train (seq 0 (Core._n_dim s0)) (begin_state X_train labels s0) P sL ->
  Core.W sL = Some wL ->
  Core.fit dist np_nan nan_obj X_train labels s0 = Ok tt (end_state wL sL).
Proof.
  intros Hok Hbs Ht HW.
  destruct (begin_state_facts X_train labels s0)
    as (B1 & B2 & B3 & B4 & B5 & B6 & B7 & B8 & B9).
  destruct (trained_loop _ _ _ _ _ Hok Ht)
    as (wL' & HW' & Hlen & HP & L1 & L2 & L3 & _ & _ & _ & Hrec).
  assert (wL' = wL) by congruence. subst wL'.
  unfold Core.fit.
  rewrite (bind_run _ _ _ _ _ (fit_begin_run X_train labels s0)).
  rewrite (bind_run _ _ _ tt sL).
  - apply fit_end_run; [exact HW | now rewrite L1, L3|].
    intros ij Hin. apply In_nth_error in Hin. destruct Hin as (d & Hd).
    assert (Hlt : (d < length P)%nat).
    { rewrite HP, <- L1. apply nth_error_Some. congruence. }
    destruct (nth_error P d) as [[i j]|] eqn:E.
    2:{ apply nth_error_None in E. lia. }
    destruct (Hrec d i j E) as (Hi & Hj & R1 & _).
    assert (ij = (uint16 i, uint16 j)) by congruence. subst ij. simpl.
    rewrite Hlen. split; now apply uint16_in_range.
  - unfold Core.fit_loop.
    rewrite bind_get.
    rewrite B3.
    apply (trains_forM X_train _ _ _ P _ B1 B2);
      [apply repeat_length | now rewrite B4 | exact Ht].
Qed.

Lemma fit_Ok_inv (X_train : list obj) (labels : option (list Z)) (s0 s' : St) :
  tables_ok s0 -> (0 < Core._batch_size s0)%Z ->
  Core.fit dist np_nan nan_obj X_train labels s0 = Ok tt s' ->
  exists P sL wL,
    trains X_train (seq 0 (Core._n_dim s0)) (begin_state X_train labels s0) P sL
    /\ Core.W sL = Some wL /\ s' = end_state wL sL.
Proof.
  intros Hok Hbs H.
  destruct (begin_state_facts X_train labels s0)
    as (B1 & B2 & B3 & B4 & B5 & B6 & B7 & B8 & B9).
  pose proof H as H0. unfold Core.fit in H.
  rewrite (bind_run _ _ _ _ _ (fit_begin_run X_train labels s0)) in H.
  apply bind_Ok in H. destruct H as ([] & sL & Hl & _).
  unfold Core.fit_loop in Hl.
  rewrite bind_get in Hl. rewrite B3 in Hl.
  apply (forM_trains X_train _ _ _ _ B1 B2) in Hl;
    [|apply repeat_length | now rewrite B4].
  destruct Hl as (P & Ht).
  destruct (trained_loop _ _ _ _ _ Hok Ht) as (wL & HW & _).
  exists P, sL, wL. split; [exact Ht|]. split; [exact HW|].
  rewrite (fit_eq _ _ _ _ _ _ Hok Hbs Ht HW) in H0. congruence.
Qed.

Lemma transform_row_first (Xp : list (obj * obj))
  (Wp : list (list R * list R)) (D : nat) (x_new x_i x_j : obj) :
  (0 < D)%nat -> nth_error Xp 0 = Some (x_i, x_j) ->
  nth 0 (transform_row Xp Wp D x_new) 0
  = Core.transform_coordinate (dist x_new x_i) (dist x_new x_j)
      (dist x_i x_j).
Proof.
  intros HD EX. unfold CorePure.transform_row.
  destruct D as [|D']; [lia|].
  rewrite <- cons_seq. cbn [fold_left].
  rewrite transform_step_keeps by (rewrite in_seq; lia).
  unfold CorePure.transform_step.
  rewrite nth_set_nth_eq by (rewrite repeat_length; lia).
  unfold CorePure.transform_entry, residual. cbn [fold_left seq].
  now rewrite (nth_error_nth _ _ _ EX).
Qed.

Lemma for_break_unique (l pool forb : list Z) (cur : option Z) (v : Z) :
  Permutation l pool -> In v pool -> contains forb v = false ->
  (forall u, In u pool -> u <> v -> contains forb u = true) ->
  for_break l forb cur = Some v.
Proof.
  intros Hperm Hv Hfv Hothers.
  assert (Hin : In v l) by (eapply Permutation_in; [apply Permutation_sym|]; eauto).
  assert (Hl : forall u, In u l -> u <> v -> contains forb u = true).
  { intros u Hu. apply Hothers. eapply Permutation_in; eauto. }
  clear Hperm Hv Hothers. revert cur.
  induction l as [|a l IH]; intros cur; [contradiction|].
  simpl. destruct (Z.eq_dec a v) as [-> | Hne].
  - now rewrite Hfv.
  - rewrite (Hl a (or_introl eq_refl) Hne).
    apply IH.
    + destruct Hin as [Hin | Hin]; [congruence | exact Hin].
    + intros u Hu. apply Hl. now right.
Qed.

(** The ranking of a pool of two. *)
Lemma ranking_pair_le (x : list obj) (w : list (list R)) (k : nat)
  (a b q : Z) :
  residual k (row w a) (row w q) (dist (ob x a) (ob x q))
  <= residual k (row w b) (row w q) (dist (ob x b) (ob x q)) ->
  ranking x w k [a; b] q = [b; a].
Proof.
  intros H. unfold CorePure.ranking, CorePure.dmat, np_argsort.
  cbn [map length seq combine sort_keys insert_key fst snd].
  now rewrite (Rleb_true _ _ H).
Qed.

Lemma ranking_pair_gt (x : list obj) (w : list (list R)) (k : nat)
  (a b q : Z) :
  residual k (row w b) (row w q) (dist (ob x b) (ob x q))
  < residual k (row w a) (row w q) (dist (ob x a) (ob x q)) ->
  ranking x w k [a; b] q = [a; b].
Proof.
  intros H. unfold CorePure.ranking, CorePure.dmat, np_argsort.
  cbn [map length seq combine sort_keys insert_key fst snd].
  now rewrite (Rleb_false _ _ H).
Qed.

(** *** Round trip of the pivot objects (claim C2) *)

Lemma trains_X_piv (x : list obj) (dims : list nat) (s s' : St)
  (P : list (Z * Z)) :
  trains x dims s P s' ->
  Core._X_piv s = Some (xtable s) \/ dims <> [] ->
  Core._X_piv s' = Some (xtable s').
Proof.
  induction 1 as [s | d dims s s1 s' w0 i j P HW0 E Ht IH]; intros H.
  - destruct H as [H | H]; [exact H | congruence].
  - apply IH. left. reflexivity.
Qed.

Lemma snapshots_nth (w : list (list R)) (p : list (Z * Z)) (d : nat) (i j : Z) :
  nth_error p d = Some (i, j) ->
  nth_error (snapshots w p) d = Some (row w i, row w j).
Proof.
  intros H. unfold CorePure.snapshots. rewrite nth_error_map, H. reflexivity.
Qed.

Lemma end_state_facts (w : list (list R)) (s : St) :
  let s' := end_state w s in
  Core._X_piv s' = Core._X_piv s /\
  Core._n_dim s' = Core._n_dim s /\
  Core._batch_size s' = Core._batch_size s /\
  Core._supervised s' = Core._supervised s /\
  Core.np_random s' = Core.np_random s /\
  Core._ihyprpln s' = 0%nat /\
  Core._pivot_ids s' = None /\ Core._X s' = None /\ Core.W s' = None /\
  Core._y s' = None /\
  Core._W_piv s' = (match table s with
                    | [] => Core._W_piv s
                    | _ => Some (snapshots w (table s))
                    end).
Proof.
  unfold CorePure.end_state. destruct (table s); simpl; repeat split.
Qed.

(** C2 (as amended).  After [fit] on at most 65536 objects, for every
    dimension [d], [transform] applied to the two stored pivot objects
    [X_piv[d]] returns two rows, and these are the stored rows [W_piv[d]]
    exactly when they have no negative coordinate (exact arithmetic):
    [fit] clamps negative coordinates to zero and [transform] does not. *)
Theorem transform_pivot_round_trip (X_train : list obj)
  (labels : option (list Z)) (s0 s' : St) (d : nat) :
  tables_ok s0 -> (0 < Core._batch_size s0)%Z ->
  (Z.of_nat (length X_train) <= 65536)%Z ->
  Core.fit dist np_nan nan_obj X_train labels s0 = Ok tt s' ->
  (d < Core._n_dim s0)%nat ->
  exists Xp Wp x_i x_j w_i w_j rows s'',
    Core._X_piv s' = Some Xp /\ Core._W_piv s' = Some Wp /\
    nth_error Xp d = Some (x_i, x_j) /\ nth_error Wp d = Some (w_i, w_j) /\
    Core.transform dist np_nan nan_obj [x_i; x_j] s' = Ok rows s'' /\
    (rows = [w_i; w_j] <-> Forall (Forall (fun c => 0 <= c)) rows).
Proof.
  intros Hok Hbs Hn Hfit Hd.
  destruct (fit_Ok_inv _ _ _ _ Hok Hbs Hfit) as (P & sL & wL' & Ht & HW' & ->).
  destruct (trained_loop _ _ _ _ _ Hok Ht)
    as (wL & HW & Hlen & HP & L1 & L2 & L3 & G4 & G5 & Hrows & Hrec).
  assert (wL' = wL) by congruence. subst wL'.
  destruct (end_state_facts wL sL)
    as (E1 & E2 & E3 & _ & _ & _ & _ & _ & _ & _ & E4).
  assert (HXp : Core._X_piv sL = Some (xtable sL)).
  { apply (trains_X_piv _ _ _ _ _ Ht). right.
    destruct (Core._n_dim s0); [lia | discriminate]. }
  assert (HWp : Core._W_piv (end_state wL sL) = Some (snapshots wL (table sL))).
  { rewrite E4. destruct (table sL); [simpl in L1; lia | reflexivity]. }
  destruct (nth_error P d) as [[i j]|] eqn:EP.
  2:{ apply nth_error_None in EP. lia. }
  destruct (Hrec d i j EP) as (Hi & Hj & R1 & R2 & _).
  assert (Hu : forall q, in_range (length X_train) q -> uint16 q = q).
  { intros q [H0 H1]. apply uint16_small. lia. }
  set (Xp := xtable sL). set (Wp := snapshots wL (table sL)).
  assert (Hrun := transform_run (end_state wL sL) Xp Wp
                    [ob X_train i; ob X_train j]
                    ltac:(rewrite E1; exact HXp) HWp
                    ltac:(rewrite E3, G5; exact Hbs)
                    ltac:(rewrite E2, G4; unfold Xp; lia)
                    ltac:(rewrite E2, G4; unfold Wp, CorePure.snapshots;
                          rewrite length_map; lia)).
  rewrite E2, G4 in Hrun.
  exists Xp, Wp, (ob X_train i), (ob X_train j), (row wL i), (row wL j).
  eexists. eexists.
  split; [rewrite E1; exact HXp|]. split; [exact HWp|].
  split; [exact R2|]. split.
  { unfold Wp. rewrite (snapshots_nth wL _ d _ _ R1).
    now rewrite (Hu i Hi), (Hu j Hj). }
  split; [exact Hrun|].
  assert (Hiff : forall k, in_range (length X_train) k ->
            (Forall (fun c => 0 <= c) (transform_row Xp Wp (Core._n_dim s0)
                                         (ob X_train k))
             <-> transform_row Xp Wp (Core._n_dim s0) (ob X_train k)
                 = row wL k)).
  { intros k Hk.
    apply (transform_row_trained X_train wL P Xp Wp (Core._n_dim s0));
      try assumption.
    - intros d' i' j' E' k' Hk'. now apply (Hrec d' i' j' E').
    - intros d' i' j' E'. destruct (Hrec d' i' j' E') as (_ & _ & _ & R2' & _).
      now apply nth_error_nth.
    - intros d' i' j' E'.
      destruct (Hrec d' i' j' E') as (Hi' & Hj' & R1' & _).
      apply nth_error_nth. unfold Wp.
      rewrite (snapshots_nth wL _ d' _ _ R1').
      now rewrite (Hu i' Hi'), (Hu j' Hj'). }
  simpl map. split.
  - intros E. injection E as Ei Ej.
    constructor; [now apply (Hiff i Hi)|].
    constructor; [now apply (Hiff j Hj) | constructor].
  - intros Hpos. inversion Hpos as [|r1 l1 H1 Hpos']; subst.
    inversion Hpos' as [|r2 l2 H2 _]; subst.
    f_equal; [now apply (Hiff i Hi)|].
    f_equal. now apply (Hiff j Hj).
Qed.

(** *** The recorded pivot indices (claims C10 and C4) *)



Lemma argwhere_from_In (y : list Z) (label : Z) :
  forall (b i : Z),
    In i (argwhere_from b y label) <->
    (b <= i < b + Z.of_nat (length y))%Z /\
    nth_error y (Z.to_nat (i - b)) = Some label.
Proof.
  induction y as [|v y IH]; intros b i; simpl.
  - split; [contradiction | lia].
  - assert (Hrec : In i (argwhere_from (b + 1) y label) <->
                   (b + 1 <= i < b + Z.pos (Pos.of_succ_nat (length y)))%Z /\
                   nth_error (v :: y) (Z.to_nat (i - b)) = Some label).
    { rewrite IH. split; intros [H1 H2]; (split; [lia|]).
      - replace (Z.to_nat (i - b)) with (S (Z.to_nat (i - (b + 1)))) by lia.
        exact H2.
      - replace (Z.to_nat (i - b)) with (S (Z.to_nat (i - (b + 1)))) in H2
          by lia.
        exact H2. }
    destruct (Z.eqb_spec v label) as [-> | Hne]; simpl; rewrite Hrec.
    + split.
      * intros [<- | [H1 H2]].
        -- split; [lia|]. now rewrite Z.sub_diag.
        -- split; [lia | exact H2].
      * intros [H1 H2]. destruct (Z.eq_dec b i) as [-> | Hbi]; [now left|].
        right. split; [lia | exact H2].
    + split.
      * intros [H1 H2]. split; [lia | exact H2].
      * intros [H1 H2]. split; [|exact H2].
        destruct (Z.eq_dec b i) as [-> | Hbi]; [|lia].
        rewrite Z.sub_diag in H2. simpl in H2. congruence.
Qed.







(** *** Clamping in [fit] and not in [transform] (claim C5) *)


Lemma trained_rows_nonneg (X_train : list obj) (labels : option (list Z))
  (s0 sL : St) (P : list (Z * Z)) (wL : list (list R)) :
  tables_ok s0 ->
  trains X_train (seq 0 (Core._n_dim s0)) (begin_state X_train labels s0) P sL ->
  Core.W sL = Some wL ->
  forall k, in_range (length X_train) k -> Forall (fun c => 0 <= c) (row wL k).
Proof.
  intros Hok Ht HW' k Hk.
  destruct (trained_loop _ _ _ _ _ Hok Ht)
    as (wL' & HW & Hlen & HP & L1 & L2 & L3 & _ & _ & Hrows & Hrec).
  assert (wL' = wL) by congruence. subst wL'.
  apply (trained_row_nonneg X_train wL P (Core._n_dim s0)); try assumption.
  intros d i j E k' Hk'. now apply (Hrec d i j E).
Qed.

Lemma transform_coordinate_neg (d_ik d_jk d_ij : R) :
  0 <= d_ij ->
  np_square d_ik + np_square d_ij < np_square d_jk ->
  Core.transform_coordinate d_ik d_jk d_ij < 0.
Proof.
  intros Hd Hlt. unfold Core.transform_coordinate.
  pose proof EPSILON_pos as He.
  apply Rmult_lt_reg_r with (r := d_ij * 2 + EPSILON); [lra|].
  unfold Rdiv. rewrite Rmult_assoc, Rinv_l by lra. lra.
Qed.


(** *** What [fit] and [transform] leave in the instance (claim C8) *)

(** C8 (as amended).  After [fit] the instance keeps [X_piv], [W_piv] and
    the dimension; the embedding matrix [W], the objects [X], the labels
    and also the pivot index table are deleted, and the cursor is 0.
    [transform] changes nothing but the cursor, which it leaves on the
    last dimension [D - 1] (it is not reset) whenever it is given at least
    one object. *)
Theorem fit_retains_snapshots_only (X_train : list obj)
  (labels : option (list Z)) (s0 s' : St) :
  tables_ok s0 -> (0 < Core._batch_size s0)%Z ->
  (0 < Core._n_dim s0)%nat ->
  Core.fit dist np_nan nan_obj X_train labels s0 = Ok tt s' ->
  Core._pivot_ids s' = None /\ Core._X s' = None /\ Core.W s' = None /\
  Core._y s' = None /\ Core._ihyprpln s' = 0%nat /\
  Core._n_dim s' = Core._n_dim s0 /\
  (exists Xp Wp,
     Core._X_piv s' = Some Xp /\ Core._W_piv s' = Some Wp /\
     length Xp = Core._n_dim s0 /\ length Wp = Core._n_dim s0) /\
  forall X_new, exists rows,
    Core.transform dist np_nan nan_obj X_new s'
    = Ok rows (match X_new with
               | [] => s'
               | _ => Core.set_ihyprpln (Core._n_dim s0 - 1) s'
               end).
Proof.
  intros Hok Hbs HD Hfit.
  destruct (fit_Ok_inv _ _ _ _ Hok Hbs Hfit) as (P & sL & wL' & Ht & HW' & ->).
  destruct (trained_loop _ _ _ _ _ Hok Ht)
    as (wL & HW & Hlen & HP & L1 & L2 & L3 & G4 & G5 & Hrows & Hrec).
  assert (wL' = wL) by congruence. subst wL'.
  destruct (end_state_facts wL sL)
    as (E1 & E2 & E3 & E5 & E6 & E7 & E8 & E9 & E10 & E11 & E4).
  assert (HXp : Core._X_piv sL = Some (xtable sL)).
  { apply (trains_X_piv _ _ _ _ _ Ht). right.
    destruct (Core._n_dim s0); [lia | discriminate]. }
  assert (HWp : Core._W_piv (end_state wL sL) = Some (snapshots wL (table sL))).
  { rewrite E4. destruct (table sL); [simpl in L1; lia | reflexivity]. }
  repeat (split; [assumption|]).
  split; [now rewrite E2|]. split.
  { exists (xtable sL), (snapshots wL (table sL)).
    split; [rewrite E1; exact HXp|]. split; [exact HWp|].
    split; [exact L2|]. unfold CorePure.snapshots. now rewrite length_map. }
  intros X_new.
  assert (Hrun := transform_run (end_state wL sL) (xtable sL)
                    (snapshots wL (table sL)) X_new
                    ltac:(rewrite E1; exact HXp) HWp
                    ltac:(rewrite E3, G5; exact Hbs)
                    ltac:(rewrite E2, G4; lia)
                    ltac:(rewrite E2, G4; unfold CorePure.snapshots;
                          rewrite length_map; lia)).
  rewrite E2, G4 in Hrun. eexists. rewrite Hrun. f_equal.
  destruct X_new; [reflexivity|].
  destruct (Core._n_dim s0) as [|D']; [lia|].
  now rewrite Nat.sub_succ, Nat.sub_0_r.
Qed.

(** *** Labels of one class (claim C7) *)

Lemma forM_cons_Raise {A} (body : A -> M St unit) (a : A) (l : list A)
  (s s1 : St) (e : exn) :
  body a s = Raise e s1 -> forM (a :: l) body s = Raise e s1.
Proof. intros H. simpl. now apply bind_Raise. Qed.


End CoreFacts.

(** ** The example run: four labelled points on a line *)

Lemma line_tables_ok : CorePure.tables_ok 0%Z 0 Line.s0.
Proof. repeat split. Qed.

(** The run of the training loop on the example: dimension 0 selects the
    objects 2 and 3, dimension 1 the remaining objects 1 and 0. *)
Lemma line_trains :
  exists sL,
    CorePure.trains Line.dist 0%Z Line.X (seq 0 2)
      (CorePure.begin_state 0 Line.X (Some Line.y) Line.s0) Line.pivots sL.
Proof.
  set (sb := CorePure.begin_state 0 Line.X (Some Line.y) Line.s0).
  set (w := repeat (repeat 0 2) 4).
  assert (Hpool0 : np_argwhere_eq Line.y 0%Z = [1; 2]%Z) by reflexivity.
  assert (Hpool1 : np_argwhere_eq Line.y 1%Z = [0; 3]%Z) by reflexivity.
  assert (Hr : forall l, (forall u, In u l -> (0 <= u < 4)%Z) ->
                         Forall (in_range 4) l).
  { intros l H. apply Forall_forall. intros u Hu. unfold in_range. simpl.
    apply H in Hu. lia. }
  (* dimension 0 *)
  assert (E0 : Core._choose_pivots Line.dist (Core.set_ihyprpln 0 sb)
               = Ok (2%Z, 3%Z)
                    (Core.set_np_random [0%nat]
                       (Core.set_pivot_ids
                          (Some (CorePure.table (Core.set_ihyprpln 0 sb)))
                          (Core.set_ihyprpln 0 sb)))).
  { apply (choose_pivots_run Line.dist 0%Z _ Line.X w 0 [0%nat]
             [1; 2]%Z [0; 3]%Z); try reflexivity.
    - exists Line.y. split; reflexivity.
    - exists Line.y. split; reflexivity.
    - apply Hr. simpl. intros u Hu. lia.
    - apply Hr. simpl. intros u Hu. lia.
    - apply Hr. simpl. intros u Hu. lia.
    - apply Hr. simpl. intros u Hu. lia.
    - split; [simpl; auto|]. split; [reflexivity|]. split.
      + rewrite ranking_pair_le; [reflexivity|].
        unfold residual, CorePure.ob, Line.X, Line.dist. simpl. lra.
      + rewrite ranking_pair_le; [reflexivity|].
        unfold residual, CorePure.ob, Line.X, Line.dist. simpl. lra. }
  set (s1 := Core.set_np_random [0%nat] _) in E0.
  set (sa := CorePure.after_dimension Line.dist 0%Z s1 Line.X w 0 2 3).
  set (w1 := set_column 0 (CorePure.fit_column Line.dist 0%Z Line.X w 0 2 3) w).
  assert (Hw1 : length w1 = 4%nat).
  { unfold w1. rewrite set_column_length; [reflexivity|].
    now rewrite fit_column_length. }
  (* dimension 1 *)
  assert (E1 : Core._choose_pivots Line.dist (Core.set_ihyprpln 1 sa)
               = Ok (1%Z, 0%Z)
                    (Core.set_np_random []
                       (Core.set_pivot_ids
                          (Some (CorePure.table (Core.set_ihyprpln 1 sa)))
                          (Core.set_ihyprpln 1 sa)))).
  { apply (choose_pivots_run Line.dist 0%Z _ Line.X w1 0 []
             [1; 2]%Z [0; 3]%Z); try reflexivity.
    - exists Line.y. split; reflexivity.
    - exists Line.y. split; reflexivity.
    - apply Hr. simpl. intros u Hu. lia.
    - rewrite Hw1. apply Hr. simpl. intros u Hu. lia.
    - apply Hr. simpl. intros u Hu. lia.
    - rewrite Hw1. apply Hr. simpl. intros u Hu. lia.
    - assert (Hforb : CorePure.forbidden_at
                        (Core._ihyprpln (Core.set_ihyprpln 1 sa))
                        (CorePure.table (Core.set_ihyprpln 1 sa))
                      = [2; 3]%Z) by reflexivity.
      rewrite Hforb.
      split; [simpl; auto|]. split; [reflexivity|]. split.
      + apply (for_break_unique _ [1; 2]%Z);
          [apply ranking_perm | simpl; auto | reflexivity|].
        intros u [<- | [<- | []]] Hu; [congruence | reflexivity].
      + apply (for_break_unique _ [0; 3]%Z);
          [apply ranking_perm | simpl; auto | reflexivity|].
        intros u [<- | [<- | []]] Hu; [congruence | reflexivity]. }
  eexists.
  eapply CorePure.trains_cons; [reflexivity | exact E0|].
  eapply CorePure.trains_cons; [reflexivity | exact E1|].
  apply CorePure.trains_nil.
Qed.

Lemma line_fit :
  exists s',
    Core.fit Line.dist 0 0%Z Line.X (Some Line.y) Line.s0 = Ok tt s'.
Proof.
  destruct line_trains as (sL & Ht).
  destruct (trained_loop Line.dist 0 0%Z _ _ _ _ _ line_tables_ok Ht)
    as (wL & HW & _).
  exists (CorePure.end_state wL sL).
  apply (fit_eq Line.dist 0 0%Z _ _ _ _ _ _ line_tables_ok
           ltac:(reflexivity) Ht HW).
Qed.

Lemma line_trained :
  exists sL wL,
    CorePure.trains Line.dist 0%Z Line.X (seq 0 2)
      (CorePure.begin_state 0 Line.X (Some Line.y) Line.s0) Line.pivots sL /\
    Core.W sL = Some wL /\
    Core.fit Line.dist 0 0%Z Line.X (Some Line.y) Line.s0
    = Ok tt (CorePure.end_state wL sL).
Proof.
  destruct line_trains as (sL & Ht).
  destruct (trained_loop Line.dist 0 0%Z _ _ _ _ _ line_tables_ok Ht)
    as (wL & HW & _).
  exists sL, wL. split; [exact Ht|]. split; [exact HW|].
  apply (fit_eq Line.dist 0 0%Z _ _ _ _ _ _ line_tables_ok
           ltac:(reflexivity) Ht HW).
Qed.

Lemma transform_pivot_round_trip_witness :
  exists s',
    CorePure.tables_ok 0%Z 0 Line.s0 /\
    (0 < Core._batch_size Line.s0)%Z /\
    (Z.of_nat (length Line.X) <= 65536)%Z /\
    Core.fit Line.dist 0 0%Z Line.X (Some Line.y) Line.s0 = Ok tt s' /\
    (1 < Core._n_dim Line.s0)%nat /\
    exists Xp Wp x_i x_j w_i w_j rows s'',
      Core._X_piv s' = Some Xp /\ Core._W_piv s' = Some Wp /\
      nth_error Xp 1 = Some (x_i, x_j) /\ nth_error Wp 1 = Some (w_i, w_j) /\
      Core.transform Line.dist 0 0%Z [x_i; x_j] s' = Ok rows s'' /\
      (rows = [w_i; w_j] <-> Forall (Forall (fun c => 0 <= c)) rows).
Proof.
  destruct line_fit as (s' & Hfit). exists s'.
  split; [exact line_tables_ok|]. split; [reflexivity|].
  split; [simpl; lia|]. split; [exact Hfit|]. split; [simpl; lia|].
  apply (transform_pivot_round_trip Line.dist 0 0%Z Line.X (Some Line.y)
           Line.s0 s' 1);
    [exact line_tables_ok | reflexivity | simpl; lia | exact Hfit
    | simpl; lia].
Defined.

(** On the example, object 1 (the point 0) lies outside the first pivot
    pair (the points 2 and 6): [fit] clamps its first coordinate to zero,
    [transform] returns -16 / (8 + EPSILON).  Object 1 is a pivot of
    dimension 1, so [transform] does not reproduce [W_piv[1]]. *)
Lemma transform_pivot_round_trip_counterexample :
  exists s' Xp Wp x_i x_j w_i w_j rows s'',
    Core.fit Line.dist 0 0%Z Line.X (Some Line.y) Line.s0 = Ok tt s' /\
    Core._X_piv s' = Some Xp /\ Core._W_piv s' = Some Wp /\
    nth_error Xp 1 = Some (x_i, x_j) /\ nth_error Wp 1 = Some (w_i, w_j) /\
    Core.transform Line.dist 0 0%Z [x_i; x_j] s' = Ok rows s'' /\
    rows <> [w_i; w_j].
Proof.
  destruct line_trained as (sL & wL & Ht & HW & Hfit).
  destruct (trained_loop Line.dist 0 0%Z _ _ _ _ _ line_tables_ok Ht)
    as (wL' & HW' & Hlen & HP & L1 & L2 & L3 & G4 & G5 & Hrows & Hrec).
  assert (wL' = wL) by congruence. subst wL'.
  destruct (end_state_facts wL sL)
    as (E1 & E2 & E3 & _ & _ & _ & _ & _ & _ & _ & E4).
  assert (HXp : Core._X_piv sL = Some (CorePure.xtable 0%Z sL)).
  { apply (trains_X_piv Line.dist 0%Z _ _ _ _ _ Ht). right. discriminate. }
  assert (HWp : Core._W_piv (CorePure.end_state wL sL)
                = Some (CorePure.snapshots wL (CorePure.table sL))).
  { rewrite E4. destruct (CorePure.table sL); [simpl in L1; lia | reflexivity]. }
  destruct (Hrec 0%nat 2%Z 3%Z eq_refl) as (_ & _ & _ & X0 & _).
  destruct (Hrec 1%nat 1%Z 0%Z eq_refl) as (_ & _ & T1 & X1 & _).
  set (Xp := CorePure.xtable 0%Z sL) in *.
  set (Wp := CorePure.snapshots wL (CorePure.table sL)) in *.
  assert (Hrun := transform_run Line.dist 0 0%Z (CorePure.end_state wL sL)
                    Xp Wp [0%Z; (-1)%Z]
                    ltac:(rewrite E1; exact HXp) HWp
                    ltac:(rewrite E3, G5; reflexivity)
                    ltac:(rewrite E2, G4, L2; apply Nat.le_refl)
                    ltac:(rewrite E2, G4; unfold Wp, CorePure.snapshots;
                          rewrite length_map, L1; apply Nat.le_refl)).
  rewrite E2, G4 in Hrun.
  exists (CorePure.end_state wL sL), Xp, Wp, 0%Z, (-1)%Z,
         (CorePure.row wL 1), (CorePure.row wL 0).
  eexists. eexists.
  split; [exact Hfit|]. split; [rewrite E1; exact HXp|]. split; [exact HWp|].
  split; [exact X1|]. split.
  { unfold Wp. now rewrite (snapshots_nth wL _ 1 _ _ T1). }
  split; [exact Hrun|].
  simpl map. intros E. injection E as E _.
  assert (Hneg : nth 0 (CorePure.transform_row Line.dist 0%Z Xp Wp 2 0%Z) 0 < 0).
  { rewrite (transform_row_first Line.dist 0%Z Xp Wp 2 0%Z 2%Z 6%Z
               ltac:(lia) X0).
    apply transform_coordinate_neg; unfold Line.dist, np_square; simpl; lra. }
  assert (Hpos : Forall (fun c => 0 <= c) (CorePure.row wL 1)).
  { apply (trained_rows_nonneg Line.dist 0 0%Z _ _ _ _ _ _
             line_tables_ok Ht HW).
    unfold in_range. simpl. lia. }
  change (Core._n_dim Line.s0) with 2%nat in E. rewrite E in Hneg.
  rewrite Forall_forall in Hpos.
  assert (0 <= nth 0 (CorePure.row wL 1) 0).
  { apply Hpos. apply nth_In. rewrite Hrows; [simpl; lia|].
    unfold in_range. simpl. lia. }
  lra.
Qed.





Lemma fit_retains_snapshots_only_witness :
  exists s',
    CorePure.tables_ok 0%Z 0 Line.s0 /\
    (0 < Core._batch_size Line.s0)%Z /\
    (0 < Core._n_dim Line.s0)%nat /\
    Core.fit Line.dist 0 0%Z Line.X (Some Line.y) Line.s0 = Ok tt s' /\
    Core._pivot_ids s' = None /\ Core._X s' = None /\ Core.W s' = None /\
    Core._y s' = None /\ Core._ihyprpln s' = 0%nat /\
    Core._n_dim s' = Core._n_dim Line.s0 /\
    (exists Xp Wp,
       Core._X_piv s' = Some Xp /\ Core._W_piv s' = Some Wp /\
       length Xp = Core._n_dim Line.s0 /\ length Wp = Core._n_dim Line.s0) /\
    forall X_new, exists rows,
      Core.transform Line.dist 0 0%Z X_new s'
      = Ok rows (match X_new with
                 | [] => s'
                 | _ => Core.set_ihyprpln (Core._n_dim Line.s0 - 1) s'
                 end).
Proof.
  destruct line_fit as (s' & Hfit). exists s'.
  split; [exact line_tables_ok|]. split; [reflexivity|].
  split; [simpl; lia|]. split; [exact Hfit|].
  apply (fit_retains_snapshots_only Line.dist 0 0%Z Line.X (Some Line.y)
           Line.s0 s' line_tables_ok ltac:(reflexivity)
           ltac:(simpl; lia) Hfit).
Defined.

(** On the example, the instance after [fit] has no pivot index table,
    and [transform] of one object leaves the cursor on dimension 1. *)
Lemma fit_retains_snapshots_only_counterexample :
  exists s' rows s'',
    Core.fit Line.dist 0 0%Z Line.X (Some Line.y) Line.s0 = Ok tt s' /\
    Core._pivot_ids s' = None /\
    Core.transform Line.dist 0 0%Z [0%Z] s' = Ok rows s'' /\
    Core._ihyprpln s'' = 1%nat.
Proof.
  destruct line_trained as (sL & wL & Ht & HW & Hfit).
  destruct (trained_loop Line.dist 0 0%Z _ _ _ _ _ line_tables_ok Ht)
    as (wL' & HW' & Hlen & HP & L1 & L2 & L3 & G4 & G5 & Hrows & Hrec).
  destruct (end_state_facts wL sL)
    as (E1 & E2 & E3 & _ & _ & _ & E8 & _ & _ & _ & E4).
  assert (HXp : Core._X_piv sL = Some (CorePure.xtable 0%Z sL)).
  { apply (trains_X_piv Line.dist 0%Z _ _ _ _ _ Ht). right. discriminate. }
  assert (HWp : Core._W_piv (CorePure.end_state wL sL)
                = Some (CorePure.snapshots wL (CorePure.table sL))).
  { rewrite E4. destruct (CorePure.table sL); [simpl in L1; lia | reflexivity]. }
  assert (Hrun := transform_run Line.dist 0 0%Z (CorePure.end_state wL sL)
                    _ _ [0%Z]
                    ltac:(rewrite E1; exact HXp) HWp
                    ltac:(rewrite E3, G5; reflexivity)
                    ltac:(rewrite E2, G4, L2; apply Nat.le_refl)
                    ltac:(rewrite E2, G4; unfold CorePure.snapshots;
                          rewrite length_map, L1; apply Nat.le_refl)).
  rewrite E2, G4 in Hrun. change (Core._n_dim Line.s0) with 2%nat in Hrun.
  exists (CorePure.end_state wL sL). eexists. eexists.
  split; [exact Hfit|]. split; [exact E8|]. split; [exact Hrun|].
  reflexivity.
Qed.



(** ** The order of a ranking (claim C9) *)

Lemma key_before_trans (a b c : R * nat) :
  key_before a b -> key_before b c -> key_before a c.
Proof.
  unfold key_before. intros [H1 | [H1 H1']] [H2 | [H2 H2']].
  - left. lra.
  - left. lra.
  - left. lra.
  - right. split; [lra | lia].
Qed.

Lemma insert_key_sorted (x : R * nat) (l : list (R * nat)) :
  StronglySorted key_before l ->
  Forall (fun h => (snd x < snd h)%nat) l ->
  StronglySorted key_before (insert_key x l).
Proof.
  induction 1 as [|h t Ht IH Hh]; intros Hpos; simpl.
  - constructor; constructor.
  - inversion Hpos as [|h' t' Hxh Hxt]; subst.
    unfold Rleb. destruct (Rle_dec (fst x) (fst h)) as [Hle | Hgt].
    + assert (Hx : key_before x h).
      { unfold key_before. destruct Hle as [Hlt | Heq]; [now left|].
        right. split; assumption. }
      constructor; [constructor; assumption|].
      constructor; [exact Hx|].
      rewrite Forall_forall in *. intros c Hc.
      eapply key_before_trans; [exact Hx | now apply Hh].
    + constructor; [now apply IH|].
      assert (Hx : key_before h x) by (left; lra).
      assert (Hin : forall c, In c (insert_key x t) -> c = x \/ In c t).
      { intros c Hc.
        apply (Permutation_in _ (insert_key_perm x t)) in Hc.
        destruct Hc as [<- | Hc]; auto. }
      rewrite Forall_forall in *. intros c Hc.
      destruct (Hin c Hc) as [-> | Hc']; [exact Hx | now apply Hh].
Qed.

Lemma sort_keys_sorted (l : list (R * nat)) :
  StronglySorted (fun a b => (snd a < snd b)%nat) l ->
  StronglySorted key_before (sort_keys l).
Proof.
  induction 1 as [|x t Ht IH Hx]; simpl.
  - constructor.
  - apply insert_key_sorted; [exact IH|].
    rewrite Forall_forall in *. intros h Hh. apply Hx.
    eapply Permutation_in; [apply sort_keys_perm | exact Hh].
Qed.

Lemma combine_seq_sorted (d : list R) (start : nat) :
  StronglySorted (fun a b : R * nat => (snd a < snd b)%nat)
    (combine d (seq start (length d))).
Proof.
  revert start. induction d as [|v d IH]; intros start; simpl.
  - constructor.
  - constructor; [apply IH|].
    apply Forall_forall. intros [c p] Hc. simpl.
    apply in_combine_r in Hc. apply in_seq in Hc. lia.
Qed.

Lemma sort_keys_In (d : list R) (c : R * nat) :
  In c (sort_keys (combine d (seq 0 (length d)))) ->
  (snd c < length d)%nat /\ fst c = nth (snd c) d 0.
Proof.
  intros H. apply (Permutation_in _ (sort_keys_perm _)) in H.
  destruct c as [v p]. simpl.
  assert (Hgen : forall start,
            In (v, p) (combine d (seq start (length d))) ->
            (start <= p < start + length d)%nat /\ v = nth (p - start) d 0).
  { clear H. induction d as [|v0 d IH]; intros start Hin; simpl in Hin.
    - contradiction.
    - destruct Hin as [E | Hin].
      + inversion E; subst. simpl. split; [lia|]. now rewrite Nat.sub_diag.
      + apply IH in Hin. destruct Hin as (Hr & ->). simpl length.
        split; [lia|].
        replace (p - start)%nat with (S (p - S start)) by lia. reflexivity. }
  destruct (Hgen 0%nat H) as (Hr & ->). rewrite Nat.sub_0_r. split; [lia | reflexivity].
Qed.

(** [np.argsort] lists the positions by ascending key, equal keys by
    ascending position. *)
Lemma np_argsort_sorted (d : list R) :
  StronglySorted
    (fun p q => nth p d 0 < nth q d 0 \/ (nth p d 0 = nth q d 0 /\ (p < q)%nat))
    (np_argsort d).
Proof.
  unfold np_argsort.
  pose proof (sort_keys_sorted _ (combine_seq_sorted d 0)) as Hs.
  pose proof (sort_keys_In d) as Hin.
  induction Hs as [|c t Ht IH Hc]; simpl.
  - constructor.
  - constructor.
    + apply IH. intros c' Hc'. apply Hin. now right.
    + rewrite Forall_forall in *. intros q Hq.
      apply in_map_iff in Hq. destruct Hq as (c' & <- & Hc').
      destruct (Hin c (or_introl eq_refl)) as (_ & E1).
      destruct (Hin c' (or_intror Hc')) as (_ & E2).
      rewrite <- E1, <- E2. now apply Hc.
Qed.

(** Two entries of a list sorted by [R]: the earlier one is related to the
    later one. *)
Lemma StronglySorted_nth {A} (Rel : A -> A -> Prop) (l : list A) :
  StronglySorted Rel l ->
  forall p q a b, (p < q)%nat ->
    nth_error l p = Some a -> nth_error l q = Some b -> Rel a b.
Proof.
  induction 1 as [|h t Ht IH Hh]; intros p q a b Hpq Ea Eb.
  - destruct p; discriminate.
  - destruct q as [|q]; [lia|]. simpl in Eb.
    destruct p as [|p]; simpl in Ea.
    + inversion Ea; subst. rewrite Forall_forall in Hh. apply Hh.
      eapply nth_error_In; eauto.
    + apply (IH p q); [lia | assumption | assumption].
Qed.

Lemma nth_error_rev {A} (l : list A) (p : nat) :
  (p < length l)%nat ->
  nth_error (rev l) p = nth_error l (length l - S p).
Proof.
  intros Hp.
  destruct l as [|a0 l0] eqn:El; [simpl in Hp; lia|]. rewrite <- El in *.
  rewrite (nth_error_nth' _ a0) by (now rewrite length_rev).
  rewrite (nth_error_nth' l a0) by lia.
  now rewrite rev_nth.
Qed.

(** The descending ranking [idxs[argsort(dist)][::-1]]: a later entry has a
    smaller key, or the same key and a smaller position in the pool. *)
Lemma ranking_positions_order (d : list R) (p q a b : nat) :
  (p < q)%nat ->
  nth_error (rev (np_argsort d)) p = Some a ->
  nth_error (rev (np_argsort d)) q = Some b ->
  nth b d 0 < nth a d 0 \/ (nth b d 0 = nth a d 0 /\ (b < a)%nat).
Proof.
  intros Hpq Ea Eb.
  assert (Hq : (q < length (np_argsort d))%nat).
  { rewrite <- length_rev. apply nth_error_Some. congruence. }
  rewrite nth_error_rev in Ea, Eb by lia.
  apply (StronglySorted_nth _ _ (np_argsort_sorted d)
           (length (np_argsort d) - S q) (length (np_argsort d) - S p));
    [lia | exact Eb | exact Ea].
Qed.

Lemma argwhere_from_sorted (y : list Z) (label : Z) :
  forall b, StronglySorted Z.lt (argwhere_from b y label).
Proof.
  induction y as [|v y IH]; intros b; simpl.
  - constructor.
  - destruct (v =? label)%Z; [|apply IH].
    constructor; [apply IH|].
    apply Forall_forall. intros i Hi. apply argwhere_from_In in Hi. lia.
Qed.

Lemma np_arange_sorted (n : nat) : StronglySorted Z.lt (np_arange n).
Proof.
  unfold np_arange. generalize 0%nat as start.
  induction n as [|n IH]; intros start; simpl.
  - constructor.
  - constructor; [apply IH|].
    apply Forall_forall. intros i Hi. apply in_map_iff in Hi.
    destruct Hi as (k & <- & Hk). apply in_seq in Hk. lia.
Qed.

Lemma sorted_nth_lt (pool : list Z) :
  StronglySorted Z.lt pool ->
  forall p q, (p < q)%nat -> (q < length pool)%nat ->
    (nth p pool 0 < nth q pool 0)%Z.
Proof.
  intros Hs p q Hpq Hq.
  apply (StronglySorted_nth _ _ Hs p q); [exact Hpq | |];
    apply nth_error_nth'; lia.
Qed.

(** In the ranking of a pool listed in increasing index order, a later
    entry has a smaller key, or the same key and a smaller index. *)
Lemma ranking_index_order (f : Z -> R) (pool : list Z) (p q : nat) (a b : Z) :
  StronglySorted Z.lt pool ->
  (p < q)%nat ->
  nth_error (rev (take_positions pool (np_argsort (map f pool)))) p = Some a ->
  nth_error (rev (take_positions pool (np_argsort (map f pool)))) q = Some b ->
  f b < f a \/ (f b = f a /\ (b < a)%Z).
Proof.
  intros Hs Hpq Ea Eb.
  unfold take_positions in Ea, Eb. rewrite <- map_rev in Ea, Eb.
  rewrite nth_error_map in Ea, Eb.
  destruct (nth_error (rev (np_argsort (map f pool))) p) as [pa|] eqn:Epa;
    [|discriminate].
  destruct (nth_error (rev (np_argsort (map f pool))) q) as [pb|] eqn:Epb;
    [|discriminate].
  simpl in Ea, Eb. inversion Ea; subst a. inversion Eb; subst b. clear Ea Eb.
  assert (Hrange : forall c pc,
            nth_error (rev (np_argsort (map f pool))) c = Some pc ->
            (pc < length pool)%nat).
  { intros c pc E. apply nth_error_In in E. apply in_rev in E.
    apply (Permutation_in _ (np_argsort_perm _)) in E.
    apply in_seq in E. rewrite length_map in E. lia. }
  pose proof (Hrange _ _ Epa) as Ha. pose proof (Hrange _ _ Epb) as Hb.
  assert (Hkey : forall pc, (pc < length pool)%nat ->
                            nth pc (map f pool) 0 = f (nth pc pool 0%Z)).
  { intros pc Hpc. rewrite (nth_indep _ 0 (f 0%Z)) by (now rewrite length_map).
    apply map_nth. }
  destruct (ranking_positions_order _ _ _ _ _ Hpq Epa Epb) as [Hlt | [Heq Hlt]].
  - left. now rewrite <- !Hkey.
  - right. rewrite <- !Hkey by assumption. split; [exact Heq|].
    now apply sorted_nth_lt.
Qed.

(** The loop [for v in seq: if v not in forbidden: break] stops on the
    first entry that is not forbidden. *)
Lemma for_break_first (l forb : list Z) (cur : option Z) (v : Z) :
  for_break l forb cur = Some v ->
  (exists a, In a l /\ contains forb a = false) ->
  exists p, nth_error l p = Some v /\ contains forb v = false /\
            forall p' u, (p' < p)%nat -> nth_error l p' = Some u ->
                         contains forb u = true.
Proof.
  revert cur. induction l as [|a l IH]; intros cur H (b & Hb & Hfb); simpl in *.
  - contradiction.
  - destruct (contains forb a) eqn:Ea.
    + destruct (IH _ H) as (p & Hp & Hv & Hbefore).
      { exists b. split; [|exact Hfb].
        destruct Hb as [-> | Hb]; [congruence | exact Hb]. }
      exists (S p). split; [exact Hp|]. split; [exact Hv|].
      intros p' u Hlt Eu. destruct p' as [|p']; simpl in Eu.
      * congruence.
      * apply (Hbefore p' u); [lia | exact Eu].
    + inversion H; subst. exists 0%nat. split; [reflexivity|].
      split; [exact Ea|]. intros p' u Hlt. lia.
Qed.

(** Hence the entry selected from a ranking is the allowed entry with the
    largest key, the largest index winning among equal keys. *)
Lemma for_break_ranking_max (f : Z -> R) (pool forb : list Z)
  (cur : option Z) (v : Z) :
  StronglySorted Z.lt pool ->
  for_break (rev (take_positions pool (np_argsort (map f pool)))) forb cur
  = Some v ->
  (exists a, In a pool /\ contains forb a = false) ->
  In v pool /\ contains forb v = false /\
  forall u, In u pool -> contains forb u = false ->
            u = v \/ f u < f v \/ (f u = f v /\ (u < v)%Z).
Proof.
  intros Hs Hv (a & Ha & Hfa).
  set (far := rev (take_positions pool (np_argsort (map f pool)))) in *.
  assert (Hperm : Permutation far pool).
  { unfold far. eapply Permutation_trans; [apply Permutation_sym, Permutation_rev|].
    apply take_positions_perm. rewrite <- (length_map f pool).
    apply np_argsort_perm. }
  destruct (for_break_first _ _ _ _ Hv) as (p & Ep & Hfv & Hbefore).
  { exists a. split; [|exact Hfa].
    eapply Permutation_in; [apply Permutation_sym; exact Hperm | exact Ha]. }
  split; [eapply Permutation_in; [exact Hperm|]; eapply nth_error_In; eauto|].
  split; [exact Hfv|].
  intros u Hu Hfu.
  apply (Permutation_in _ (Permutation_sym Hperm)) in Hu.
  apply In_nth_error in Hu. destruct Hu as (q & Eq).
  destruct (Nat.lt_trichotomy q p) as [Hlt | [-> | Hgt]].
  - rewrite (Hbefore q u Hlt Eq) in Hfu. discriminate.
  - left. congruence.
  - right. apply (ranking_index_order f pool p q v u Hs Hgt Ep Eq).
Qed.



(** ** Running the code of [fastmap.py] *)

Section SVMFacts.

Context {obj : Type}.
Variable dist : obj -> obj -> R.
Variable dflt : obj.

Local Abbreviation SSt := (@SVM.FastMapSVM obj).
Local Abbreviation key := (SVMPure.key dist dflt).
Local Abbreviation sranking := (SVMPure.ranking dist dflt).
Local Abbreviation round := (SVMPure.round dist dflt).

Lemma pdist_loop_zero_cursor (a b : list R) (d : R) :
  SVM.pdist_loop (seq 0 0) a b d = d.
Proof. reflexivity. Qed.

Lemma svm_pdist_run (s : SSt) (q u : Z) :
  SVMPure.well_formed s ->
  in_range (length (SVM._X s)) q -> in_range (length (SVM._X s)) u ->
  SVM._pdist dist q u s = Ok (key s q u) s.
Proof.
  intros (HW & Hy) Hq Hu. unfold SVM._pdist.
  rewrite bind_get.
  rewrite (bind_run _ _ _ (SVMPure.ob dflt (SVM._X s) q) s)
    by (unfold SVMPure.ob; now rewrite (getitem_in_range _ q dflt Hq)).
  rewrite (bind_run _ _ _ (SVMPure.ob dflt (SVM._X s) u) s)
    by (unfold SVMPure.ob; now rewrite (getitem_in_range _ u dflt Hu)).
  unfold SVMPure.key.
  destruct (SVM._ihyprpln s) as [|k] eqn:Ek; [reflexivity|].
  change (S k =? 0)%nat with false. cbv iota.
  rewrite <- HW in Hq, Hu.
  rewrite (bind_run _ _ _ (CorePure.row (SVM.W s) q) s)
    by (unfold CorePure.row; now rewrite (getitem_in_range _ q [] Hq)).
  rewrite (bind_run _ _ _ (CorePure.row (SVM.W s) u) s)
    by (unfold CorePure.row; now rewrite (getitem_in_range _ u [] Hu)).
  reflexivity.
Qed.

Lemma svm_pdist_query_run (s : SSt) (q : Z) (idxs : list Z) :
  SVMPure.well_formed s ->
  in_range (length (SVM._X s)) q ->
  Forall (in_range (length (SVM._X s))) idxs ->
  SVM.pdist dist [q] idxs s = Ok (map (key s q) idxs) s.
Proof.
  intros Hwf Hq Hall. unfold SVM.pdist. simpl list_prod.
  rewrite app_nil_r.
  rewrite (mapM_ext_run _ (fun ij => key s (fst ij) (snd ij))).
  - now rewrite map_map.
  - intros [a b] Hin. apply in_map_iff in Hin.
    destruct Hin as (u & E & Hu). inversion E; subst. simpl.
    rewrite Forall_forall in Hall. now apply svm_pdist_run; [| |apply Hall].
Qed.

Lemma svm_pool_in_range (s : SSt) (label : option Z) :
  SVMPure.well_formed s ->
  Forall (in_range (length (SVM._X s))) (SVMPure.pool s label).
Proof.
  intros (_ & Hy). unfold SVMPure.pool. rewrite <- Hy.
  destruct label as [l|]; [|apply in_range_arange].
  apply Forall_forall. intros i Hi. unfold np_argwhere_eq in Hi.
  apply argwhere_from_In in Hi. destruct Hi as (Hr & _).
  unfold in_range. lia.
Qed.

Lemma svm_furthest_run (s : SSt) (q : Z) (label : option Z) :
  SVMPure.well_formed s ->
  in_range (length (SVM._X s)) q ->
  SVM.furthest dist q label s = Ok (sranking s label q) s.
Proof.
  intros Hwf Hq. unfold SVM.furthest. rewrite bind_get.
  fold (SVMPure.pool s label).
  rewrite (bind_run _ _ _ _ _
             (svm_pdist_query_run s q _ Hwf Hq (svm_pool_in_range s label Hwf))).
  reflexivity.
Qed.

Lemma sranking_perm (s : SSt) (label : option Z) (q : Z) :
  Permutation (sranking s label q) (SVMPure.pool s label).
Proof.
  unfold SVMPure.ranking. apply take_positions_perm.
  eapply Permutation_trans; [apply Permutation_sym, Permutation_rev|].
  rewrite <- (length_map (key s q) (SVMPure.pool s label)).
  apply np_argsort_perm.
Qed.

(** One pass of the loop is the pure [round]. *)
Lemma refine_round_run (s : SSt) (forb : list Z) (cur : option Z) (j : Z)
  (ij : Z * Z) :
  SVMPure.well_formed s ->
  in_range (length (SVM._X s)) j ->
  SVMPure.pool s (Some 0%Z) <> [] ->
  round s forb cur j = Some ij ->
  SVM.refine_round dist forb cur j s = Ok ij s.
Proof.
  intros Hwf Hj Hne Hr. unfold SVMPure.round in Hr.
  destruct (for_break (sranking s (Some 0%Z) j) forb cur) as [i|] eqn:Ei;
    [|discriminate].
  destruct (for_break (sranking s (Some 1%Z) i) forb (Some j)) as [j'|] eqn:Ej;
    [|discriminate].
  inversion Hr; subst ij; clear Hr.
  assert (Hi : in_range (length (SVM._X s)) i).
  { apply for_break_In in Ei. destruct Ei as [Ei | [Ei _]].
    - pose proof (svm_pool_in_range s (Some 0%Z) Hwf) as Hall.
      rewrite Forall_forall in Hall. apply Hall.
      eapply Permutation_in; [apply sranking_perm | exact Ei].
    - exfalso. apply Hne.
      apply Permutation_nil. rewrite <- Ei. apply sranking_perm. }
  unfold SVM.refine_round.
  rewrite (bind_run _ _ _ _ _ (svm_furthest_run s j (Some 0%Z) Hwf Hj)).
  rewrite (bind_run _ _ _ i s) by (now rewrite Ei).
  rewrite (bind_run _ _ _ _ _ (svm_furthest_run s i (Some 1%Z) Hwf Hi)).
  rewrite (bind_run _ _ _ j' s) by (now rewrite Ej).
  reflexivity.
Qed.

(** ** Termination of the refinement loop (claim C6) *)



Lemma svm_pool_sorted (s : SSt) (label : option Z) :
  StronglySorted Z.lt (SVMPure.pool s label).
Proof.
  unfold SVMPure.pool. destruct label as [l|].
  - apply argwhere_from_sorted.
  - apply np_arange_sorted.
Qed.

Lemma sranking_rev (s : SSt) (label : option Z) (q : Z) :
  sranking s label q
  = rev (take_positions (SVMPure.pool s label)
           (np_argsort (map (key s q) (SVMPure.pool s label)))).
Proof. unfold SVMPure.ranking, take_positions. now rewrite map_rev. Qed.

(** The object selected from [furthest(q, label)]: an allowed member of the
    pool whose residual distance to [q] is largest, the largest index
    winning among equals. *)
Lemma svm_select_max (s : SSt) (forb : list Z) (label : option Z) (q : Z)
  (cur : option Z) :
  (exists a, In a (SVMPure.pool s label) /\ contains forb a = false) ->
  exists v,
    for_break (sranking s label q) forb cur = Some v /\
    In v (SVMPure.pool s label) /\ contains forb v = false /\
    forall u, In u (SVMPure.pool s label) -> contains forb u = false ->
              u = v \/ key s q u < key s q v \/
              (key s q u = key s q v /\ (u < v)%Z).
Proof.
  intros Hex.
  destruct (for_break_some (sranking s label q) forb cur) as (v & Hv).
  { left. intros E. destruct Hex as (a & Ha & _).
    apply (Permutation_in _ (Permutation_sym (sranking_perm s label q))) in Ha.
    rewrite E in Ha. contradiction. }
  exists v. split; [exact Hv|].
  rewrite sranking_rev in Hv.
  apply (for_break_ranking_max (key s q) _ forb cur v
           (svm_pool_sorted s label) Hv Hex).
Qed.


Lemma same_pair_true (a b : Z * Z) : SVM.same_pair a (Some b) = true <-> a = b.
Proof.
  destruct a as [a1 a2], b as [b1 b2]. unfold SVM.same_pair. simpl.
  rewrite andb_true_iff, !Z.eqb_eq. split.
  - intros [-> ->]. reflexivity.
  - intros E. inversion E. auto.
Qed.




(** ** The order of the ranking in [fastmap.py] *)


End SVMFacts.

(** ** The refinement loop on the examples *)

Lemma np_argsort_pair (a b : R) :
  np_argsort [a; b] = if Rleb a b then [0%nat; 1%nat] else [1%nat; 0%nat].
Proof.
  unfold np_argsort. cbn [length seq combine sort_keys insert_key fst snd].
  destruct (Rleb a b); reflexivity.
Qed.

Lemma line_dist_sym (a b : Z) : Line.dist a b = Line.dist b a.
Proof. unfold Line.dist. f_equal. lia. Qed.









(** ** The ranking on the examples *)




(** ** Coincident pivots (claim C3) *)

(** [core.py]: the divisor [2 * d_ij + EPSILON] is positive for every
    residual distance, so the quotient is defined. *)
Lemma fit_divisor_pos (d_ij : R) : 0 <= d_ij -> 0 < 2 * d_ij + EPSILON.
Proof. intros H. pose proof EPSILON_pos. lra. Qed.

(** [core.py]: with coincident pivots every coordinate is 0. *)
Lemma fit_coordinate_coincident (d : R) : Core.fit_coordinate d d 0 = 0.
Proof.
  unfold Core.fit_coordinate, np_clip_0_inf.
  replace (np_square d - np_square d + 0 * 0) with 0 by ring.
  unfold Rdiv. rewrite Rmult_0_l. apply Rmax_left. lra.
Qed.

(** [fastmap.py]: with coincident pivots the quotient is [0 / 0]. *)
Lemma embed_coordinate_coincident (d : R) :
  SVM.embed_coordinate d d 0 = SVM.NaN.
Proof.
  unfold SVM.embed_coordinate, SVM.np_true_divide.
  destruct (Req_dec_T (2 * 0) 0) as [_ | Hne]; [|exfalso; apply Hne; ring].
  replace (np_square d - np_square d + 0 * 0) with 0 by ring.
  destruct (Rlt_dec 0 0) as [H | _]; [lra|]. reflexivity.
Qed.

Lemma twin_choose_pivots :
  SVM._choose_pivots Line.dist 2 Twin.svm0 = Ok (0%Z, 1%Z) Twin.svm1.
Proof. reflexivity. Qed.

Lemma twin_distance :
  SVM.distance Line.dist 0%Z 1%Z Twin.svm1 = Ok 0 Twin.svm1.
Proof. reflexivity. Qed.

(** Claim C3 fails for [fastmap.py].  On two coincident objects of
    different classes, [_choose_pivots] returns them as the pivots, their
    distance is 0, and the column that [embed_database] computes by
    [d /= (2 * d_ij)] has no finite entry; the coordinate is NaN whenever
    the pivots coincide and the object is as far from one as from the
    other.  The divisor of [core.py] has the added [EPSILON], and its
    coordinates are then 0. *)
Theorem embed_database_coincident_pivots :
  SVM._choose_pivots Line.dist 2 Twin.svm0 = Ok (0%Z, 1%Z) Twin.svm1 /\
  SVM.distance Line.dist 0%Z 1%Z Twin.svm1 = Ok 0 Twin.svm1 /\
  SVM.embed_database_column Line.dist 0%Z 1%Z Twin.svm1
  = Ok [SVM.NaN; SVM.NaN] Twin.svm1 /\
  (forall d, SVM.isfinite (SVM.embed_coordinate d d 0) = false) /\
  (forall d, Core.fit_coordinate d d 0 = 0).
Proof.
  split; [exact twin_choose_pivots|]. split; [exact twin_distance|].
  split; [|split].
  - unfold SVM.embed_database_column. rewrite bind_get.
    rewrite (bind_run _ _ _ _ _ twin_distance).
    rewrite (bind_run _ _ _ [0; 0] Twin.svm1) by reflexivity.
    rewrite (bind_run _ _ _ [0; 0] Twin.svm1) by reflexivity.
    unfold ret. cbn [combine map fst snd].
    now rewrite embed_coordinate_coincident.
  - intros d. now rewrite embed_coordinate_coincident.
  - exact fit_coordinate_coincident.
Qed.

(** ** The example run with 65537 objects *)

(** The entry that the loop of [_choose_pivots] takes from a ranking, when
    one allowed object is farther than every other allowed object. *)
Lemma core_select {obj : Type} (dist : obj -> obj -> R) (nan_obj : obj)
  (x : list obj) (w : list (list R)) (k : nat) (pool forb : list Z)
  (cur : option Z) (q v0 : Z) :
  StronglySorted Z.lt pool ->
  In v0 pool -> contains forb v0 = false ->
  (forall u, In u pool -> contains forb u = false -> u <> v0 ->
     residual k (CorePure.row w u) (CorePure.row w q)
       (dist (CorePure.ob nan_obj x u) (CorePure.ob nan_obj x q))
     < residual k (CorePure.row w v0) (CorePure.row w q)
         (dist (CorePure.ob nan_obj x v0) (CorePure.ob nan_obj x q))) ->
  for_break (CorePure.ranking dist nan_obj x w k pool q) forb cur = Some v0.
Proof.
  intros Hs Hv0 Hf0 Hfar.
  destruct (for_break_some (CorePure.ranking dist nan_obj x w k pool q) forb cur)
    as (v & Hv).
  { left. intros E.
    apply (Permutation_in _ (Permutation_sym (ranking_perm dist nan_obj x w k pool q)))
      in Hv0.
    rewrite E in Hv0. contradiction. }
  rewrite Hv. f_equal.
  unfold CorePure.ranking, CorePure.dmat in Hv.
  apply (for_break_ranking_max _ pool forb cur v Hs) in Hv;
    [|now exists v0].
  destruct Hv as (Hin & Hfv & Hmax).
  destruct (Z.eq_dec v v0) as [E | Hne]; [exact E|]. exfalso.
  specialize (Hfar v Hin Hfv Hne).
  destruct (Hmax v0 Hv0 Hf0) as [E | [Hlt | [Heq _]]].
  - now apply Hne.
  - lra.
  - lra.
Qed.















(** ** The example run with a single object labelled 0 *)

(** The four points of [Line] with the labels 0, 1, 1, 1 and two
    dimensions: the only object labelled 0 is a pivot of dimension 0; at
    dimension 1 it is forbidden, the loop over the ranking ends without a
    [break], and the loop variable still holds it. *)
Lemma line_scarce_trains :
  exists sL,
    CorePure.trains Line.dist 0%Z Line.X (seq 0 2)
      (CorePure.begin_state 0 Line.X (Some [0; 1; 1; 1]%Z) Line.s0)
      [(0, 3); (0, 2)]%Z sL /\
    CorePure.table sL = [(0, 3); (0, 2)]%Z.
Proof.
  set (ys := [0; 1; 1; 1]%Z).
  set (sb := CorePure.begin_state 0 Line.X (Some ys) Line.s0).
  set (w := repeat (repeat 0 2) 4).
  assert (Hsorted : StronglySorted Z.lt [1; 2; 3]%Z).
  { apply (argwhere_from_sorted ys 1%Z 0%Z). }
  assert (Hr : forall l, (forall u, In u l -> (0 <= u < 4)%Z) ->
                         Forall (in_range 4) l).
  { intros l H. apply Forall_forall. intros u Hu. unfold in_range. simpl.
    apply H in Hu. lia. }
  (* dimension 0 *)
  assert (E0 : Core._choose_pivots Line.dist (Core.set_ihyprpln 0 sb)
               = Ok (0%Z, 3%Z)
                    (Core.set_np_random [0%nat]
                       (Core.set_pivot_ids
                          (Some (CorePure.table (Core.set_ihyprpln 0 sb)))
                          (Core.set_ihyprpln 0 sb)))).
  { apply (choose_pivots_run Line.dist 0%Z (Core.set_ihyprpln 0 sb) Line.X w
             0 [0%nat] [0]%Z [1; 2; 3]%Z); try reflexivity.
    - exists ys. split; reflexivity.
    - exists ys. split; reflexivity.
    - apply Hr. simpl. intros u Hu. lia.
    - apply Hr. simpl. intros u Hu. lia.
    - apply Hr. simpl. intros u Hu. lia.
    - apply Hr. simpl. intros u Hu. lia.
    - split; [simpl; auto|]. split; [reflexivity|]. split; [reflexivity|].
      apply core_select; [exact Hsorted | simpl; auto | reflexivity|].
      intros u Hu _ Hne. unfold residual. cbn [seq fold_left].
      unfold Line.dist. apply IZR_lt.
      destruct Hu as [<- | [<- | [<- | []]]]; simpl; lia. }
  set (s1 := Core.set_np_random [0%nat] _) in E0.
  set (sa := CorePure.after_dimension Line.dist 0%Z s1 Line.X w 0 0 3).
  set (w1 := set_column 0 (CorePure.fit_column Line.dist 0%Z Line.X w 0 0 3) w).
  assert (Hw1 : length w1 = 4%nat).
  { unfold w1. rewrite set_column_length; [reflexivity|].
    now rewrite fit_column_length. }
  (* the first coordinates of the objects 0, 1 and 2 *)
  pose proof EPSILON_pos as He.
  assert (Hentry : forall u : Z, (0 <= u < 4)%Z ->
            nth 0 (CorePure.row w1 u) 0
            = Core.fit_coordinate
                (Line.dist (CorePure.ob 0%Z Line.X u) (-1))
                (Line.dist (CorePure.ob 0%Z Line.X u) 6)
                (Line.dist (-1) 6)).
  { intros u Hu. unfold w1.
    rewrite row_set_column;
      [| unfold in_range; simpl; lia | now rewrite fit_column_length].
    unfold w. rewrite row_repeat by (unfold in_range; simpl; lia).
    rewrite nth_set_nth_eq by (simpl; lia).
    rewrite fit_column_nth by (simpl; lia).
    rewrite Z2Nat.id by lia. reflexivity. }
  assert (Hcoord : forall x : Z, (-1 <= x <= 6)%Z ->
            Core.fit_coordinate (Line.dist x (-1)) (Line.dist x 6)
              (Line.dist (-1) 6)
            = (14 * IZR x + 14) / (14 + EPSILON)).
  { intros x Hx.
    assert (Hx' : -1 <= IZR x <= 6).
    { split; [apply (IZR_le (-1)) | apply (IZR_le x 6)]; lia. }
    unfold Core.fit_coordinate, Line.dist, np_square.
    replace (Z.abs (x - -1)) with (x + 1)%Z by lia.
    replace (Z.abs (x - 6)) with (6 - x)%Z by lia.
    replace (Z.abs (-1 - 6)) with 7%Z by lia.
    rewrite plus_IZR, minus_IZR.
    replace (((IZR x + 1) * (IZR x + 1) - (6 - IZR x) * (6 - IZR x) + 7 * 7)
             / (2 * 7 + EPSILON))
      with ((14 * IZR x + 14) / (14 + EPSILON)) by (field; lra).
    apply np_clip_0_inf_id.
    apply Rmult_le_pos; [lra|]. apply Rlt_le, Rinv_0_lt_compat. lra. }
  (* dimension 1 *)
  assert (E1 : Core._choose_pivots Line.dist (Core.set_ihyprpln 1 sa)
               = Ok (0%Z, 2%Z)
                    (Core.set_np_random []
                       (Core.set_pivot_ids
                          (Some (CorePure.table (Core.set_ihyprpln 1 sa)))
                          (Core.set_ihyprpln 1 sa)))).
  { apply (choose_pivots_run Line.dist 0%Z (Core.set_ihyprpln 1 sa) Line.X w1
             0 [] [0]%Z [1; 2; 3]%Z); try reflexivity.
    - exists ys. split; reflexivity.
    - exists ys. split; reflexivity.
    - apply Hr. simpl. intros u Hu. lia.
    - rewrite Hw1. apply Hr. simpl. intros u Hu. lia.
    - apply Hr. simpl. intros u Hu. lia.
    - rewrite Hw1. apply Hr. simpl. intros u Hu. lia.
    - assert (Hforb : CorePure.forbidden_at
                        (Core._ihyprpln (Core.set_ihyprpln 1 sa))
                        (CorePure.table (Core.set_ihyprpln 1 sa))
                      = [0; 3]%Z) by reflexivity.
      rewrite Hforb.
      split; [simpl; auto|]. split; [reflexivity|]. split; [reflexivity|].
      change (Core._ihyprpln (Core.set_ihyprpln 1 sa)) with 1%nat.
      apply core_select; [exact Hsorted | simpl; auto | reflexivity|].
      intros u Hu Hf Hne.
      assert (Eu : u = 1%Z).
      { destruct Hu as [<- | [<- | [<- | []]]];
          [reflexivity | congruence | discriminate]. }
      subst u.
      unfold residual. cbn [seq fold_left]. unfold residual_step.
      rewrite !Hentry by lia.
      change (CorePure.ob 0%Z Line.X 0) with (-1)%Z.
      change (CorePure.ob 0%Z Line.X 1) with 0%Z.
      change (CorePure.ob 0%Z Line.X 2) with 2%Z.
      rewrite !Hcoord by lia.
      unfold Line.dist, np_square, np_sqrt.
      change (Z.abs (0 - -1)) with 1%Z. change (Z.abs (2 - -1)) with 3%Z.
      set (k := 14 / (14 + EPSILON)).
      assert (Hk : 0 < k < 1).
      { unfold k. split; [apply Rdiv_lt_0_compat; lra|].
        apply (Rmult_lt_reg_r (14 + EPSILON)); [lra|].
        unfold Rdiv. rewrite Rmult_assoc, Rinv_l by lra. lra. }
      replace ((14 * 0 + 14) / (14 + EPSILON) - (14 * -1 + 14) / (14 + EPSILON))
        with k by (unfold k; field; lra).
      replace ((14 * 2 + 14) / (14 + EPSILON) - (14 * -1 + 14) / (14 + EPSILON))
        with (3 * k) by (unfold k; field; lra).
      assert (Hpos : 0 < 1 - k * k) by nra.
      rewrite !np_clip_0_inf_id by nra.
      apply sqrt_lt_1_alt. nra. }
  eexists. split.
  - eapply CorePure.trains_cons; [reflexivity | exact E0|].
    eapply CorePure.trains_cons; [reflexivity | exact E1|].
    apply CorePure.trains_nil.
  - reflexivity.
Qed.

(** * Further properties of the code *)

(** ** The projection loop and the coordinate formula *)

Lemma residual_step_le (a b : list R) (v : R) (i : nat) :
  0 <= v -> residual_step a b v i <= v.
Proof.
  intros Hv. unfold residual_step, np_sqrt, np_clip_0_inf, np_square.
  apply Rle_trans with (sqrt (v * v)); [|rewrite sqrt_square by exact Hv; lra].
  apply sqrt_le_1_alt. apply Rmax_lub.
  - pose proof (Rle_0_sqr (nth i a 0 - nth i b 0)) as H. unfold Rsqr in H. lra.
  - apply Rmult_le_pos; exact Hv.
Qed.

Lemma residual_S (k : nat) (a b : list R) (d : R) :
  residual (S k) a b d = residual_step a b (residual k a b d) k.
Proof. unfold residual. now rewrite seq_S, fold_left_app. Qed.

Lemma residual_le (k : nat) (a b : list R) (d : R) :
  0 <= d -> residual k a b d <= d.
Proof.
  intros Hd. induction k as [|k IH].
  - apply Rle_refl.
  - rewrite residual_S. eapply Rle_trans; [|exact IH].
    apply residual_step_le. now apply residual_nonneg.
Qed.

Lemma residual_sym (k : nat) (a b : list R) (d : R) :
  residual k a b d = residual k b a d.
Proof.
  induction k as [|k IH]; [reflexivity|].
  rewrite !residual_S, IH. unfold residual_step, np_square. do 2 f_equal.
  ring.
Qed.

Lemma residual_same_zero (k : nat) (a : list R) : residual k a a 0 = 0.
Proof.
  apply Rle_antisym.
  - apply residual_le. apply Rle_refl.
  - apply residual_nonneg. apply Rle_refl.
Qed.



(** X2.  When the three residual distances between an object [k] and the
    pivots [i], [j] obey the triangle inequality [|d_ik - d_ij| <= d_jk],
    the coordinate that [fit] gives [k] lies between 0 and the distance
    [d_ik] of [k] to the first pivot, and the coordinate of [transform]
    is at most [d_ik] as well. *)
Theorem fit_coordinate_within_pivot_distance (d_ik d_jk d_ij : R) :
  0 <= d_ik -> 0 <= d_ij -> Rabs (d_ik - d_ij) <= d_jk ->
  0 <= Core.fit_coordinate d_ik d_jk d_ij <= d_ik /\
  Core.transform_coordinate d_ik d_jk d_ij <= d_ik.
Proof.
  intros Hik Hij Htri. pose proof EPSILON_pos as He.
  assert (Hsq : (d_ik - d_ij) * (d_ik - d_ij) <= d_jk * d_jk).
  { assert (H0 : 0 <= Rabs (d_ik - d_ij)) by apply Rabs_pos.
    replace ((d_ik - d_ij) * (d_ik - d_ij))
      with (Rabs (d_ik - d_ij) * Rabs (d_ik - d_ij)).
    - apply Rmult_le_compat; assumption.
    - rewrite <- Rabs_mult. apply Rabs_pos_eq.
      pose proof (Rle_0_sqr (d_ik - d_ij)) as H. unfold Rsqr in H. exact H. }
  assert (Hq : (np_square d_ik - np_square d_jk + d_ij * d_ij)
               / (2 * d_ij + EPSILON) <= d_ik).
  { unfold np_square.
    apply (Rmult_le_reg_r (2 * d_ij + EPSILON)); [lra|].
    unfold Rdiv. rewrite Rmult_assoc, Rinv_l by lra. nra. }
  split; [split|].
  - apply fit_coordinate_nonneg.
  - unfold Core.fit_coordinate, np_clip_0_inf. apply Rmax_lub; assumption.
  - unfold Core.transform_coordinate.
    replace (np_square d_ik + np_square d_ij - np_square d_jk)
      with (np_square d_ik - np_square d_jk + d_ij * d_ij)
      by (unfold np_square; ring).
    replace (d_ij * 2 + EPSILON) with (2 * d_ij + EPSILON) by ring.
    exact Hq.
Qed.

Lemma fit_coordinate_within_pivot_distance_witness :
  0 <= 3 /\ 0 <= 5 /\ Rabs (3 - 5) <= 4 /\
  0 <= Core.fit_coordinate 3 4 5 <= 3 /\
  Core.transform_coordinate 3 4 5 <= 3.
Proof.
  assert (H : Rabs (3 - 5) <= 4).
  { unfold Rabs. destruct (Rcase_abs (3 - 5)); lra. }
  split; [lra|]. split; [lra|]. split; [exact H|].
  apply (fit_coordinate_within_pivot_distance 3 4 5); [lra | lra | exact H].
Defined.

(** ** Further properties of [core.py] *)

Section CoreFurther.

Context {obj : Type}.
Variable dist : obj -> obj -> R.
Variable np_nan : R.
Variable nan_obj : obj.

Local Abbreviation St := (@Core.FastMapABC obj).
Local Abbreviation row := CorePure.row.
Local Abbreviation ob := (CorePure.ob nan_obj).
Local Abbreviation table := CorePure.table.
Local Abbreviation xtable := (CorePure.xtable nan_obj).
Local Abbreviation wtable := (CorePure.wtable np_nan).
Local Abbreviation tables_ok := (CorePure.tables_ok nan_obj np_nan).
Local Abbreviation begin_state := (CorePure.begin_state np_nan).
Local Abbreviation end_state := CorePure.end_state.
Local Abbreviation snapshots := CorePure.snapshots.
Local Abbreviation trains := (CorePure.trains dist nan_obj).
Local Abbreviation forbidden_at := CorePure.forbidden_at.
Local Abbreviation transform_row := (CorePure.transform_row dist nan_obj).

(** X3.  [distance_matrix] does not depend on the batch size.  With the
    objects and the embedding matrix present, a non-empty list of valid
    indices and a valid second index, its result under every positive
    batch size is the list of the residual distances of the listed
    objects to the second object, in the order of the list; the instance
    is left as it was. *)
Theorem distance_matrix_any_batch_size (s : St) (x : list obj)
  (w : list (list R)) (idxs : list Z) (j : Z) (bs : Z) :
  Core._X s = Some x -> Core.W s = Some w ->
  (0 < bs)%Z -> idxs <> [] ->
  Forall (in_range (length x)) idxs -> Forall (in_range (length w)) idxs ->
  in_range (length x) j -> in_range (length w) j ->
  Core.distance_matrix dist idxs j (Core.set_batch_size bs s)
  = Ok (map (fun i => residual (Core._ihyprpln s) (row w i) (row w j)
                        (dist (ob x i) (ob x j))) idxs)
       (Core.set_batch_size bs s).
Proof.
  intros HX HW Hbs Hne Hx Hw Hxj Hwj.
  apply (distance_matrix_run dist nan_obj (Core.set_batch_size bs s) x w idxs j);
    assumption.
Qed.


(** X5.  The coordinates of the two pivots on their own axis.  For a
    distance function that is symmetric, non-negative and 0 between an
    object and itself, after [fit] on at most 65536 objects the stored
    rows [W_piv[d] = (w_i, w_j)] of every dimension [d] satisfy: the first
    pivot has coordinate 0 on axis [d]; the second pivot has coordinate
    [2 delta^2 / (2 delta + EPSILON)], where [delta] is the residual
    distance between the two stored pivot objects at dimension [d]; this
    coordinate is at most [delta]. *)
Theorem pivot_snapshot_coordinates (X_train : list obj)
  (labels : option (list Z)) (s0 s' : St) (d : nat) :
  tables_ok s0 -> (0 < Core._batch_size s0)%Z ->
  (Z.of_nat (length X_train) <= 65536)%Z ->
  (forall a, dist a a = 0) ->
  (forall a b, dist a b = dist b a) ->
  (forall a b, 0 <= dist a b) ->
  Core.fit dist np_nan nan_obj X_train labels s0 = Ok tt s' ->
  (d < Core._n_dim s0)%nat ->
  exists Xp Wp x_i x_j w_i w_j,
    Core._X_piv s' = Some Xp /\ Core._W_piv s' = Some Wp /\
    nth_error Xp d = Some (x_i, x_j) /\ nth_error Wp d = Some (w_i, w_j) /\
    nth d w_i 0 = 0 /\
    nth d w_j 0
    = 2 * residual d w_i w_j (dist x_i x_j) * residual d w_i w_j (dist x_i x_j)
      / (2 * residual d w_i w_j (dist x_i x_j) + EPSILON) /\
    0 <= nth d w_j 0 <= residual d w_i w_j (dist x_i x_j).
Proof.
  intros Hok Hbs Hsmall Hrefl Hsym Hpos Hfit Hd.
  destruct (fit_Ok_inv dist np_nan nan_obj _ _ _ _ Hok Hbs Hfit)
    as (P & sL & wL' & Ht & HW' & ->).
  destruct (trained_loop dist np_nan nan_obj _ _ _ _ _ Hok Ht)
    as (wL & HW & Hlen & HP & L1 & L2 & L3 & G4 & G5 & Hrows & Hrec).
  assert (wL' = wL) by congruence. subst wL'.
  destruct (end_state_facts wL sL)
    as (E1 & E2 & E3 & _ & _ & _ & _ & _ & _ & _ & E4).
  assert (HXp : Core._X_piv sL = Some (xtable sL)).
  { apply (trains_X_piv dist nan_obj _ _ _ _ _ Ht). right.
    destruct (Core._n_dim s0); [lia | discriminate]. }
  assert (HWp : Core._W_piv (end_state wL sL) = Some (snapshots wL (table sL))).
  { rewrite E4. destruct (table sL); [simpl in L1; lia | reflexivity]. }
  destruct (nth_error P d) as [[i j]|] eqn:EP.
  2:{ apply nth_error_None in EP. lia. }
  destruct (Hrec d i j EP) as (Hi & Hj & R1 & R2 & Hcoord).
  assert (Hu : forall q, in_range (length X_train) q -> uint16 q = q).
  { intros q [H0 H1]. apply uint16_small. lia. }
  exists (xtable sL), (snapshots wL (table sL)),
    (ob X_train i), (ob X_train j), (row wL i), (row wL j).
  split; [rewrite E1; exact HXp|]. split; [exact HWp|].
  split; [exact R2|]. split.
  { rewrite (snapshots_nth wL _ d _ _ R1). now rewrite (Hu i Hi), (Hu j Hj). }
  set (delta := residual d (row wL i) (row wL j)
                  (dist (ob X_train i) (ob X_train j))).
  assert (Hdelta : 0 <= delta) by (apply residual_nonneg, Hpos).
  pose proof EPSILON_pos as He.
  assert (Ei : nth d (row wL i) 0 = 0).
  { rewrite (Hcoord i Hi). unfold CorePure.trained_coordinate.
    rewrite Hrefl, residual_same_zero. fold delta.
    unfold Core.fit_coordinate, np_square.
    replace (0 * 0 - delta * delta + delta * delta) with 0 by ring.
    unfold Rdiv. rewrite Rmult_0_l. apply np_clip_0_inf_id. lra. }
  assert (Ej : nth d (row wL j) 0 = 2 * delta * delta / (2 * delta + EPSILON)).
  { rewrite (Hcoord j Hj). unfold CorePure.trained_coordinate.
    rewrite (Hrefl (ob X_train j)), residual_same_zero.
    rewrite (residual_sym d (row wL j) (row wL i)), (Hsym (ob X_train j)).
    fold delta. unfold Core.fit_coordinate, np_square.
    replace (delta * delta - 0 * 0 + delta * delta) with (2 * delta * delta)
      by ring.
    apply np_clip_0_inf_id.
    apply Rmult_le_pos; [nra|]. apply Rlt_le, Rinv_0_lt_compat. lra. }
  split; [exact Ei|]. split; [exact Ej|].
  rewrite Ej. split.
  - apply Rmult_le_pos; [nra|]. apply Rlt_le, Rinv_0_lt_compat. lra.
  - apply (Rmult_le_reg_r (2 * delta + EPSILON)); [lra|].
    unfold Rdiv. rewrite Rmult_assoc, Rinv_l by lra. nra.
Qed.

Lemma set_batch_size_same (s : St) :
  Core.set_batch_size (Core._batch_size s) s = s.
Proof. destruct s; reflexivity. Qed.

(** What [fit] leaves for [transform]: both snapshot tables, with one row
    per dimension. *)
Lemma fitted_tables (X_train : list obj) (labels : option (list Z))
  (s0 s' : St) :
  tables_ok s0 -> (0 < Core._batch_size s0)%Z ->
  (0 < Core._n_dim s0)%nat ->
  Core.fit dist np_nan nan_obj X_train labels s0 = Ok tt s' ->
  exists Xp Wp,
    Core._X_piv s' = Some Xp /\ Core._W_piv s' = Some Wp /\
    length Xp = Core._n_dim s0 /\ length Wp = Core._n_dim s0 /\
    Core._n_dim s' = Core._n_dim s0 /\
    Core._batch_size s' = Core._batch_size s0 /\
    Core._X s' = None /\ Core.W s' = None /\ Core._y s' = None /\
    Core._ihyprpln s' = 0%nat.
Proof.
  intros Hok Hbs HD Hfit.
  destruct (fit_Ok_inv dist np_nan nan_obj _ _ _ _ Hok Hbs Hfit)
    as (P & sL & wL' & Ht & HW' & ->).
  destruct (trained_loop dist np_nan nan_obj _ _ _ _ _ Hok Ht)
    as (wL & HW & Hlen & HP & L1 & L2 & L3 & G4 & G5 & Hrows & Hrec).
  assert (wL' = wL) by congruence. subst wL'.
  destruct (end_state_facts wL sL)
    as (E1 & E2 & E3 & _ & _ & E6 & _ & E8 & E9 & E10 & E4).
  assert (HXp : Core._X_piv sL = Some (xtable sL)).
  { apply (trains_X_piv dist nan_obj _ _ _ _ _ Ht). right.
    destruct (Core._n_dim s0); [lia | discriminate]. }
  exists (xtable sL), (snapshots wL (table sL)).
  split; [rewrite E1; exact HXp|]. split.
  { rewrite E4. destruct (table sL); [simpl in L1; lia | reflexivity]. }
  split; [exact L2|]. split.
  { unfold CorePure.snapshots. now rewrite length_map. }
  split; [now rewrite E2|]. split; [now rewrite E3|].
  repeat (split; [assumption|]). exact E6.
Qed.

(** X6.  [transform] embeds object by object.  After [fit] with at least
    one dimension there is a function [f] from objects to rows of [D]
    coordinates such that, for every positive batch size and every input,
    [transform] returns the rows [f x] of the objects in the order of the
    input; hence the result does not depend on the batch size, and the
    embedding of a concatenation is the concatenation of the
    embeddings. *)
Theorem transform_embeds_object_by_object (X_train : list obj)
  (labels : option (list Z)) (s0 s' : St) :
  tables_ok s0 -> (0 < Core._batch_size s0)%Z ->
  (0 < Core._n_dim s0)%nat ->
  Core.fit dist np_nan nan_obj X_train labels s0 = Ok tt s' ->
  exists f : obj -> list R,
    (forall x, length (f x) = Core._n_dim s0) /\
    (forall X_new, exists s'',
        Core.transform dist np_nan nan_obj X_new s' = Ok (map f X_new) s'') /\
    (forall bs X_new, (0 < bs)%Z -> exists s'',
        Core.transform dist np_nan nan_obj X_new (Core.set_batch_size bs s')
        = Ok (map f X_new) s'') /\
    (forall X_1 X_2, exists s'',
        Core.transform dist np_nan nan_obj (X_1 ++ X_2) s'
        = Ok (map f X_1 ++ map f X_2) s'').
Proof.
  intros Hok Hbs HD Hfit.
  destruct (fitted_tables _ _ _ _ Hok Hbs HD Hfit)
    as (Xp & Wp & HXp & HWp & LX & LW & ED & EB & _).
  exists (transform_row Xp Wp (Core._n_dim s0)).
  assert (Hrun : forall bs X_new, (0 < bs)%Z -> exists s'',
             Core.transform dist np_nan nan_obj X_new (Core.set_batch_size bs s')
             = Ok (map (transform_row Xp Wp (Core._n_dim s0)) X_new) s'').
  { intros bs X_new Hpos. eexists.
    rewrite (transform_run dist np_nan nan_obj (Core.set_batch_size bs s')
               Xp Wp X_new HXp HWp Hpos).
    - change (Core._n_dim (Core.set_batch_size bs s')) with (Core._n_dim s').
      rewrite ED. reflexivity.
    - change (Core._n_dim (Core.set_batch_size bs s')) with (Core._n_dim s').
      rewrite ED, LX. apply Nat.le_refl.
    - change (Core._n_dim (Core.set_batch_size bs s')) with (Core._n_dim s').
      rewrite ED, LW. apply Nat.le_refl. }
  assert (Hself : forall X_new, exists s'',
             Core.transform dist np_nan nan_obj X_new s'
             = Ok (map (transform_row Xp Wp (Core._n_dim s0)) X_new) s'').
  { intros X_new.
    destruct (Hrun (Core._batch_size s') X_new ltac:(rewrite EB; exact Hbs))
      as (s'' & H).
    rewrite set_batch_size_same in H. now exists s''. }
  split; [|split; [exact Hself | split; [exact Hrun|]]].
  - intros x. unfold CorePure.transform_row.
    rewrite transform_step_length. apply repeat_length.
  - intros X_1 X_2. destruct (Hself (X_1 ++ X_2)) as (s'' & H).
    exists s''. now rewrite H, map_app.
Qed.

(** X7.  Outside a training run the training-time queries fail.  On a new
    instance [transform] raises [AttributeError] for every input (the
    shape of [X_piv] is read from [X], which does not exist).  After
    [fit] the objects, the labels and the embedding matrix are deleted,
    and [n_obj], [distance_matrix] and [furthest] raise [AttributeError],
    leaving the instance as it is. *)
Theorem queries_outside_training_raise (X_train : list obj)
  (labels : option (list Z)) (s0 s' : St) :
  tables_ok s0 -> (0 < Core._batch_size s0)%Z ->
  Core.fit dist np_nan nan_obj X_train labels s0 = Ok tt s' ->
  (forall n_dim bs rng X_new,
      Core.transform dist np_nan nan_obj X_new (Core.__init__ n_dim bs rng)
      = Raise AttributeError (Core.__init__ n_dim bs rng)) /\
  Core.n_obj s' = Raise AttributeError s' /\
  (forall idxs j,
      Core.distance_matrix dist idxs j s' = Raise AttributeError s') /\
  (forall i label, Core.furthest dist i label s' = Raise AttributeError s').
Proof.
  intros Hok Hbs Hfit.
  destruct (fit_Ok_inv dist np_nan nan_obj _ _ _ _ Hok Hbs Hfit)
    as (P & sL & wL & Ht & HW & ->).
  destruct (end_state_facts wL sL)
    as (_ & _ & _ & _ & _ & _ & _ & E8 & E9 & E10 & _).
  set (s' := end_state wL sL) in *.
  assert (HX : Core.X s' = Raise AttributeError s').
  { unfold Core.X, Core.attr. now rewrite E8. }
  assert (Hy : Core.y s' = Raise AttributeError s').
  { unfold Core.y, Core.attr. now rewrite E10. }
  assert (Hn : Core.n_obj s' = Raise AttributeError s').
  { unfold Core.n_obj. now apply bind_Raise. }
  split; [reflexivity|]. split; [exact Hn|]. split.
  - intros idxs j. unfold Core.distance_matrix. now apply bind_Raise.
  - intros i label. unfold Core.furthest. apply bind_Raise.
    destruct label as [l|]; simpl.
    + now apply bind_Raise.
    + now apply bind_Raise.
Qed.

(** X8.  The degenerate batch sizes of [transform].  On a fitted instance
    with at least one dimension: with batch size 0, [transform] raises
    [ValueError] (the step of [range]); with a negative batch size the
    loop over the batches is empty and [transform] returns the matrix of
    zeros it started from, one row of [D] zeros per object, without
    touching the instance. *)
Theorem transform_degenerate_batch_sizes (X_train : list obj)
  (labels : option (list Z)) (s0 s' : St) (X_new : list obj) :
  tables_ok s0 -> (0 < Core._batch_size s0)%Z ->
  (0 < Core._n_dim s0)%nat ->
  Core.fit dist np_nan nan_obj X_train labels s0 = Ok tt s' ->
  Core.transform dist np_nan nan_obj X_new (Core.set_batch_size 0 s')
  = Raise ValueError (Core.set_batch_size 0 s') /\
  forall bs, (bs < 0)%Z ->
    Core.transform dist np_nan nan_obj X_new (Core.set_batch_size bs s')
    = Ok (repeat (repeat 0 (Core._n_dim s0)) (length X_new))
         (Core.set_batch_size bs s').
Proof.
  intros Hok Hbs HD Hfit.
  destruct (fitted_tables _ _ _ _ Hok Hbs HD Hfit)
    as (Xp & Wp & HXp & HWp & LX & LW & ED & EB & _).
  assert (Hhead : forall bs,
            Core.transform dist np_nan nan_obj X_new (Core.set_batch_size bs s')
            = (slices <- Core.transform_slices X_new ;;
               done <- mapM (fun X_batch =>
                               Core.transform_dims dist Xp Wp X_batch
                                 (repeat (repeat 0 (Core._n_dim s0))
                                    (length X_batch))
                                 (seq 0 (Core._n_dim s0)))
                            slices ;;
               ret (concat done
                    ++ repeat (repeat 0 (Core._n_dim s0))
                         (length X_new - length (concat done))))%py
                (Core.set_batch_size bs s')).
  { intros bs. unfold Core.transform. rewrite bind_get.
    change (Core._n_dim (Core.set_batch_size bs s')) with (Core._n_dim s').
    rewrite ED.
    rewrite (bind_run _ _ _ Xp (Core.set_batch_size bs s'))
      by (unfold Core.X_piv; cbn [Core._X_piv Core.set_batch_size];
          now rewrite HXp).
    rewrite (bind_run _ _ _ Wp (Core.set_batch_size bs s'))
      by (unfold Core.W_piv; cbn [Core._W_piv Core.set_batch_size];
          now rewrite HWp).
    reflexivity. }
  split.
  - rewrite Hhead. apply bind_Raise. reflexivity.
  - intros bs Hneg. rewrite Hhead.
    rewrite (bind_run _ _ _ [] (Core.set_batch_size bs s')).
    + cbn [mapM]. unfold bind, ret. cbn [concat app length].
      now rewrite Nat.sub_0_r.
    + unfold Core.transform_slices. cbn [Core._batch_size Core.set_batch_size].
      destruct (Z.eqb_spec bs 0) as [E | _]; [lia|].
      destruct (Z.ltb_spec bs 0) as [_ | E]; [reflexivity | lia].
Qed.

Lemma draw_start_all_forbidden (pool forb : list Z) :
  (forall u, In u pool -> contains forb u = true) ->
  forall (rounds : nat) (s : St),
    CorePure.draw_pool s pool -> pool <> [] ->
    Core.draw_start rounds forb s = Hang.
Proof.
  intros Hall. induction rounds as [|rounds IH]; intros s Hpool Hne.
  - reflexivity.
  - cbn [Core.draw_start]. rewrite bind_get.
    rewrite (bind_run _ _ _ pool s) by (now apply draw_pool_run).
    destruct (Core.np_random s) as [|r tape] eqn:Etape.
    + apply bind_Hang. unfold Core.np_random_choice. rewrite Etape.
      destruct pool; [congruence | reflexivity].
    + rewrite (bind_run _ _ _ (nth (r mod length pool) pool 0%Z)
                 (Core.set_np_random tape s)).
      * rewrite Hall.
        -- apply IH; [|exact Hne].
           unfold CorePure.draw_pool, CorePure.pool_state in *.
           exact Hpool.
        -- apply nth_In. apply Nat.mod_upper_bound.
           destruct pool; [congruence | discriminate].
      * unfold Core.np_random_choice. rewrite Etape.
        destruct pool; [congruence | reflexivity].
Qed.

Lemma choose_pivots_pool_forbidden (s : St) (pool : list Z) :
  CorePure.draw_pool s pool -> pool <> [] ->
  (forall u, In u pool ->
             In u (forbidden_at (Core._ihyprpln s) (table s))) ->
  Core._choose_pivots dist s = Hang.
Proof.
  intros Hpool Hne Hall. unfold Core._choose_pivots.
  rewrite (bind_run _ _ _ _ _ (pivot_ids_run s)).
  rewrite bind_get. apply bind_Hang.
  apply (draw_start_all_forbidden pool); [|exact Hpool | exact Hne].
  intros u Hu. apply contains_true.
  change (Core._ihyprpln (Core.set_pivot_ids (Some (table s)) s))
    with (Core._ihyprpln s).
  now apply Hall.
Qed.

(** X9.  The first loop of [_choose_pivots] has no way out when nothing
    can be drawn.  If the pool of the draw (the objects labelled 1 in
    supervised mode, all objects otherwise) is not empty and every one of
    its members is a pivot of a dimension below the cursor, then
    [_choose_pivots] never returns, whatever the random draws. *)
Theorem choose_pivots_hangs_when_pool_forbidden (s : St) (pool : list Z) :
  CorePure.draw_pool s pool -> pool <> [] ->
  (forall u, In u pool ->
             In u (forbidden_at (Core._ihyprpln s) (table s))) ->
  forall tape, Core._choose_pivots dist (Core.set_np_random tape s) = Hang.
Proof.
  intros Hpool Hne Hall tape.
  apply (choose_pivots_pool_forbidden (Core.set_np_random tape s) pool);
    [exact Hpool | exact Hne | exact Hall].
Qed.

Lemma choose_pivots_no_draw (s : St) (pool : list Z) :
  CorePure.draw_pool s pool -> pool <> [] -> Core.np_random s = [] ->
  Core._choose_pivots dist s = Hang.
Proof.
  intros Hpool Hne Htape. unfold Core._choose_pivots.
  rewrite (bind_run _ _ _ _ _ (pivot_ids_run s)).
  rewrite bind_get. apply bind_Hang.
  change (Core.np_random (Core.set_pivot_ids (Some (table s)) s))
    with (Core.np_random s).
  rewrite Htape. cbn [length Core.draw_start]. rewrite bind_get.
  rewrite (bind_run _ _ _ pool (Core.set_pivot_ids (Some (table s)) s))
    by (apply draw_pool_run; exact Hpool).
  apply bind_Hang. unfold Core.np_random_choice.
  change (Core.np_random (Core.set_pivot_ids (Some (table s)) s))
    with (Core.np_random s).
  rewrite Htape. destruct pool; [congruence | reflexivity].
Qed.

Lemma forM_cons_Hang {A} (body : A -> M St unit) (a : A) (l : list A)
  (s : St) :
  body a s = Hang -> forM (a :: l) body s = Hang.
Proof. intros H. simpl. now apply bind_Hang. Qed.

Lemma fit_dimension_Hang (s : St) (d : nat) (x : list obj)
  (w : list (list R)) :
  Core._X s = Some x -> Core.W s = Some w -> length w = length x ->
  (0 < Core._batch_size s)%Z ->
  Core._choose_pivots dist (Core.set_ihyprpln d s) = Hang ->
  Core.fit_dimension dist nan_obj d s = Hang.
Proof.
  intros HX HW Hlen Hbs Hc.
  rewrite (fit_dimension_step dist nan_obj s d x w HX HW Hlen Hbs).
  now rewrite Hc.
Qed.

(** X10.  Too few objects: with a single training object, no labels and
    at least two dimensions, [fit] never returns.  Dimension 0 takes the
    object as both pivots; at dimension 1 the only object is forbidden
    and the loop of the random draw runs forever. *)
Theorem fit_single_object_never_returns (x0 : obj) (s0 : St) :
  tables_ok s0 -> (0 < Core._batch_size s0)%Z ->
  (2 <= Core._n_dim s0)%nat ->
  Core.fit dist np_nan nan_obj [x0] None s0 = Hang.
Proof.
  intros Hok Hbs HD.
  destruct (begin_state_facts np_nan nan_obj [x0] None s0)
    as (B1 & B2 & B3 & B4 & B5 & B6 & B7 & B8 & _).
  set (sb := begin_state [x0] None s0) in *.
  set (w := repeat (repeat np_nan (Core._n_dim s0)) (length [x0])) in *.
  destruct Hok as (T1 & T2 & T3).
  unfold Core.fit.
  rewrite (bind_run _ _ _ _ _ (fit_begin_run np_nan [x0] None s0)). fold sb.
  apply bind_Hang. unfold Core.fit_loop. rewrite bind_get. rewrite B3.
  destruct (Core._n_dim s0) as [|[|D']] eqn:ED; [lia | lia |].
  change (seq 0 (S (S D'))) with (0%nat :: 1%nat :: seq 2 D').
  assert (Hpool : forall s : St,
            Core._X s = Some [x0] -> Core._supervised s = false ->
            CorePure.draw_pool s [0%Z]).
  { intros s HX Hs. unfold CorePure.draw_pool. rewrite Hs.
    exists [x0]. split; [exact HX | reflexivity]. }
  assert (Hbsb : (0 < Core._batch_size sb)%Z) by (rewrite B4; exact Hbs).
  destruct (Core.np_random s0) as [|r tape] eqn:Etape.
  - (* no draw at all *)
    apply forM_cons_Hang.
    apply (fit_dimension_Hang sb 0 [x0] w B1 B2 ltac:(apply repeat_length) Hbsb).
    apply (choose_pivots_no_draw _ [0%Z]);
      [now apply Hpool | discriminate | exact Etape].
  - (* dimension 0 takes the pair (0, 0) *)
    assert (Hr : Forall (in_range 1) [0%Z]).
    { repeat constructor; unfold in_range; simpl; lia. }
    assert (E0 : Core._choose_pivots dist (Core.set_ihyprpln 0 sb)
                 = Ok (0%Z, 0%Z)
                      (Core.set_np_random tape
                         (Core.set_pivot_ids
                            (Some (table (Core.set_ihyprpln 0 sb)))
                            (Core.set_ihyprpln 0 sb)))).
    { apply (choose_pivots_run dist nan_obj (Core.set_ihyprpln 0 sb) [x0] w
               r tape [0%Z] [0%Z] 0 0).
      - exact B1.
      - exact B2.
      - exact Etape.
      - unfold CorePure.label0.
        change (Core._supervised (Core.set_ihyprpln 0 sb))
          with (Core._supervised sb).
        rewrite B8. exists [x0]. split; [exact B1 | reflexivity].
      - unfold CorePure.label1.
        change (Core._supervised (Core.set_ihyprpln 0 sb))
          with (Core._supervised sb).
        rewrite B8. exists [x0]. split; [exact B1 | reflexivity].
      - exact Hr.
      - unfold w. rewrite repeat_length. exact Hr.
      - exact Hr.
      - unfold w. rewrite repeat_length. exact Hr.
      - change (forbidden_at (Core._ihyprpln (Core.set_ihyprpln 0 sb))
                  (table (Core.set_ihyprpln 0 sb))) with (@nil Z).
        cbn [length]. rewrite Nat.mod_1_r. cbn [nth].
        split; [now left|]. split; [reflexivity|].
        split; reflexivity. }
    set (s1 := Core.set_np_random tape _) in E0.
    set (sa := CorePure.after_dimension dist nan_obj s1 [x0] w 0 0 0).
    assert (Estep : Core.fit_dimension dist nan_obj 0 sb = Ok tt sa).
    { rewrite (fit_dimension_step dist nan_obj sb 0 [x0] w B1 B2
                 ltac:(apply repeat_length) Hbsb).
      now rewrite E0. }
    cbn [forM]. rewrite (bind_run _ _ _ tt sa Estep).
    apply forM_cons_Hang.
    set (w1 := set_column 0 (CorePure.fit_column dist nan_obj [x0] w 0 0 0) w).
    apply (fit_dimension_Hang sa 1 [x0] w1).
    + reflexivity.
    + reflexivity.
    + unfold w1. rewrite set_column_length; [apply repeat_length|].
      rewrite fit_column_length. symmetry. apply repeat_length.
    + exact Hbsb.
    + apply (choose_pivots_pool_forbidden _ [0%Z]).
      * apply Hpool; [reflexivity | exact B8].
      * discriminate.
      * intros u [<- | []].
        change (Core._ihyprpln (Core.set_ihyprpln 1 sa)) with 1%nat.
        change (table (Core.set_ihyprpln 1 sa))
          with (set_nth 0 (uint16 0, uint16 0) (table sb)).
        rewrite B5.
        destruct (table s0) as [|p0 rest] eqn:Et; [simpl in T1; lia|].
        left. reflexivity.
Qed.

(** X11.  What [_choose_pivots] returns in supervised mode.  Whenever it
    returns a pair [(i, j)], the first pivot is an object labelled 0 and
    the second an object labelled 1 (so the two differ); the second pivot
    is not a pivot of a dimension below the cursor and is, among the
    objects labelled 1 that are not, one at the largest residual distance
    from the first pivot.  The call changes nothing but the random state
    and the existence of the pivot index table. *)
Theorem choose_pivots_opposite_classes (s s' : St) (yv : list Z) (i j : Z) :
  Core._supervised s = true -> Core._y s = Some yv ->
  Core._choose_pivots dist s = Ok (i, j) s' ->
  exists x w tape,
    Core._X s = Some x /\ Core.W s = Some w /\
    s' = Core.set_np_random tape (Core.set_pivot_ids (Some (table s)) s) /\
    (0 <= i)%Z /\ nth_error yv (Z.to_nat i) = Some 0%Z /\
    (0 <= j)%Z /\ nth_error yv (Z.to_nat j) = Some 1%Z /\
    i <> j /\
    ~ In j (forbidden_at (Core._ihyprpln s) (table s)) /\
    forall v,
      (0 <= v)%Z -> nth_error yv (Z.to_nat v) = Some 1%Z ->
      ~ In v (forbidden_at (Core._ihyprpln s) (table s)) ->
      residual (Core._ihyprpln s) (row w v) (row w i)
        (dist (ob x v) (ob x i))
      <= residual (Core._ihyprpln s) (row w j) (row w i)
           (dist (ob x j) (ob x i)).
Proof.
  intros Hsup Hy Hc.
  destruct (choose_pivots_Ok dist nan_obj s s' i j Hc)
    as (x & w & tape & pool0 & pool1 & j0 & HX & HW & -> & Hp0 & Hp1
        & _ & _ & _ & _ & Hsel).
  unfold CorePure.label0, CorePure.label1 in Hp0, Hp1. rewrite Hsup in Hp0, Hp1.
  destruct Hp0 as (y0 & Hy0 & ->). destruct Hp1 as (y1 & Hy1 & ->).
  assert (y0 = yv) by congruence. assert (y1 = yv) by congruence. subst y0 y1.
  set (forb := forbidden_at (Core._ihyprpln s) (table s)) in *.
  destruct Hsel as (Hj0 & Hf0 & Hi & Hj).
  assert (Hin_i : In i (np_argwhere_eq yv 0%Z)).
  { apply for_break_In in Hi. destruct Hi as [Hi | [_ Hi]]; [|discriminate].
    eapply Permutation_in; [apply (ranking_perm dist nan_obj) | exact Hi]. }
  unfold CorePure.ranking, CorePure.dmat in Hj.
  apply (for_break_ranking_max _ (np_argwhere_eq yv 1%Z) forb (Some j0) j
           (argwhere_from_sorted yv 1%Z 0%Z)) in Hj;
    [|now exists j0].
  destruct Hj as (Hin_j & Hfj & Hmax).
  unfold np_argwhere_eq in Hin_i, Hin_j.
  apply argwhere_from_In in Hin_i. apply argwhere_from_In in Hin_j.
  rewrite Z.sub_0_r in Hin_i, Hin_j.
  destruct Hin_i as (Hri & Hli). destruct Hin_j as (Hrj & Hlj).
  exists x, w, tape.
  split; [exact HX|]. split; [exact HW|]. split; [reflexivity|].
  split; [lia|]. split; [exact Hli|]. split; [lia|]. split; [exact Hlj|].
  split; [intros ->; congruence|].
  split; [now apply contains_false|].
  intros v Hv Hlv Hfv.
  assert (Hin_v : In v (np_argwhere_eq yv 1%Z)).
  { unfold np_argwhere_eq. apply argwhere_from_In. rewrite Z.sub_0_r.
    split; [|exact Hlv].
    assert (Hlt : (Z.to_nat v < length yv)%nat)
      by (apply nth_error_Some; congruence).
    lia. }
  destruct (Hmax v Hin_v ltac:(now apply contains_false))
    as [-> | [Hlt | [Heq _]]].
  - apply Rle_refl.
  - now apply Rlt_le.
  - rewrite Heq. apply Rle_refl.
Qed.

(** X12.  An empty training set.  With no objects, no labels and at least
    one dimension, [fit] raises [ValueError] at the random draw of
    dimension 0 (the pool of the draw is empty), after it has created an
    empty embedding matrix. *)
Theorem fit_empty_training_set_raises (s0 : St) :
  (0 < Core._n_dim s0)%nat ->
  exists s_e,
    Core.fit dist np_nan nan_obj [] None s0 = Raise ValueError s_e /\
    Core._X s_e = Some [] /\ Core.W s_e = Some [] /\
    Core._ihyprpln s_e = 0%nat.
Proof.
  intros HD.
  destruct (begin_state_facts np_nan nan_obj [] None s0)
    as (B1 & B2 & B3 & B4 & B5 & B6 & B7 & B8 & _).
  set (sb := begin_state [] None s0) in *.
  set (sd := Core.set_ihyprpln 0 sb).
  set (sa := Core.set_pivot_ids (Some (table sd)) sd).
  exists sa. split; [|split; [exact B1 | split; [exact B2 | reflexivity]]].
  unfold Core.fit.
  rewrite (bind_run _ _ _ _ _ (fit_begin_run np_nan [] None s0)). fold sb.
  apply bind_Raise. unfold Core.fit_loop. rewrite bind_get.
  rewrite B3. destruct (Core._n_dim s0) as [|D']; [lia|].
  rewrite <- cons_seq. apply forM_cons_Raise.
  unfold Core.fit_dimension.
  rewrite (bind_run _ _ _ _ _ (modify_run _ _)). fold sd.
  apply bind_Raise. unfold Core._choose_pivots.
  rewrite (bind_run _ _ _ _ _ (pivot_ids_run sd)). fold sa.
  rewrite bind_get. apply bind_Raise.
  reflexivity.
Qed.

End CoreFurther.

(** ** The fill values of the arrays *)

Section Fill.

Context {obj : Type}.
Variable dist : obj -> obj -> R.

(** Two choices of the fill values ([np.nan] in the source). *)
Variables (np_a np_b : R) (o_a o_b : obj).

Local Abbreviation St := (@Core.FastMapABC obj).
Local Abbreviation row := CorePure.row.

(** The instance [s] with other contents of [W] and [X_piv]. *)
Local Abbreviation refill wb xp s :=
  (Core.set_X_piv xp (Core.set_W (Some wb) s)).

Lemma ob_fill (x : list obj) (q : Z) :
  in_range (length x) q -> CorePure.ob o_a x q = CorePure.ob o_b x q.
Proof. intros [H0 H1]. unfold CorePure.ob. apply nth_indep. lia. Qed.

Lemma dmat_W_ext (o : obj) (x : list obj) (wa wb : list (list R)) (k : nat)
  (idxs : list Z) (j : Z) :
  (forall q, firstn k (row wb q) = firstn k (row wa q)) ->
  CorePure.dmat dist o x wb k idxs j = CorePure.dmat dist o x wa k idxs j.
Proof.
  intros H. unfold CorePure.dmat. apply map_ext. intros q.
  apply residual_firstn; apply H.
Qed.

Lemma dmat_fill (x : list obj) (w : list (list R)) (k : nat)
  (idxs : list Z) (j : Z) :
  Forall (in_range (length x)) idxs -> in_range (length x) j ->
  CorePure.dmat dist o_a x w k idxs j = CorePure.dmat dist o_b x w k idxs j.
Proof.
  intros Hall Hj. unfold CorePure.dmat. apply map_ext_in. intros q Hq.
  rewrite Forall_forall in Hall.
  now rewrite (ob_fill x q (Hall q Hq)), (ob_fill x j Hj).
Qed.

(** The random draw does not read [W] or [X_piv]. *)
Lemma draw_start_refill (wb : list (list R)) (xp : option (list (obj * obj)))
  (forb : list Z) :
  forall (rounds : nat) (s s' : St) (j0 : Z),
    Core.draw_start rounds forb s = Ok j0 s' ->
    Core.draw_start rounds forb (refill wb xp s) = Ok j0 (refill wb xp s').
Proof.
  induction rounds as [|rounds IH]; intros s s' j0 H; [discriminate|].
  cbn [Core.draw_start] in H. rewrite bind_get in H.
  apply bind_Ok in H. destruct H as (pool & s1 & Hp & H).
  apply draw_pool_Ok in Hp. destruct Hp as (-> & Hp).
  apply bind_Ok in H. destruct H as (j1 & s1 & Hj & H).
  apply np_random_choice_Ok in Hj.
  destruct Hj as (r & tape & Etape & Hne & Ej & Hin & ->).
  cbn [Core.draw_start]. rewrite bind_get.
  rewrite (bind_run _ _ _ pool (refill wb xp s))
    by (apply draw_pool_run; exact Hp).
  rewrite (bind_run _ _ _ j1 (refill wb xp (Core.set_np_random tape s))).
  - destruct (contains forb j1).
    + now apply IH.
    + unfold ret in *. inversion H; subst. reflexivity.
  - unfold Core.np_random_choice.
    change (Core.np_random (refill wb xp s)) with (Core.np_random s).
    rewrite Etape, Ej. destruct pool; [congruence | reflexivity].
Qed.

(** [_choose_pivots] reads [W] only in the columns below the cursor, and
    does not read [X_piv]. *)
Lemma choose_pivots_refill (s s1 : St) (wa wb : list (list R))
  (xp : option (list (obj * obj))) (i j : Z) :
  Core.W s = Some wa -> length wb = length wa ->
  (forall q, firstn (Core._ihyprpln s) (row wb q)
             = firstn (Core._ihyprpln s) (row wa q)) ->
  Core._choose_pivots dist s = Ok (i, j) s1 ->
  Core._choose_pivots dist (refill wb xp s) = Ok (i, j) (refill wb xp s1).
Proof.
  intros HWa Hlen Hrows H. unfold Core._choose_pivots in H.
  rewrite (bind_run _ _ _ _ _ (pivot_ids_run s)) in H.
  set (sa := Core.set_pivot_ids (Some (CorePure.table s)) s) in *.
  rewrite bind_get in H.
  apply bind_Ok in H. destruct H as (j0 & sb & Hd & H).
  pose proof (draw_start_refill wb xp _ _ _ _ _ Hd) as Hd'.
  apply draw_start_Ok in Hd.
  destruct Hd as (pool1' & tape & _ & _ & _ & ->).
  set (sb := Core.set_np_random tape sa) in *.
  apply bind_Ok in H. destruct H as (far1 & s2 & Hf1 & H).
  apply (furthest_Ok dist o_a) in Hf1.
  destruct Hf1 as (-> & x & w & pool0 & HX & HW & Hp0 & Hx0 & Hw0 & Hxj0
                   & Hwj0 & ->).
  apply bind_Ok in H. destruct H as (i' & s2 & Hi & H).
  apply lift_Ok in Hi. destruct Hi as (Hi & ->).
  apply bind_Ok in H. destruct H as (far2 & s2 & Hf2 & H).
  apply (furthest_Ok dist o_a) in Hf2.
  destruct Hf2 as (-> & x2 & w2 & pool1 & HX2 & HW2 & Hp1 & Hx1 & Hw1 & Hxi
                   & Hwi & ->).
  apply bind_Ok in H. destruct H as (j' & s2 & Hj & H).
  apply lift_Ok in Hj. destruct Hj as (Hj & ->).
  unfold ret in H. inversion H; subst i' j' s1; clear H.
  assert (x2 = x) by congruence. assert (w2 = w) by congruence. subst x2 w2.
  assert (w = wa) by (change (Core.W sb) with (Core.W s) in HW; congruence).
  subst w.
  unfold Core._choose_pivots.
  rewrite (bind_run _ _ _ _ _ (pivot_ids_run (refill wb xp s))).
  change (Core.set_pivot_ids (Some (CorePure.table (refill wb xp s)))
            (refill wb xp s)) with (refill wb xp sa).
  rewrite bind_get.
  change (Core._ihyprpln (refill wb xp sa)) with (Core._ihyprpln sa).
  change (Core.np_random (refill wb xp sa)) with (Core.np_random sa).
  change (CorePure.table (refill wb xp s)) with (CorePure.table s).
  rewrite (bind_run _ _ _ _ _ Hd').
  change (Core._supervised (refill wb xp sa)) with (Core._supervised sa).
  assert (Hrank : forall pool q,
            CorePure.ranking dist o_a x wb (Core._ihyprpln sb) pool q
            = CorePure.ranking dist o_a x wa (Core._ihyprpln sb) pool q).
  { intros pool q. unfold CorePure.ranking.
    now rewrite (dmat_W_ext o_a x wa wb (Core._ihyprpln sb) pool q Hrows). }
  rewrite (bind_run _ _ _ _ _
             (furthest_run dist o_a (refill wb xp sb) x wb _ pool0 j0
                HX eq_refl Hp0 Hx0
                ltac:(rewrite Hlen; exact Hw0) Hxj0
                ltac:(rewrite Hlen; exact Hwj0))).
  change (Core._ihyprpln (refill wb xp sb)) with (Core._ihyprpln sb).
  rewrite Hrank.
  rewrite (bind_run _ _ _ i (refill wb xp sb)) by (now rewrite Hi).
  rewrite (bind_run _ _ _ _ _
             (furthest_run dist o_a (refill wb xp sb) x wb _ pool1 i
                HX eq_refl Hp1 Hx1
                ltac:(rewrite Hlen; exact Hw1) Hxi
                ltac:(rewrite Hlen; exact Hwi))).
  change (Core._ihyprpln (refill wb xp sb)) with (Core._ihyprpln sb).
  rewrite Hrank.
  rewrite (bind_run _ _ _ j (refill wb xp sb)) by (now rewrite Hj).
  reflexivity.
Qed.

Lemma firstn_S_set_nth {A} (d : nat) (c : A) (ra rb : list A) :
  length rb = length ra -> firstn d rb = firstn d ra ->
  firstn (S d) (set_nth d c rb) = firstn (S d) (set_nth d c ra).
Proof.
  intros Hlen Hfirst.
  destruct (Nat.lt_ge_cases d (length ra)) as [Hlt | Hge].
  - rewrite (firstn_S_nth d (set_nth d c rb) c) by (rewrite set_nth_length; lia).
    rewrite (firstn_S_nth d (set_nth d c ra) c) by (rewrite set_nth_length; lia).
    rewrite !firstn_set_nth by apply Nat.le_refl.
    rewrite !nth_set_nth_eq by lia. now rewrite Hfirst.
  - rewrite !set_nth_out by lia.
    rewrite !firstn_all2 by lia.
    rewrite <- (firstn_all2 rb (n := d)) by lia.
    rewrite <- (firstn_all2 ra (n := d)) by lia.
    exact Hfirst.
Qed.

Lemma row_set_column_any (d : nat) (col : list R) (w : list (list R))
  (q : Z) :
  length col = length w ->
  row (set_column d col w) q
  = set_nth d (nth (Z.to_nat q) col 0) (row w q).
Proof.
  intros Hlen. unfold CorePure.row.
  destruct (Nat.lt_ge_cases (Z.to_nat q) (length w)) as [Hlt | Hge].
  - apply nth_error_nth. apply nth_error_set_column.
    + now apply nth_error_nth'.
    + apply nth_error_nth'. lia.
  - rewrite (nth_overflow w) by exact Hge.
    rewrite nth_overflow by (rewrite set_column_length; assumption).
    symmetry. apply set_nth_out. simpl. lia.
Qed.

Lemma fit_column_refill (x : list obj) (wa wb : list (list R)) (d : nat)
  (i j : Z) :
  (forall q, firstn d (row wb q) = firstn d (row wa q)) ->
  in_range (length x) i -> in_range (length x) j ->
  CorePure.fit_column dist o_b x wb d i j
  = CorePure.fit_column dist o_a x wa d i j.
Proof.
  intros Hrows Hi Hj. unfold CorePure.fit_column.
  rewrite !(dmat_W_ext o_b x wa wb d _ _ Hrows).
  rewrite <- (dmat_fill x wa d [i] j (Forall_cons _ Hi (Forall_nil _)) Hj).
  rewrite <- (dmat_fill x wa d _ i (in_range_arange (length x)) Hi).
  rewrite <- (dmat_fill x wa d _ j (in_range_arange (length x)) Hj).
  reflexivity.
Qed.

(** A run of the training loop with the fill values [np_a], [o_a] is a
    run with the fill values [np_b], [o_b], with the same pivots; the two
    runs agree on the columns of [W] and the rows of [X_piv] that they
    have written. *)
Lemma trains_refill (x : list obj) :
  forall (dims : list nat) (sA : St) (P : list (Z * Z)) (sA' : St),
    CorePure.trains dist o_a x dims sA P sA' ->
    forall (d m : nat) (wa wb : list (list R))
           (xp : option (list (obj * obj))),
      dims = seq d m ->
      Core._X sA = Some x -> Core.W sA = Some wa ->
      length wa = length x -> length wb = length wa ->
      (forall q, firstn d (row wb q) = firstn d (row wa q)) ->
      (forall q, length (row wb q) = length (row wa q)) ->
      length (CorePure.xtable o_b (refill wb xp sA))
      = length (CorePure.xtable o_a sA) ->
      firstn d (CorePure.xtable o_b (refill wb xp sA))
      = firstn d (CorePure.xtable o_a sA) ->
      exists wa' wb' xp',
        Core.W sA' = Some wa' /\ length wb' = length wa' /\
        CorePure.trains dist o_b x dims (refill wb xp sA) P
          (refill wb' xp' sA') /\
        (forall q, firstn (d + m) (row wb' q) = firstn (d + m) (row wa' q)) /\
        (forall q, length (row wb' q) = length (row wa' q)) /\
        length (CorePure.xtable o_b (refill wb' xp' sA'))
        = length (CorePure.xtable o_a sA') /\
        firstn (d + m) (CorePure.xtable o_b (refill wb' xp' sA'))
        = firstn (d + m) (CorePure.xtable o_a sA').
Proof.
  induction 1 as [s | d0 dims s s1 s' w0 i j P HW0 Hc Ht IH];
    intros d m wa wb xp Edims HX HW Hlenx Hlen Hrows Hrl Hxl Hxf.
  - destruct m; [|discriminate]. rewrite Nat.add_0_r.
    exists wa, wb, xp. split; [exact HW|]. split; [exact Hlen|].
    split; [constructor|]. repeat (split; [assumption|]). assumption.
  - destruct m as [|m]; [discriminate|].
    cbn [seq] in Edims. inversion Edims; subst d0 dims. clear Edims.
    assert (w0 = wa) by congruence. subst w0.
    destruct (choose_pivots_Ok dist o_a _ _ _ _ Hc)
      as (x' & w' & tape & pool0 & pool1 & j0 & HX' & _ & _ & _ & _
          & Hx0 & _ & Hx1 & _ & Hsel).
    assert (x' = x) by (change (Core._X (Core.set_ihyprpln d s))
                          with (Core._X s) in HX'; congruence).
    subst x'.
    destruct (selects_members dist o_a _ _ _ _ _ _ _ _ _ Hsel)
      as (Hin_i & Hin_j & _).
    assert (Hi : in_range (length x) i)
      by (rewrite Forall_forall in Hx0; now apply Hx0).
    assert (Hj : in_range (length x) j)
      by (rewrite Forall_forall in Hx1; now apply Hx1).
    destruct (choose_pivots_frame dist o_a _ _ _ _ Hc)
      as (F1 & F2 & F3 & F4 & F5 & F6 & F7 & F8 & F9 & F10).
    pose proof (choose_pivots_refill (Core.set_ihyprpln d s) s1 wa wb xp i j
                  HW Hlen Hrows Hc) as HcB.
    set (col := CorePure.fit_column dist o_a x wa d i j).
    assert (Hcol : CorePure.fit_column dist o_b x wb d i j = col)
      by (now apply fit_column_refill).
    assert (Hcollen : length col = length wa)
      by (unfold col; rewrite fit_column_length; now symmetry).
    set (wa1 := set_column d col wa).
    set (wb1 := set_column d col wb).
    set (xb := CorePure.xtable o_b (refill wb xp s1)).
    set (xp1 := Some (set_nth d (CorePure.ob o_b x i, CorePure.ob o_b x j) xb)).
    assert (Exa : CorePure.xtable o_a s1 = CorePure.xtable o_a s).
    { unfold CorePure.xtable. now rewrite F8, F4. }
    assert (Exb : xb = CorePure.xtable o_b (refill wb xp s)).
    { unfold xb, CorePure.xtable. cbn [Core._X_piv Core.set_X_piv].
      destruct xp; [reflexivity|].
      change (Core._n_dim (refill wb None s1)) with (Core._n_dim s1).
      change (Core._n_dim (refill wb None s)) with (Core._n_dim s).
      now rewrite F4. }
    destruct (IH (S d) m wa1 wb1 xp1 eq_refl) as
        (wa' & wb' & xp' & HW' & Hlen' & HtB & Hrows' & Hrl' & Hxl' & Hxf').
    + change (Core._X (CorePure.after_dimension dist o_a s1 x wa d i j))
        with (Core._X s1). now rewrite F1.
    + reflexivity.
    + unfold wa1. now rewrite set_column_length.
    + unfold wa1, wb1. rewrite !set_column_length; [exact Hlen | exact Hcollen|].
      now rewrite Hcollen.
    + intros q. unfold wa1, wb1.
      rewrite !row_set_column_any by (rewrite ?Hcollen; auto).
      apply firstn_S_set_nth; [apply Hrl | apply Hrows].
    + intros q. unfold wa1, wb1.
      rewrite !row_set_column_any by (rewrite ?Hcollen; auto).
      rewrite !set_nth_length. apply Hrl.
    + change (CorePure.xtable o_b
                (refill wb1 xp1 (CorePure.after_dimension dist o_a s1 x wa d i j)))
        with (set_nth d (CorePure.ob o_b x i, CorePure.ob o_b x j) xb).
      change (CorePure.xtable o_a
                (CorePure.after_dimension dist o_a s1 x wa d i j))
        with (set_nth d (CorePure.ob o_a x i, CorePure.ob o_a x j)
                (CorePure.xtable o_a s1)).
      rewrite !set_nth_length, Exa, Exb. exact Hxl.
    + change (CorePure.xtable o_b
                (refill wb1 xp1 (CorePure.after_dimension dist o_a s1 x wa d i j)))
        with (set_nth d (CorePure.ob o_b x i, CorePure.ob o_b x j) xb).
      change (CorePure.xtable o_a
                (CorePure.after_dimension dist o_a s1 x wa d i j))
        with (set_nth d (CorePure.ob o_a x i, CorePure.ob o_a x j)
                (CorePure.xtable o_a s1)).
      rewrite <- (ob_fill x i Hi), <- (ob_fill x j Hj).
      rewrite Exa, Exb. now apply firstn_S_set_nth.
    + exists wa', wb', xp'. split; [exact HW'|]. split; [exact Hlen'|].
      replace (d + S m)%nat with (S d + m)%nat by lia.
      split; [|repeat (split; [assumption|]); assumption].
      apply (CorePure.trains_cons dist o_b x d (seq (S d) m)
               (refill wb xp s) (refill wb xp s1) _ wb i j P).
      * reflexivity.
      * exact HcB.
      * unfold CorePure.after_dimension at 1. rewrite Hcol. exact HtB.
Qed.

Lemma tables_ok_fill (s : St) :
  CorePure.tables_ok o_a np_a s -> CorePure.tables_ok o_b np_b s.
Proof.
  unfold CorePure.tables_ok, CorePure.xtable, CorePure.wtable.
  intros (T1 & T2 & T3). split; [exact T1|]. split.
  - destruct (Core._X_piv s); [exact T2 | apply repeat_length].
  - destruct (Core._W_piv s); [exact T3 | apply repeat_length].
Qed.

Lemma begin_state_refill (X_train : list obj) (labels : option (list Z))
  (s : St) :
  CorePure.begin_state np_b X_train labels s
  = refill (repeat (repeat np_b (Core._n_dim s)) (length X_train))
      (Core._X_piv s) (CorePure.begin_state np_a X_train labels s).
Proof. destruct s, labels; reflexivity. Qed.

Lemma begin_state_X_piv (np : R) (X_train : list obj)
  (labels : option (list Z)) (s : St) :
  Core._X_piv (CorePure.begin_state np X_train labels s) = Core._X_piv s.
Proof. destruct labels; reflexivity. Qed.

Lemma trains_nil_inv (o : obj) (x : list obj) (s s' : St) (P : list (Z * Z)) :
  CorePure.trains dist o x [] s P s' -> s' = s.
Proof. intros H. inversion H. reflexivity. Qed.

Lemma refill_same (s : St) (w : list (list R)) :
  Core.W s = Some w -> refill w (Core._X_piv s) s = s.
Proof. destruct s; simpl. intros ->. reflexivity. Qed.

Lemma length_row_repeat (ra rb : list R) (n : nat) (q : Z) :
  length ra = length rb ->
  length (row (repeat rb n) q) = length (row (repeat ra n) q).
Proof.
  intros H. unfold CorePure.row.
  destruct (Nat.lt_ge_cases (Z.to_nat q) n) as [Hlt | Hge].
  - rewrite !nth_repeat_lt by exact Hlt. now symmetry.
  - rewrite !nth_overflow by (rewrite repeat_length; exact Hge). reflexivity.
Qed.

(** X16.  The fitted instance does not depend on the values that [fit] and the
    properties [X_piv] and [W_piv] put into the arrays they allocate
    ([np.nan] and empty object slots in the source): a training run that
    returns with one choice of those values returns the same instance
    with any other, because every cell is written before it is read. *)
Theorem fit_independent_of_fill_values (X_train : list obj)
  (labels : option (list Z)) (s0 s' : St) :
  CorePure.tables_ok o_a np_a s0 -> (0 < Core._batch_size s0)%Z ->
  Core.fit dist np_a o_a X_train labels s0 = Ok tt s' ->
  Core.fit dist np_b o_b X_train labels s0 = Ok tt s'.
Proof.
  intros Hok Hbs Hfit.
  pose proof (tables_ok_fill s0 Hok) as Hokb.
  destruct (fit_Ok_inv dist np_a o_a _ _ _ _ Hok Hbs Hfit)
    as (P & sL & wL & Ht & HW & ->).
  destruct (trained_loop dist np_a o_a _ _ _ _ _ Hok Ht)
    as (wL' & HW' & Hlen & HP & L1 & L2 & L3 & L4 & L5 & Hrow & Hrec).
  assert (wL' = wL) by congruence. subst wL'.
  destruct (begin_state_facts np_a o_a X_train labels s0)
    as (B1 & B2 & B3 & B4 & B5 & B6 & B7 & B8 & B9).
  destruct (begin_state_facts np_b o_b X_train labels s0)
    as (_ & _ & _ & _ & _ & B6b & _).
  cbv zeta in B1, B2, B3, B4, B5, B6, B7, B8, B9, B6b.
  destruct Hok as (T1 & T2 & T3). destruct Hokb as (_ & T2b & _).
  destruct (trains_refill X_train _ _ _ _ Ht 0 (Core._n_dim s0)
              (repeat (repeat np_a (Core._n_dim s0)) (length X_train))
              (repeat (repeat np_b (Core._n_dim s0)) (length X_train))
              (Core._X_piv s0) eq_refl B1 B2)
    as (wa' & wb' & xp' & HWa' & Hlen' & HtB & Hrows' & Hrl' & Hxl' & Hxf').
  - apply repeat_length.
  - now rewrite !repeat_length.
  - reflexivity.
  - intros q. apply length_row_repeat. now rewrite !repeat_length.
  - rewrite <- begin_state_refill. rewrite B6b, B6. congruence.
  - reflexivity.
  - rewrite <- begin_state_refill in HtB.
    assert (wa' = wL) by congruence. subst wa'.
    cbn [Nat.add] in Hrows', Hxf'.
    assert (Ewb : wb' = wL).
    { apply (nth_ext _ _ [] []); [exact Hlen'|].
      intros k Hk.
      assert (Hq : in_range (length X_train) (Z.of_nat k))
        by (unfold in_range; lia).
      pose proof (Hrows' (Z.of_nat k)) as E.
      pose proof (Hrl' (Z.of_nat k)) as El.
      pose proof (Hrow _ Hq) as Ed.
      unfold CorePure.row in E, El, Ed. rewrite Nat2Z.id in E, El, Ed.
      rewrite !firstn_all2 in E by lia. exact E. }
    subst wb'.
    assert (Exp : xp' = Core._X_piv sL).
    { destruct (Nat.eq_dec (Core._n_dim s0) 0) as [E0 | N0].
      - rewrite E0 in Ht, HtB. cbn [seq] in Ht, HtB.
        apply trains_nil_inv in Ht. apply trains_nil_inv in HtB.
        apply (f_equal Core._X_piv) in HtB.
        cbn [Core._X_piv Core.set_X_piv] in HtB.
        rewrite HtB, Ht, !begin_state_X_piv. reflexivity.
      - assert (Hne : seq 0 (Core._n_dim s0) <> []).
        { destruct (Core._n_dim s0); [congruence | discriminate]. }
        pose proof (trains_X_piv dist o_a _ _ _ _ _ Ht (or_intror Hne)) as Ea.
        pose proof (trains_X_piv dist o_b _ _ _ _ _ HtB (or_intror Hne)) as Eb.
        cbn [Core._X_piv Core.set_X_piv] in Eb.
        rewrite Ea, Eb. f_equal.
        rewrite <- (firstn_all2 (n := Core._n_dim s0)
                      (CorePure.xtable o_b (refill wL xp' sL))) by lia.
        rewrite <- (firstn_all2 (n := Core._n_dim s0)
                      (CorePure.xtable o_a sL)) by lia.
        exact Hxf'. }
    subst xp'. rewrite (refill_same sL wL HW) in HtB.
    apply (fit_eq dist np_b o_b _ _ _ _ _ _ (tables_ok_fill s0
             (conj T1 (conj T2 T3))) Hbs HtB HW).
Qed.

End Fill.

(** ** Further properties of [fastmap.py] *)

Section SVMFurther.

Context {obj : Type}.
Variable dist : obj -> obj -> R.
Variable dflt : obj.

Local Abbreviation SSt := (@SVM.FastMapSVM obj).
Local Abbreviation key := (SVMPure.key dist dflt).
Local Abbreviation sranking := (SVMPure.ranking dist dflt).
Local Abbreviation round := (SVMPure.round dist dflt).

Lemma select_max_le (s : SSt) (forb : list Z) (label : option Z) (q v : Z) :
  (forall u, In u (SVMPure.pool s label) -> contains forb u = false ->
             u = v \/ key s q u < key s q v \/
             (key s q u = key s q v /\ (u < v)%Z)) ->
  forall u, In u (SVMPure.pool s label) -> contains forb u = false ->
            key s q u <= key s q v.
Proof.
  intros H u Hu Hf. destruct (H u Hu Hf) as [-> | [Hlt | [Heq _]]].
  - apply Rle_refl.
  - now apply Rlt_le.
  - rewrite Heq. apply Rle_refl.
Qed.

(** Whenever the refinement loop returns, it returns a pair that one more
    pass would leave unchanged. *)
Lemma refine_Ok_inv (s : SSt) (forb : list Z) :
  SVMPure.well_formed s ->
  (exists a, In a (SVMPure.pool s (Some 0%Z)) /\ contains forb a = false) ->
  forall (fuel : nat) (cur : option Z) (j : Z) (prev : option (Z * Z))
         (ij : Z * Z) (s' : SSt),
    In j (SVMPure.pool s (Some 1%Z)) -> contains forb j = false ->
    (forall p, prev = Some p -> snd p = j) ->
    SVM.refine dist fuel forb cur j prev s = Ok ij s' ->
    s' = s /\
    In (fst ij) (SVMPure.pool s (Some 0%Z)) /\ contains forb (fst ij) = false /\
    In (snd ij) (SVMPure.pool s (Some 1%Z)) /\ contains forb (snd ij) = false /\
    (forall u, In u (SVMPure.pool s (Some 0%Z)) -> contains forb u = false ->
               key s (snd ij) u <= key s (snd ij) (fst ij)) /\
    (forall v, In v (SVMPure.pool s (Some 1%Z)) -> contains forb v = false ->
               key s (fst ij) v <= key s (fst ij) (snd ij)).
Proof.
  intros Hwf Hex0.
  assert (Hne : SVMPure.pool s (Some 0%Z) <> []).
  { destruct Hex0 as (a & Ha & _). intros E. rewrite E in Ha. contradiction. }
  induction fuel as [|fuel IH]; intros cur j prev ij s' Hj Hfj Hprev H.
  - discriminate.
  - destruct (svm_select_max dist dflt s forb (Some 0%Z) j cur Hex0)
      as (i' & Ei & Hi' & Hfi' & Mi).
    destruct (svm_select_max dist dflt s forb (Some 1%Z) i' (Some j))
      as (j' & Ej & Hj' & Hfj' & Mj).
    { now exists j. }
    assert (Hround : round s forb cur j = Some (i', j')).
    { unfold SVMPure.round. now rewrite Ei, Ej. }
    assert (Hrj : in_range (length (SVM._X s)) j).
    { pose proof (svm_pool_in_range s (Some 1%Z) Hwf) as Hall.
      rewrite Forall_forall in Hall. now apply Hall. }
    cbn [SVM.refine] in H.
    rewrite (bind_run _ _ _ (i', j') s
               (refine_round_run dist dflt s forb cur j (i', j') Hwf Hrj Hne
                  Hround)) in H.
    destruct (SVM.same_pair (i', j') prev) eqn:Esame.
    + unfold ret in H. inversion H; subst ij s'. clear H.
      destruct prev as [p|]; [|discriminate].
      apply same_pair_true in Esame. subst p.
      specialize (Hprev (i', j') eq_refl). cbn [snd] in Hprev. subst j'.
      cbn [fst snd]. split; [reflexivity|].
      repeat (split; [assumption|]).
      split.
      * now apply (select_max_le s forb (Some 0%Z) j i').
      * now apply (select_max_le s forb (Some 1%Z) i' j).
    + cbn [fst snd] in H.
      apply (IH (Some i') j' (Some (i', j')) ij s' Hj' Hfj'); [|exact H].
      intros p E. inversion E. reflexivity.
Qed.

(** X13.  The pair returned by the refinement loop of [_choose_pivots] is
    mutually farthest.  With one row of [W] and one label per object, a
    first draw labelled 1 that is not forbidden and some object labelled
    0 that is not forbidden: whenever the loop returns a pair [(i, j)],
    the instance is unchanged, [i] is labelled 0, [j] is labelled 1,
    neither is forbidden, no allowed object labelled 0 is farther from
    [j] than [i] is, and no allowed object labelled 1 is farther from [i]
    than [j] is. *)
Theorem refine_returns_mutually_farthest (s s' : SSt) (forb : list Z)
  (j0 : Z) (fuel : nat) (ij : Z * Z) :
  SVMPure.well_formed s ->
  In j0 (SVMPure.pool s (Some 1%Z)) -> contains forb j0 = false ->
  (exists a, In a (SVMPure.pool s (Some 0%Z)) /\ contains forb a = false) ->
  SVM.refine dist fuel forb None j0 None s = Ok ij s' ->
  s' = s /\
  In (fst ij) (SVMPure.pool s (Some 0%Z)) /\ contains forb (fst ij) = false /\
  In (snd ij) (SVMPure.pool s (Some 1%Z)) /\ contains forb (snd ij) = false /\
  (forall u, In u (SVMPure.pool s (Some 0%Z)) -> contains forb u = false ->
             key s (snd ij) u <= key s (snd ij) (fst ij)) /\
  (forall v, In v (SVMPure.pool s (Some 1%Z)) -> contains forb v = false ->
             key s (fst ij) v <= key s (fst ij) (snd ij)).
Proof.
  intros Hwf Hj Hfj Hex H.
  apply (refine_Ok_inv s forb Hwf Hex fuel None j0 None ij s' Hj Hfj);
    [discriminate | exact H].
Qed.

Lemma list_prod_singleton {A B} (l : list A) (b : B) :
  list_prod l [b] = map (fun a => (a, b)) l.
Proof.
  induction l as [|a l IH]; [reflexivity|].
  cbn [list_prod map app]. now rewrite IH.
Qed.

Lemma svm_pdist_to_run (s : SSt) (idxs : list Z) (u : Z) :
  SVMPure.well_formed s ->
  Forall (in_range (length (SVM._X s))) idxs ->
  in_range (length (SVM._X s)) u ->
  SVM.pdist dist idxs [u] s = Ok (map (fun k => key s k u) idxs) s.
Proof.
  intros Hwf Hall Hu. unfold SVM.pdist. rewrite list_prod_singleton.
  rewrite (mapM_ext_run _ (fun ab => key s (fst ab) (snd ab))).
  - now rewrite map_map.
  - intros [a b] Hin. apply in_map_iff in Hin.
    destruct Hin as (k & E & Hk). inversion E; subst. cbn [fst snd].
    rewrite Forall_forall in Hall.
    apply (svm_pdist_run dist dflt); [exact Hwf | now apply Hall | exact Hu].
Qed.

Lemma embed_coordinate_nonzero (a b d : R) :
  d <> 0 ->
  SVM.embed_coordinate a b d
  = SVM.Finite (np_clip_0_inf
                  ((np_square a - np_square b + d * d) / (2 * d))).
Proof.
  intros Hd. unfold SVM.embed_coordinate, SVM.np_true_divide.
  destruct (Req_dec_T (2 * d) 0) as [E | _]; [exfalso; apply Hd; lra|].
  unfold SVM.zero_negative, np_clip_0_inf.
  destruct (Rlt_dec _ 0) as [Hlt | Hge].
  - now rewrite Rmax_right by lra.
  - now rewrite Rmax_left by lra.
Qed.

(** X14.  When the two pivots are not at residual distance 0, the column
    that [embed_database] computes is finite.  With one row of [W] and
    one label per object and valid pivot indices at residual distance
    [d_ij <> 0], the column has one entry per object, each the finite
    number [max ((d_ik^2 - d_jk^2 + d_ij^2) / (2 d_ij), 0)]; the instance
    is left as it was. *)
Theorem embed_database_column_finite (s : SSt) (ipiv jpiv : Z) :
  SVMPure.well_formed s ->
  in_range (length (SVM._X s)) ipiv -> in_range (length (SVM._X s)) jpiv ->
  key s ipiv jpiv <> 0 ->
  SVM.embed_database_column dist ipiv jpiv s
  = Ok (map (fun k =>
               SVM.Finite
                 (np_clip_0_inf
                    ((np_square (key s k ipiv) - np_square (key s k jpiv)
                      + key s ipiv jpiv * key s ipiv jpiv)
                     / (2 * key s ipiv jpiv))))
            (np_arange (length (SVM._X s))))
       s.
Proof.
  intros Hwf Hi Hj Hd. unfold SVM.embed_database_column. rewrite bind_get.
  unfold SVM.distance.
  rewrite (bind_run _ _ _ _ _ (svm_pdist_run dist dflt s ipiv jpiv Hwf Hi Hj)).
  rewrite (bind_run _ _ _ _ _
             (svm_pdist_to_run s _ ipiv Hwf (in_range_arange _) Hi)).
  rewrite (bind_run _ _ _ _ _
             (svm_pdist_to_run s _ jpiv Hwf (in_range_arange _) Hj)).
  unfold ret. f_equal.
  induction (np_arange (length (SVM._X s))) as [|k l IH]; [reflexivity|].
  cbn [map combine fst snd]. rewrite IH. f_equal.
  now apply embed_coordinate_nonzero.
Qed.

End SVMFurther.

(** ** The further properties on the examples *)

Lemma line_dist_refl (a : Z) : Line.dist a a = 0.
Proof. unfold Line.dist. now rewrite Z.sub_diag. Qed.

Lemma line_dist_nonneg (a b : Z) : 0 <= Line.dist a b.
Proof. unfold Line.dist. apply (IZR_le 0). apply Z.abs_nonneg. Qed.

Lemma line_begin_in_range (l : list Z) :
  (forall u, In u l -> (0 <= u < 4)%Z) -> Forall (in_range 4) l.
Proof.
  intros H. apply Forall_forall. intros u Hu. unfold in_range. simpl.
  apply H in Hu. lia.
Qed.

Lemma distance_matrix_any_batch_size_witness :
  Core._X (CorePure.begin_state 0 Line.X (Some Line.y) Line.s0) = Some Line.X /\
  Core.W (CorePure.begin_state 0 Line.X (Some Line.y) Line.s0)
  = Some (repeat (repeat 0 2) 4) /\
  (0 < 3)%Z /\ [0; 1; 2; 3]%Z <> [] /\
  Forall (in_range (length Line.X)) [0; 1; 2; 3]%Z /\
  Forall (in_range (length (repeat (repeat 0 2) 4))) [0; 1; 2; 3]%Z /\
  in_range (length Line.X) 0 /\
  in_range (length (repeat (repeat 0 2) 4)) 0 /\
  Core.distance_matrix Line.dist [0; 1; 2; 3]%Z 0
    (Core.set_batch_size 3
       (CorePure.begin_state 0 Line.X (Some Line.y) Line.s0))
  = Ok (map (fun i =>
               residual
                 (Core._ihyprpln
                    (CorePure.begin_state 0 Line.X (Some Line.y) Line.s0))
                 (CorePure.row (repeat (repeat 0 2) 4) i)
                 (CorePure.row (repeat (repeat 0 2) 4) 0)
                 (Line.dist (CorePure.ob 0%Z Line.X i)
                    (CorePure.ob 0%Z Line.X 0)))
            [0; 1; 2; 3]%Z)
       (Core.set_batch_size 3
          (CorePure.begin_state 0 Line.X (Some Line.y) Line.s0)).
Proof.
  assert (Hr : Forall (in_range 4) [0; 1; 2; 3]%Z)
    by (apply line_begin_in_range; simpl; intros u Hu; lia).
  assert (H0 : in_range 4 0) by (unfold in_range; simpl; lia).
  split; [reflexivity|]. split; [reflexivity|]. split; [lia|].
  split; [discriminate|]. split; [exact Hr|]. split; [exact Hr|].
  split; [exact H0|]. split; [exact H0|].
  apply (distance_matrix_any_batch_size Line.dist 0%Z
           (CorePure.begin_state 0 Line.X (Some Line.y) Line.s0)
           Line.X (repeat (repeat 0 2) 4) [0; 1; 2; 3]%Z 0 3
           eq_refl eq_refl ltac:(lia) ltac:(discriminate) Hr Hr H0 H0).
Defined.


Lemma pivot_snapshot_coordinates_witness :
  exists s',
    CorePure.tables_ok 0%Z 0 Line.s0 /\
    (0 < Core._batch_size Line.s0)%Z /\
    (Z.of_nat (length Line.X) <= 65536)%Z /\
    (forall a, Line.dist a a = 0) /\
    (forall a b, Line.dist a b = Line.dist b a) /\
    (forall a b, 0 <= Line.dist a b) /\
    Core.fit Line.dist 0 0%Z Line.X (Some Line.y) Line.s0 = Ok tt s' /\
    (1 < Core._n_dim Line.s0)%nat /\
    exists Xp Wp x_i x_j w_i w_j,
      Core._X_piv s' = Some Xp /\ Core._W_piv s' = Some Wp /\
      nth_error Xp 1 = Some (x_i, x_j) /\ nth_error Wp 1 = Some (w_i, w_j) /\
      nth 1 w_i 0 = 0 /\
      nth 1 w_j 0
      = 2 * residual 1 w_i w_j (Line.dist x_i x_j)
          * residual 1 w_i w_j (Line.dist x_i x_j)
        / (2 * residual 1 w_i w_j (Line.dist x_i x_j) + EPSILON) /\
      0 <= nth 1 w_j 0 <= residual 1 w_i w_j (Line.dist x_i x_j).
Proof.
  destruct line_fit as (s' & Hfit). exists s'.
  split; [exact line_tables_ok|]. split; [reflexivity|].
  split; [simpl; lia|]. split; [exact line_dist_refl|].
  split; [exact line_dist_sym|]. split; [exact line_dist_nonneg|].
  split; [exact Hfit|]. split; [simpl; lia|].
  apply (pivot_snapshot_coordinates Line.dist 0 0%Z Line.X (Some Line.y)
           Line.s0 s' 1 line_tables_ok ltac:(reflexivity) ltac:(simpl; lia)
           line_dist_refl line_dist_sym line_dist_nonneg Hfit
           ltac:(simpl; lia)).
Defined.

Lemma transform_embeds_object_by_object_witness :
  exists s',
    CorePure.tables_ok 0%Z 0 Line.s0 /\
    (0 < Core._batch_size Line.s0)%Z /\
    (0 < Core._n_dim Line.s0)%nat /\
    Core.fit Line.dist 0 0%Z Line.X (Some Line.y) Line.s0 = Ok tt s' /\
    exists f : Z -> list R,
      (forall x, length (f x) = Core._n_dim Line.s0) /\
      (forall X_new, exists s'',
          Core.transform Line.dist 0 0%Z X_new s' = Ok (map f X_new) s'') /\
      (forall bs X_new, (0 < bs)%Z -> exists s'',
          Core.transform Line.dist 0 0%Z X_new (Core.set_batch_size bs s')
          = Ok (map f X_new) s'') /\
      (forall X_1 X_2, exists s'',
          Core.transform Line.dist 0 0%Z (X_1 ++ X_2) s'
          = Ok (map f X_1 ++ map f X_2) s'').
Proof.
  destruct line_fit as (s' & Hfit). exists s'.
  split; [exact line_tables_ok|]. split; [reflexivity|].
  split; [simpl; lia|]. split; [exact Hfit|].
  apply (transform_embeds_object_by_object Line.dist 0 0%Z Line.X
           (Some Line.y) Line.s0 s' line_tables_ok ltac:(reflexivity)
           ltac:(simpl; lia) Hfit).
Defined.

Lemma queries_outside_training_raise_witness :
  exists s',
    CorePure.tables_ok 0%Z 0 Line.s0 /\
    (0 < Core._batch_size Line.s0)%Z /\
    Core.fit Line.dist 0 0%Z Line.X (Some Line.y) Line.s0 = Ok tt s' /\
    (forall n_dim bs rng X_new,
        Core.transform Line.dist 0 0%Z X_new (Core.__init__ n_dim bs rng)
        = Raise AttributeError (Core.__init__ n_dim bs rng)) /\
    Core.n_obj s' = Raise AttributeError s' /\
    (forall idxs j,
        Core.distance_matrix Line.dist idxs j s' = Raise AttributeError s') /\
    (forall i label,
        Core.furthest Line.dist i label s' = Raise AttributeError s').
Proof.
  destruct line_fit as (s' & Hfit). exists s'.
  split; [exact line_tables_ok|]. split; [reflexivity|]. split; [exact Hfit|].
  apply (queries_outside_training_raise Line.dist 0 0%Z Line.X (Some Line.y)
           Line.s0 s' line_tables_ok ltac:(reflexivity) Hfit).
Defined.

Lemma transform_degenerate_batch_sizes_witness :
  exists s',
    CorePure.tables_ok 0%Z 0 Line.s0 /\
    (0 < Core._batch_size Line.s0)%Z /\
    (0 < Core._n_dim Line.s0)%nat /\
    Core.fit Line.dist 0 0%Z Line.X (Some Line.y) Line.s0 = Ok tt s' /\
    Core.transform Line.dist 0 0%Z [7; 8; 9]%Z (Core.set_batch_size 0 s')
    = Raise ValueError (Core.set_batch_size 0 s') /\
    forall bs, (bs < 0)%Z ->
      Core.transform Line.dist 0 0%Z [7; 8; 9]%Z (Core.set_batch_size bs s')
      = Ok (repeat (repeat 0 (Core._n_dim Line.s0)) (length [7; 8; 9]%Z))
           (Core.set_batch_size bs s').
Proof.
  destruct line_fit as (s' & Hfit). exists s'.
  split; [exact line_tables_ok|]. split; [reflexivity|].
  split; [simpl; lia|]. split; [exact Hfit|].
  apply (transform_degenerate_batch_sizes Line.dist 0 0%Z Line.X
           (Some Line.y) Line.s0 s' [7; 8; 9]%Z line_tables_ok
           ltac:(reflexivity) ltac:(simpl; lia) Hfit).
Defined.

Lemma choose_pivots_hangs_when_pool_forbidden_witness :
  CorePure.draw_pool
    (Core.set_ihyprpln 1
       (Core.set_pivot_ids (Some [(0, 0); (0, 0)]%Z)
          (CorePure.begin_state 0 [5%Z] None (Core.__init__ 2 1024 []))))
    [0%Z] /\
  [0%Z] <> [] /\
  (forall u, In u [0%Z] ->
     In u (CorePure.forbidden_at
             (Core._ihyprpln
                (Core.set_ihyprpln 1
                   (Core.set_pivot_ids (Some [(0, 0); (0, 0)]%Z)
                      (CorePure.begin_state 0 [5%Z] None
                         (Core.__init__ 2 1024 [])))))
             (CorePure.table
                (Core.set_ihyprpln 1
                   (Core.set_pivot_ids (Some [(0, 0); (0, 0)]%Z)
                      (CorePure.begin_state 0 [5%Z] None
                         (Core.__init__ 2 1024 []))))))) /\
  forall tape,
    Core._choose_pivots Line.dist
      (Core.set_np_random tape
         (Core.set_ihyprpln 1
            (Core.set_pivot_ids (Some [(0, 0); (0, 0)]%Z)
               (CorePure.begin_state 0 [5%Z] None
                  (Core.__init__ 2 1024 [])))))
    = Hang.
Proof.
  assert (Hpool : CorePure.draw_pool
            (Core.set_ihyprpln 1
               (Core.set_pivot_ids (Some [(0, 0); (0, 0)]%Z)
                  (CorePure.begin_state 0 [5%Z] None
                     (Core.__init__ 2 1024 []))))
            [0%Z]).
  { exists [5%Z]. split; reflexivity. }
  assert (Hall : forall u, In u [0%Z] -> In u [0; 0]%Z).
  { intros u [<- | []]. now left. }
  split; [exact Hpool|]. split; [discriminate|]. split; [exact Hall|].
  apply (choose_pivots_hangs_when_pool_forbidden Line.dist _ [0%Z] Hpool
           ltac:(discriminate) Hall).
Defined.

Lemma fit_single_object_never_returns_witness :
  CorePure.tables_ok 0%Z 0 (Core.__init__ 2 1024 [0%nat; 0%nat]) /\
  (0 < Core._batch_size (@Core.__init__ Z 2 1024 [0%nat; 0%nat]))%Z /\
  (2 <= Core._n_dim (@Core.__init__ Z 2 1024 [0%nat; 0%nat]))%nat /\
  Core.fit Line.dist 0 0%Z [5%Z] None (Core.__init__ 2 1024 [0%nat; 0%nat])
  = Hang.
Proof.
  assert (Hok : CorePure.tables_ok 0%Z 0
                  (Core.__init__ 2 1024 [0%nat; 0%nat]))
    by (repeat split).
  split; [exact Hok|]. split; [reflexivity|]. split; [simpl; lia|].
  apply (fit_single_object_never_returns Line.dist 0 0%Z 5%Z _ Hok
           ltac:(reflexivity) ltac:(simpl; lia)).
Defined.

Lemma line_choose_pivots_0 :
  exists s1,
    Core._choose_pivots Line.dist
      (Core.set_ihyprpln 0
         (CorePure.begin_state 0 Line.X (Some Line.y) Line.s0))
    = Ok (2%Z, 3%Z) s1.
Proof.
  destruct line_trains as (sL & Ht).
  inversion Ht; subst. eexists. eassumption.
Qed.

Lemma choose_pivots_opposite_classes_witness :
  exists s1,
    Core._supervised
      (Core.set_ihyprpln 0
         (CorePure.begin_state 0 Line.X (Some Line.y) Line.s0)) = true /\
    Core._y
      (Core.set_ihyprpln 0
         (CorePure.begin_state 0 Line.X (Some Line.y) Line.s0))
    = Some Line.y /\
    Core._choose_pivots Line.dist
      (Core.set_ihyprpln 0
         (CorePure.begin_state 0 Line.X (Some Line.y) Line.s0))
    = Ok (2%Z, 3%Z) s1 /\
    exists x w tape,
      Core._X (Core.set_ihyprpln 0
                 (CorePure.begin_state 0 Line.X (Some Line.y) Line.s0))
      = Some x /\
      Core.W (Core.set_ihyprpln 0
                (CorePure.begin_state 0 Line.X (Some Line.y) Line.s0))
      = Some w /\
      s1 = Core.set_np_random tape
             (Core.set_pivot_ids
                (Some (CorePure.table
                         (Core.set_ihyprpln 0
                            (CorePure.begin_state 0 Line.X (Some Line.y)
                               Line.s0))))
                (Core.set_ihyprpln 0
                   (CorePure.begin_state 0 Line.X (Some Line.y) Line.s0))) /\
      (0 <= 2)%Z /\ nth_error Line.y (Z.to_nat 2) = Some 0%Z /\
      (0 <= 3)%Z /\ nth_error Line.y (Z.to_nat 3) = Some 1%Z /\
      2%Z <> 3%Z /\
      ~ In 3%Z
          (CorePure.forbidden_at
             (Core._ihyprpln
                (Core.set_ihyprpln 0
                   (CorePure.begin_state 0 Line.X (Some Line.y) Line.s0)))
             (CorePure.table
                (Core.set_ihyprpln 0
                   (CorePure.begin_state 0 Line.X (Some Line.y) Line.s0)))) /\
      forall v,
        (0 <= v)%Z -> nth_error Line.y (Z.to_nat v) = Some 1%Z ->
        ~ In v
            (CorePure.forbidden_at
               (Core._ihyprpln
                  (Core.set_ihyprpln 0
                     (CorePure.begin_state 0 Line.X (Some Line.y) Line.s0)))
               (CorePure.table
                  (Core.set_ihyprpln 0
                     (CorePure.begin_state 0 Line.X (Some Line.y)
                        Line.s0)))) ->
        residual
          (Core._ihyprpln
             (Core.set_ihyprpln 0
                (CorePure.begin_state 0 Line.X (Some Line.y) Line.s0)))
          (CorePure.row w v) (CorePure.row w 2)
          (Line.dist (CorePure.ob 0%Z x v) (CorePure.ob 0%Z x 2))
        <= residual
             (Core._ihyprpln
                (Core.set_ihyprpln 0
                   (CorePure.begin_state 0 Line.X (Some Line.y) Line.s0)))
             (CorePure.row w 3) (CorePure.row w 2)
             (Line.dist (CorePure.ob 0%Z x 3) (CorePure.ob 0%Z x 2)).
Proof.
  destruct line_choose_pivots_0 as (s1 & Hc). exists s1.
  split; [reflexivity|]. split; [reflexivity|]. split; [exact Hc|].
  apply (choose_pivots_opposite_classes Line.dist 0%Z
           (Core.set_ihyprpln 0
              (CorePure.begin_state 0 Line.X (Some Line.y) Line.s0))
           s1 Line.y 2 3 eq_refl eq_refl Hc).
Defined.

Lemma fit_empty_training_set_raises_witness :
  (0 < Core._n_dim Line.s0)%nat /\
  exists s_e,
    Core.fit Line.dist 0 0%Z [] None Line.s0 = Raise ValueError s_e /\
    Core._X s_e = Some [] /\ Core.W s_e = Some [] /\
    Core._ihyprpln s_e = 0%nat.
Proof.
  split; [simpl; lia|].
  apply (fit_empty_training_set_raises Line.dist 0 0%Z Line.s0). simpl. lia.
Defined.


Lemma line_svm_well_formed : SVMPure.well_formed Line.svm0.
Proof. split; reflexivity. Qed.


Ltac line_le := unfold Line.dist, SVMPure.ob; apply IZR_le, Z.leb_le; reflexivity.
Ltac line_lt := unfold Line.dist, SVMPure.ob; apply IZR_lt, Z.ltb_lt; reflexivity.

(** On the four points of [Line], a pass of the refinement loop from the
    object 0 gives the pair (2, 3), and a pass from the object 3 gives the
    pair (1, 3). *)
Lemma line_svm_round_from_0 (cur : option Z) :
  SVM.refine_round Line.dist [] cur 0%Z Line.svm0 = Ok (2%Z, 3%Z) Line.svm0.
Proof.
  apply (refine_round_run Line.dist 0%Z).
  - exact line_svm_well_formed.
  - unfold in_range. simpl. lia.
  - discriminate.
  - unfold SVMPure.round, SVMPure.ranking, SVMPure.pool, SVMPure.key.
    cbn [Line.svm0 Line.y SVM.y SVM._X SVM.W SVM._ihyprpln
         np_argwhere_eq argwhere_from
         Z.eqb Pos.eqb Z.add Pos.add seq SVM.pdist_loop map].
    rewrite np_argsort_pair.
    rewrite Rleb_true by line_le.
    cbn [rev app take_positions map nth for_break contains existsb].
    rewrite np_argsort_pair.
    rewrite Rleb_true by line_le.
    reflexivity.
Qed.

Lemma line_svm_round_from_3 (cur : option Z) :
  SVM.refine_round Line.dist [] cur 3%Z Line.svm0 = Ok (1%Z, 3%Z) Line.svm0.
Proof.
  apply (refine_round_run Line.dist 0%Z).
  - exact line_svm_well_formed.
  - unfold in_range. simpl. lia.
  - discriminate.
  - unfold SVMPure.round, SVMPure.ranking, SVMPure.pool, SVMPure.key.
    cbn [Line.svm0 Line.y SVM.y SVM._X SVM.W SVM._ihyprpln
         np_argwhere_eq argwhere_from
         Z.eqb Pos.eqb Z.add Pos.add seq SVM.pdist_loop map].
    rewrite np_argsort_pair.
    rewrite Rleb_false by line_lt.
    cbn [rev app take_positions map nth for_break contains existsb].
    rewrite np_argsort_pair.
    rewrite Rleb_true by line_le.
    reflexivity.
Qed.

Lemma line_svm_refine :
  SVM.refine Line.dist 3 [] None 0%Z None Line.svm0
  = Ok (1%Z, 3%Z) Line.svm0.
Proof.
  cbn [SVM.refine].
  rewrite (bind_run _ _ _ _ _ (line_svm_round_from_0 None)).
  cbn [SVM.same_pair fst snd].
  rewrite (bind_run _ _ _ _ _ (line_svm_round_from_3 (Some 2%Z))).
  cbn [SVM.same_pair fst snd Z.eqb Pos.eqb andb].
  rewrite (bind_run _ _ _ _ _ (line_svm_round_from_3 (Some 1%Z))).
  reflexivity.
Qed.

Lemma refine_returns_mutually_farthest_witness :
  SVMPure.well_formed Line.svm0 /\
  In 0%Z (SVMPure.pool Line.svm0 (Some 1%Z)) /\
  contains [] 0%Z = false /\
  (exists a, In a (SVMPure.pool Line.svm0 (Some 0%Z)) /\
             contains [] a = false) /\
  SVM.refine Line.dist 3 [] None 0%Z None Line.svm0
  = Ok (1%Z, 3%Z) Line.svm0 /\
  Line.svm0 = Line.svm0 /\
  In (fst (1%Z, 3%Z)) (SVMPure.pool Line.svm0 (Some 0%Z)) /\
  contains [] (fst (1%Z, 3%Z)) = false /\
  In (snd (1%Z, 3%Z)) (SVMPure.pool Line.svm0 (Some 1%Z)) /\
  contains [] (snd (1%Z, 3%Z)) = false /\
  (forall u, In u (SVMPure.pool Line.svm0 (Some 0%Z)) ->
             contains [] u = false ->
             SVMPure.key Line.dist 0%Z Line.svm0 (snd (1%Z, 3%Z)) u
             <= SVMPure.key Line.dist 0%Z Line.svm0 (snd (1%Z, 3%Z))
                  (fst (1%Z, 3%Z))) /\
  (forall v, In v (SVMPure.pool Line.svm0 (Some 1%Z)) ->
             contains [] v = false ->
             SVMPure.key Line.dist 0%Z Line.svm0 (fst (1%Z, 3%Z)) v
             <= SVMPure.key Line.dist 0%Z Line.svm0 (fst (1%Z, 3%Z))
                  (snd (1%Z, 3%Z))).
Proof.
  assert (Hj : In 0%Z (SVMPure.pool Line.svm0 (Some 1%Z))) by (simpl; auto).
  assert (Hex : exists a, In a (SVMPure.pool Line.svm0 (Some 0%Z)) /\
                          contains [] a = false)
    by (exists 1%Z; split; [simpl; auto | reflexivity]).
  split; [exact line_svm_well_formed|]. split; [exact Hj|].
  split; [reflexivity|]. split; [exact Hex|]. split; [exact line_svm_refine|].
  apply (refine_returns_mutually_farthest Line.dist 0%Z Line.svm0 Line.svm0
           [] 0%Z 3 (1%Z, 3%Z) line_svm_well_formed Hj eq_refl Hex
           line_svm_refine).
Defined.

Lemma embed_database_column_finite_witness :
  SVMPure.well_formed Line.svm0 /\
  in_range (length (SVM._X Line.svm0)) 1 /\
  in_range (length (SVM._X Line.svm0)) 0 /\
  SVMPure.key Line.dist 0%Z Line.svm0 1 0 <> 0 /\
  SVM.embed_database_column Line.dist 1 0 Line.svm0
  = Ok (map (fun k =>
               SVM.Finite
                 (np_clip_0_inf
                    ((np_square (SVMPure.key Line.dist 0%Z Line.svm0 k 1)
                      - np_square (SVMPure.key Line.dist 0%Z Line.svm0 k 0)
                      + SVMPure.key Line.dist 0%Z Line.svm0 1 0
                        * SVMPure.key Line.dist 0%Z Line.svm0 1 0)
                     / (2 * SVMPure.key Line.dist 0%Z Line.svm0 1 0))))
            (np_arange (length (SVM._X Line.svm0))))
       Line.svm0.
Proof.
  assert (H1 : in_range (length (SVM._X Line.svm0)) 1)
    by (unfold in_range; simpl; lia).
  assert (H0 : in_range (length (SVM._X Line.svm0)) 0)
    by (unfold in_range; simpl; lia).
  assert (Hd : SVMPure.key Line.dist 0%Z Line.svm0 1 0 <> 0).
  { change (SVMPure.key Line.dist 0%Z Line.svm0 1 0) with (IZR 1). lra. }
  split; [exact line_svm_well_formed|]. split; [exact H1|].
  split; [exact H0|]. split; [exact Hd|].
  apply (embed_database_column_finite Line.dist 0%Z Line.svm0 1 0
           line_svm_well_formed H1 H0 Hd).
Defined.

(** ** Witness for the fill values *)

Lemma fit_independent_of_fill_values_witness :
  exists s',
    Core.fit Line.dist 0 0%Z Line.X (Some Line.y) Line.s0 = Ok tt s' /\
    Core.fit Line.dist 1 7%Z Line.X (Some Line.y) Line.s0 = Ok tt s'.
Proof.
  destruct line_fit as (s' & H). exists s'. split; [exact H|].
  apply (fit_independent_of_fill_values Line.dist 0 1 0%Z 7%Z Line.X
           (Some Line.y) Line.s0 s' line_tables_ok ltac:(reflexivity) H).
Defined.
